(** * VRM export/import core of [vrm.js]: GLB container writer and
    glTF reference mapper of the VRM extension.

    The development embeds the functions of [src/vrm.js] shallowly:
    - [serialize_glb] with its local helpers [getPaddedBufferSize] and
      [getPaddedArrayBuffer] (byte buffers are lists of bytes, the 32 bit
      fields of a [DataView] are written with their wrap-around);
    - the class [VrmExtensionMapper] ([convert_vrm] and its [_convert_*]
      methods), once, for both directions; the three callbacks of the
      mapper and the methods run in a monad that records what the code
      sends to [console] and how the run ends (it returns, or it throws
      and leaves the console as it was at the throw);
    - [attach_vrm_extension] (export direction, resolvers [ref_to_id]) and
      the resolvers [ref_to_real] of [parse_vrm] (import direction). *)

From Stdlib Require Import ZArith QArith Qround Lia.
From stdpp Require Import gmap strings list.

Local Open Scope Z_scope.

(** ** JavaScript values that the code passes through without looking *)

(** A JSON-like value. Numbers are finite doubles, which are rationals;
    the code never computes with a passed-through number. [JUndefined] is
    also what reading a key that an object does not have evaluates to. *)
#[warnings="-register-all"]
Inductive js_value : Type :=
  | JUndefined
  | JNull
  | JBool (b : bool)
  | JNumber (x : Q)
  | JString (s : string)
  | JArray (items : list js_value)
  | JObject (props : list (string * js_value)).
Arguments JNumber x%_Q.

(** The empty object literal [{}]. *)
Definition empty_object : js_value := JObject [].

(** Identity of a live scene-graph object (a [THREE.Object3D], a skinned
    mesh, a texture): [===] on objects compares identities. *)
Definition three_object : Type := nat.

(** A mesh reference of the canonical document, as [map_mesh] of the
    exporter reads it. The callback evaluates [mesh_ref[0]]: on undefined
    ([MeshNullish false]) and on null ([MeshNullish true]) this throws; on
    an array it is the first element, if any; on any other value it is
    undefined, as on the empty array, which stands for such a value
    here. *)
Inductive mesh_reference : Type :=
  | MeshArray (elements : list three_object)
  | MeshNullish (null : bool).

(** [mesh_ref[0]] where it does not throw. *)
Definition mesh_first (mesh_ref : mesh_reference) : option three_object :=
  match mesh_ref with
  | MeshArray elements => elements !! 0%nat
  | MeshNullish _ => None
  end.

(** The message of the [TypeError] that [mesh_ref[0]] throws. *)
Definition cannot_read_0 (null : bool) : string :=
  if null then "Cannot read properties of null (reading '0')"
  else "Cannot read properties of undefined (reading '0')".

(** What a thrown [TypeError] leaves of a call. *)
Inductive outcome (A : Type) : Type :=
  | Returned (a : A)
  | TypeError (msg : string).
Arguments Returned {A} a.
Arguments TypeError {A} msg.

(** ** The console: warnings and logs are the only effect of the mapper *)

Inductive console_level : Type := level_log | level_warn.

(** The object printed after the message. *)
Inductive console_arg : Type :=
  | ArgNode (node_ref : three_object)
  | ArgMesh (mesh_ref : mesh_reference)
  | ArgTexture (tex_ref : three_object)
  | ArgObjects.

(** One call of [console.log] or [console.warn]: the message is the
    leading string argument, empty when the call has none. *)
Record console_entry : Type := ConsoleEntry {
  entry_level : console_level;
  entry_message : string;
  entry_arg : console_arg;
}.

(** A computation that returns a value and appends to the console. *)
Definition Console (A : Type) : Type := A * list console_entry.

#[export] Instance Console_ret : MRet Console := fun A a => (a, []).
#[export] Instance Console_bind : MBind Console := fun A B f c =>
  let r := f (fst c) in
  (fst r, snd c ++ snd r).

Definition console_warn (msg : string) (arg : console_arg) : Console unit :=
  (tt, [ConsoleEntry level_warn msg arg]).
Definition console_log (msg : string) (arg : console_arg) : Console unit :=
  (tt, [ConsoleEntry level_log msg arg]).

(** ** How a run of the mapper ends

    A call returns a value or throws. One more end is kept apart: the
    assignment [texProp.__proto__ = v] with [v] an object or null, which
    replaces the prototype of [texProp] (see [Map_assign]). From there on
    what an assignment to [texProp] does is decided by the accessors of
    that object, which run with [texProp] as receiver; the run is followed
    up to this point and no further. *)
Inductive completion (A : Type) : Type :=
  | Normal (a : A)
  | Throws (msg : string)
  | PrototypeReplaced.
Arguments Normal {A} a.
Arguments Throws {A} msg.
Arguments PrototypeReplaced {A}.

(** A computation that appends to the console and ends in a completion;
    after a throw nothing more is run, and what was written stays. *)
Definition Exec (A : Type) : Type := completion A * list console_entry.

#[export] Instance Exec_ret : MRet Exec := fun A a => (Normal a, []).
#[export] Instance Exec_bind : MBind Exec := fun A B f c =>
  match fst c with
  | Normal a => let r := f a in (fst r, snd c ++ snd r)
  | Throws msg => (Throws msg, snd c)
  | PrototypeReplaced => (PrototypeReplaced, snd c)
  end.

Definition throw {A : Type} (msg : string) : Exec A := (Throws msg, []).

(** A console call inside a run. *)
Definition console {A : Type} (c : Console A) : Exec A := (Normal (fst c), snd c).

(** Whether a value of the type is an object or null, which is what the
    setter of [__proto__] takes as a prototype; a number and undefined are
    neither. *)
Class JsKind (A : Type) : Type := is_object_or_null : A → bool.

(** An index of the wire document is a number. *)
#[export] Instance index_kind : JsKind Z := fun _ => false.
(** [array[id]] on an array of live objects: an object, or undefined. *)
#[export] Instance object_or_undefined_kind : JsKind (option three_object) :=
  fun o => match o with Some _ => true | None => false end.

(** ** The VRM extension document

    One record per object literal of [VrmExtensionMapper]; the fields that
    hold a glTF reference have the type of the reference ([N] for nodes,
    [M] for meshes, [T] for textures): live objects on the canonical side,
    indices on the wire. All other fields are passed through. The records
    are the documents that have the blocks and the arrays the mapper walks
    ([blendShapeMaster.blendShapeGroups], [binds], [humanoid.humanBones],
    [firstPerson.meshAnnotations], [materialProperties]); a passed-through
    field that is missing is [JUndefined]. *)

Module BlendShapeBind.
Record t (M : Type) : Type := Build {
  mesh : M;
  index : js_value;
  weight : js_value;
}.
Arguments Build {M}.
Arguments mesh {M}.
Arguments index {M}.
Arguments weight {M}.
End BlendShapeBind.

Module BlendShapeGroup.
Record t (M : Type) : Type := Build {
  name : js_value;
  presetName : js_value;
  binds : list (BlendShapeBind.t M);
  materialValues : js_value;
}.
Arguments Build {M}.
Arguments name {M}.
Arguments presetName {M}.
Arguments binds {M}.
Arguments materialValues {M}.
End BlendShapeGroup.

Module BlendShapeMaster.
Record t (M : Type) : Type := Build {
  blendShapeGroups : list (BlendShapeGroup.t M);
}.
Arguments Build {M}.
Arguments blendShapeGroups {M}.
End BlendShapeMaster.

Module HumanoidBone.
Record t (N : Type) : Type := Build {
  bone : js_value;
  node : N;
  useDefaultValues : js_value;
  min : js_value;
  max : js_value;
  center : js_value;
  axisLength : js_value;
}.
Arguments Build {N}.
Arguments bone {N}.
Arguments node {N}.
Arguments useDefaultValues {N}.
Arguments min {N}.
Arguments max {N}.
Arguments center {N}.
Arguments axisLength {N}.
End HumanoidBone.

Module Humanoid.
Record t (N : Type) : Type := Build {
  humanBones : list (HumanoidBone.t N);
  armStretch : js_value;
  legStretch : js_value;
  upperArmTwist : js_value;
  lowerArmTwist : js_value;
  upperLegTwist : js_value;
  lowerLegTwist : js_value;
  feetSpacing : js_value;
  hasTranslationDoF : js_value;
}.
Arguments Build {N}.
Arguments humanBones {N}.
Arguments armStretch {N}.
Arguments legStretch {N}.
Arguments upperArmTwist {N}.
Arguments lowerArmTwist {N}.
Arguments upperLegTwist {N}.
Arguments lowerLegTwist {N}.
Arguments feetSpacing {N}.
Arguments hasTranslationDoF {N}.
End Humanoid.

Module MeshAnnotation.
Record t (M : Type) : Type := Build {
  mesh : M;
  firstPersonFlag : js_value;
}.
Arguments Build {M}.
Arguments mesh {M}.
Arguments firstPersonFlag {M}.
End MeshAnnotation.

(** [lookAtHorizontalOuter] is the fourth look-at limit of the first-person
    schema. [_convert_firstperson] never reads it and the literal it builds
    has no such key. *)
Module FirstPerson.
Record t (N M : Type) : Type := Build {
  firstPersonBone : N;
  firstPersonBoneOffset : js_value;
  meshAnnotations : list (MeshAnnotation.t M);
  lookAtTypeName : js_value;
  lookAtHorizontalInner : js_value;
  lookAtHorizontalOuter : js_value;
  lookAtVerticalDown : js_value;
  lookAtVerticalUp : js_value;
}.
Arguments Build {N M}.
Arguments firstPersonBone {N M}.
Arguments firstPersonBoneOffset {N M}.
Arguments meshAnnotations {N M}.
Arguments lookAtTypeName {N M}.
Arguments lookAtHorizontalInner {N M}.
Arguments lookAtHorizontalOuter {N M}.
Arguments lookAtVerticalDown {N M}.
Arguments lookAtVerticalUp {N M}.
End FirstPerson.

(** [textureProperties] is an object used as a map from shader property
    names to texture references: its own enumerable keys with their
    values, in the order in which [for ... in] visits them. *)
Module MaterialProperties.
Record t (T : Type) : Type := Build {
  name : js_value;
  shader : js_value;
  renderQueue : js_value;
  floatProperties : js_value;
  vectorProperties : js_value;
  textureProperties : list (string * T);
  keywordMap : js_value;
  tagMap : js_value;
}.
Arguments Build {T}.
Arguments name {T}.
Arguments shader {T}.
Arguments renderQueue {T}.
Arguments floatProperties {T}.
Arguments vectorProperties {T}.
Arguments textureProperties {T}.
Arguments keywordMap {T}.
Arguments tagMap {T}.
End MaterialProperties.

Module Vrm.
Record t (N M T : Type) : Type := Build {
  blendShapeMaster : BlendShapeMaster.t M;
  humanoid : Humanoid.t N;
  firstPerson : FirstPerson.t N M;
  materialProperties : list (MaterialProperties.t T);
  meta : js_value;
  secondaryAnimation : js_value;
}.
Arguments Build {N M T}.
Arguments blendShapeMaster {N M T}.
Arguments humanoid {N M T}.
Arguments firstPerson {N M T}.
Arguments materialProperties {N M T}.
Arguments meta {N M T}.
Arguments secondaryAnimation {N M T}.
End Vrm.


(** ** [class VrmExtensionMapper]

    The constructor stores an object with the three methods [map_node],
    [map_mesh] and [map_texture]. Each may write to the console, and may
    throw. *)

Record VrmExtensionMapper (N M T N' M' T' : Type) : Type := new_VrmExtensionMapper {
  map_node : N → Exec N';
  map_mesh : M → Exec M';
  map_texture : T → Exec T';
}.
Arguments new_VrmExtensionMapper {N M T N' M' T'}.
Arguments map_node {N M T N' M' T'}.
Arguments map_mesh {N M T N' M' T'}.
Arguments map_texture {N M T N' M' T'}.

(** [o[key] = v] on an object used as a map: the value of an existing key is
    replaced in place, a new key is added last. *)
Fixpoint object_set {A : Type} (key : string) (v : A) (o : list (string * A))
  : list (string * A) :=
  match o with
  | [] => [(key, v)]
  | (k, w) :: o' =>
      if bool_decide (k = key) then (k, v) :: o' else (k, w) :: object_set key v o'
  end.

(** [texProp[key] = v] in strict code, [texProp] being a [Map] instance
    whose own properties are [texProp] (a [new Map()] to which properties
    have been assigned). An own property is overwritten. Otherwise the
    prototype chain, [Map.prototype] and [Object.prototype], decides:
    - [size] is an accessor of [Map.prototype] that has a getter only:
      the assignment throws a [TypeError];
    - [__proto__] is the accessor of [Object.prototype]: its setter
      replaces the prototype of [texProp] when [v] is an object or null
      and does nothing for any other [v]; no own property is made;
    - every other inherited property is a writable data property, and
      the assignment makes an own property, as it does for a key that is
      found nowhere. *)
Definition Map_assign {A : Type} `{!JsKind A} (key : string) (v : A)
  (texProp : list (string * A)) : Exec (list (string * A)) :=
  if bool_decide (key ∈ texProp.*1) then mret (object_set key v texProp)
  else if bool_decide (key = "size") then
    throw "Cannot set property size of #<Map> which has only a getter"
  else if bool_decide (key = "__proto__") then
    if is_object_or_null v then (PrototypeReplaced, []) else mret texProp
  else mret (object_set key v texProp).

Section Mapper.
Context {N M T N' M' T' : Type} `{!JsKind T'}.
Variable this : VrmExtensionMapper N M T N' M' T'.

Definition _convert_blendshape_bind (bind : BlendShapeBind.t M)
  : Exec (BlendShapeBind.t M') :=
  mesh ← map_mesh this (BlendShapeBind.mesh bind);
  mret {| BlendShapeBind.mesh := mesh;
          BlendShapeBind.index := BlendShapeBind.index bind;
          BlendShapeBind.weight := BlendShapeBind.weight bind |}.

Definition _convert_blendshape_group (group : BlendShapeGroup.t M)
  : Exec (BlendShapeGroup.t M') :=
  binds ← mapM _convert_blendshape_bind (BlendShapeGroup.binds group);
  mret {| BlendShapeGroup.name := BlendShapeGroup.name group;
          BlendShapeGroup.presetName := BlendShapeGroup.presetName group;
          BlendShapeGroup.binds := binds;
          BlendShapeGroup.materialValues := BlendShapeGroup.materialValues group |}.

Definition _convert_blendshape (blendshape : BlendShapeMaster.t M)
  : Exec (BlendShapeMaster.t M') :=
  groups ← mapM _convert_blendshape_group
              (BlendShapeMaster.blendShapeGroups blendshape);
  mret {| BlendShapeMaster.blendShapeGroups := groups |}.

Definition _convert_humanoid_bone (bone : HumanoidBone.t N)
  : Exec (HumanoidBone.t N') :=
  node ← map_node this (HumanoidBone.node bone);
  mret {| HumanoidBone.bone := HumanoidBone.bone bone;
          HumanoidBone.node := node;
          HumanoidBone.useDefaultValues := HumanoidBone.useDefaultValues bone;
          HumanoidBone.min := HumanoidBone.min bone;
          HumanoidBone.max := HumanoidBone.max bone;
          HumanoidBone.center := HumanoidBone.center bone;
          HumanoidBone.axisLength := HumanoidBone.axisLength bone |}.

Definition _convert_humanoid (humanoid : Humanoid.t N)
  : Exec (Humanoid.t N') :=
  humanBones ← mapM _convert_humanoid_bone (Humanoid.humanBones humanoid);
  mret {| Humanoid.humanBones := humanBones;
          Humanoid.armStretch := Humanoid.armStretch humanoid;
          Humanoid.legStretch := Humanoid.legStretch humanoid;
          Humanoid.upperArmTwist := Humanoid.upperArmTwist humanoid;
          Humanoid.lowerArmTwist := Humanoid.lowerArmTwist humanoid;
          Humanoid.upperLegTwist := Humanoid.upperLegTwist humanoid;
          Humanoid.lowerLegTwist := Humanoid.lowerLegTwist humanoid;
          Humanoid.feetSpacing := Humanoid.feetSpacing humanoid;
          Humanoid.hasTranslationDoF := Humanoid.hasTranslationDoF humanoid |}.

Definition _convert_firstperson_meshannotation (annot : MeshAnnotation.t M)
  : Exec (MeshAnnotation.t M') :=
  mesh ← map_mesh this (MeshAnnotation.mesh annot);
  mret {| MeshAnnotation.mesh := mesh;
          MeshAnnotation.firstPersonFlag := MeshAnnotation.firstPersonFlag annot |}.

(** The literal has the keys [firstPersonBone], [firstPersonBoneOffset],
    [meshAnnotations], [lookAtTypeName], [lookAtHorizontalInner],
    [lookAtVerticalDown] and [lookAtVerticalUp]; [lookAtHorizontalOuter] is
    not among them, so the result has it undefined. *)
Definition _convert_firstperson (firstperson : FirstPerson.t N M)
  : Exec (FirstPerson.t N' M') :=
  firstPersonBone ← map_node this (FirstPerson.firstPersonBone firstperson);
  meshAnnotations ← mapM _convert_firstperson_meshannotation
                       (FirstPerson.meshAnnotations firstperson);
  mret {| FirstPerson.firstPersonBone := firstPersonBone;
          FirstPerson.firstPersonBoneOffset :=
            FirstPerson.firstPersonBoneOffset firstperson;
          FirstPerson.meshAnnotations := meshAnnotations;
          FirstPerson.lookAtTypeName := FirstPerson.lookAtTypeName firstperson;
          FirstPerson.lookAtHorizontalInner :=
            FirstPerson.lookAtHorizontalInner firstperson;
          FirstPerson.lookAtHorizontalOuter := JUndefined;
          FirstPerson.lookAtVerticalDown :=
            FirstPerson.lookAtVerticalDown firstperson;
          FirstPerson.lookAtVerticalUp :=
            FirstPerson.lookAtVerticalUp firstperson |}.

(** The [for (let texName in mat.textureProperties)] loop, [texProp] being
    the own properties of the [new Map()] filled so far. Each key of the
    source object is visited once, with its value; the right-hand side is
    evaluated before the assignment is made. *)
Fixpoint _convert_material_loop (props : list (string * T))
  (texProp : list (string * T')) : Exec (list (string * T')) :=
  match props with
  | [] => mret texProp
  | (texName, tex) :: props' =>
      v ← map_texture this tex;
      texProp ← Map_assign texName v texProp;
      _convert_material_loop props' texProp
  end.

Definition _convert_material (mat : MaterialProperties.t T)
  : Exec (MaterialProperties.t T') :=
  texProp ← _convert_material_loop (MaterialProperties.textureProperties mat) [];
  mret {| MaterialProperties.name := MaterialProperties.name mat;
          MaterialProperties.shader := MaterialProperties.shader mat;
          MaterialProperties.renderQueue := MaterialProperties.renderQueue mat;
          MaterialProperties.floatProperties :=
            MaterialProperties.floatProperties mat;
          MaterialProperties.vectorProperties :=
            MaterialProperties.vectorProperties mat;
          MaterialProperties.textureProperties := texProp;
          MaterialProperties.keywordMap := MaterialProperties.keywordMap mat;
          MaterialProperties.tagMap := MaterialProperties.tagMap mat |}.

(** The properties of the literal are evaluated in the order written; a
    throw in one of them ends the call. *)
Definition convert_vrm (vrm : Vrm.t N M T) : Exec (Vrm.t N' M' T') :=
  blendShapeMaster ← _convert_blendshape (Vrm.blendShapeMaster vrm);
  humanoid ← _convert_humanoid (Vrm.humanoid vrm);
  firstPerson ← _convert_firstperson (Vrm.firstPerson vrm);
  materialProperties ← mapM _convert_material (Vrm.materialProperties vrm);
  mret {| Vrm.blendShapeMaster := blendShapeMaster;
          Vrm.humanoid := humanoid;
          Vrm.firstPerson := firstPerson;
          Vrm.materialProperties := materialProperties;
          Vrm.meta := Vrm.meta vrm;
          Vrm.secondaryAnimation := empty_object |}.

End Mapper.

(** ** The glTF document and what the scene exporter hands over *)

(** An entry of [json.buffers]. *)
Module Buffer.
Record t : Type := Build {
  byteLength : Z;
  other : list (string * js_value);
}.
End Buffer.

(** The value stored at [json.extensions["VRM"]]: the converted document
    with the [exporterVersion] key that [attach_vrm_extension] adds. *)
Record vrm_extension : Type := VrmExtension {
  ext_vrm : Vrm.t Z Z Z;
  exporterVersion : js_value;
}.

(** The object [json.extensions]: the entry of the key ["VRM"] and the
    entries of all other keys. *)
Record extensions_object : Type := ExtensionsObject {
  VRM : option vrm_extension;
  other_extensions : gmap string js_value;
}.

(** The keys of the glTF JSON that the code touches; [None] is an absent
    key. All other keys are kept in [json_other]. *)
Record gltf_json : Type := GltfJson {
  json_buffers : option (list Buffer.t);
  extensionsUsed : option (list string);
  extensions : option extensions_object;
  json_other : list (string * js_value);
}.

(** The result of the exporter, the [obj] of [attach_vrm_extension] and of
    [serialize_glb]. [nodeMap] is a [Map] from scene nodes to node indices,
    [skins] the array of skinned objects. *)
Record gltf_and_buffers : Type := GltfAndBuffers {
  json : gltf_json;
  buffers : list (list Z);
  nodeMap : gmap three_object Z;
  skins : list three_object;
}.

(** [Array.prototype.findIndex]: the first index whose element satisfies
    the predicate, [-1] when there is none. *)
Fixpoint findIndex_from {A : Type} (p : A → bool) (l : list A) (i : Z) : Z :=
  match l with
  | [] => -1
  | e :: l' => if p e then i else findIndex_from p l' (i + 1)
  end.

Definition findIndex {A : Type} (p : A → bool) (l : list A) : Z :=
  findIndex_from p l 0.

(** [array[id]] for an integer [id]: [None] is [undefined]. *)
Definition array_get {A : Type} (l : list A) (id : Z) : option A :=
  if bool_decide (0 ≤ id) then l !! Z.to_nat id else None.

(** [new Set(l)] followed by [Array.from]: the distinct elements of [l] in
    the order of their first occurrence. [set_add_all s l] adds the
    elements of [l] to the set [s], kept in insertion order. *)
Fixpoint set_add_all (s : list string) (l : list string) : list string :=
  match l with
  | [] => s
  | x :: l' => set_add_all (if bool_decide (x ∈ s) then s else s ++ [x]) l'
  end.

Definition Array_from_Set (l : list string) : list string := set_add_all [] l.

(** ** Export direction: [attach_vrm_extension] inside [serialize_vrm] *)

(** The mapper [ref_to_id]. [map_mesh] looks up the skin that is identical
    to [mesh_ref[0]]; the callback of [findIndex] evaluates [mesh_ref[0]]
    once for every skin it visits, so an undefined or null reference
    throws at the first skin, and does not when there is no skin. *)
Definition ref_to_id (obj : gltf_and_buffers)
  : VrmExtensionMapper three_object mesh_reference three_object Z Z Z :=
  {| map_node := λ node_ref,
       match nodeMap obj !! node_ref with
       | None =>
           console
             (console_warn "map_node failed (not found in nodeMap)" (ArgNode node_ref));;
           mret 0
       | Some node_id => mret node_id
       end;
     map_mesh := λ mesh_ref,
       match mesh_ref, skins obj with
       | MeshNullish null, _ :: _ => throw (cannot_read_0 null)
       | _, _ =>
           let skin_id :=
             findIndex (λ e, bool_decide (Some e = mesh_first mesh_ref)) (skins obj) in
           if bool_decide (skin_id < 0) then
             console
               (console_warn "map_node failed (not found in skins)" (ArgMesh mesh_ref));;
             mret 0
           else mret skin_id
       end;
     map_texture := λ tex_ref,
       console (console_log "map_texture" (ArgTexture tex_ref));;
       mret 0 |}.

(** [vrm] is [vrm_ext.vrm], the canonical document of the editor. The
    function updates [obj] in place: the result is [obj] as the call
    leaves it, with the completion of the call and what it has written.
    When the conversion throws, [json.extensionsUsed] and
    [json.extensions] have been given their defaults and nothing else has
    been done. *)
Definition attach_vrm_extension (vrm : Vrm.t three_object mesh_reference three_object)
  (obj : gltf_and_buffers) : gltf_and_buffers * Exec unit :=
  let attaching := ConsoleEntry level_log "Attaching VRM" ArgObjects in
  let extensionsUsed0 := default [] (extensionsUsed (json obj)) in
  let extensions0 := default (ExtensionsObject None ∅) (extensions (json obj)) in
  let obj0 :=
    {| json :=
         {| json_buffers := json_buffers (json obj);
            extensionsUsed := Some extensionsUsed0;
            extensions := Some extensions0;
            json_other := json_other (json obj) |};
       buffers := buffers obj;
       nodeMap := nodeMap obj;
       skins := skins obj |} in
  let converted := convert_vrm (ref_to_id obj) vrm in
  match converted.1 with
  | Normal ext_with_ids =>
      let ext_with_ids :=
        {| ext_vrm := ext_with_ids; exporterVersion := JString "me/v" |} in
      ({| json :=
            {| json_buffers := json_buffers (json obj);
               extensionsUsed := Some (Array_from_Set ("VRM" :: extensionsUsed0));
               extensions :=
                 Some {| VRM := Some ext_with_ids;
                         other_extensions := other_extensions extensions0 |};
               json_other := json_other (json obj) |};
          buffers := buffers obj;
          nodeMap := nodeMap obj;
          skins := skins obj |},
       (Normal tt, attaching :: converted.2))
  | Throws msg => (obj0, (Throws msg, attaching :: converted.2))
  | PrototypeReplaced => (obj0, (PrototypeReplaced, attaching :: converted.2))
  end.

(** ** Import direction: the conversion inside [parse_vrm] *)

(** The mapper [ref_to_real] over the arrays resolved by the loader. *)
Definition ref_to_real (nodes : list three_object)
  (meshes : list (list three_object)) (textures : list three_object)
  : VrmExtensionMapper Z Z Z
      (option three_object) (option (list three_object)) (option three_object) :=
  {| map_node := λ id, mret (array_get nodes id);
     map_mesh := λ id, mret (array_get meshes id);
     map_texture := λ id, mret (array_get textures id) |}.

(** The callback of [parse_vrm] that runs once the loader has resolved
    [nodes], [meshes] and [textures]: it computes the constant [vrm] from
    [gltf.parser.json.extensions.VRM] and logs it; reading a key of
    [undefined] throws. The value here is that constant (the callback
    itself returns the scene of the loader). *)
Definition parse_vrm_resolved (nodes : list three_object)
  (meshes : list (list three_object)) (textures : list three_object)
  (parser_json : gltf_json)
  : Exec (Vrm.t (option three_object) (option (list three_object))
            (option three_object)) :=
  match extensions parser_json with
  | None => throw "Cannot read properties of undefined (reading 'VRM')"
  | Some exts =>
      match VRM exts with
      | None => throw "Cannot read properties of undefined (reading 'blendShapeMaster')"
      | Some ext =>
          vrm ← convert_vrm (ref_to_real nodes meshes textures) (ext_vrm ext);
          console (console_log "" ArgObjects);;
          mret vrm
      end
  end.

(** [parse_vrm] over the arrays that the loader resolves: the log of the
    first line, then the callback. *)
Definition parse_vrm (nodes : list three_object)
  (meshes : list (list three_object)) (textures : list three_object)
  (parser_json : gltf_json)
  : Exec (Vrm.t (option three_object) (option (list three_object))
            (option three_object)) :=
  console (console_log "Parsing glTF as VRM" ArgObjects);;
  parse_vrm_resolved nodes meshes textures parser_json.

(** ** The vocabulary of preset names (the editor's grouping table) *)

Definition EMOTION_PRESET_GROUPING : list (list string) :=
  [ ["neutral"];
    ["a"; "i"; "u"; "e"; "o"];
    ["joy"; "angry"; "sorrow"; "fun"];
    ["blink"; "blink_l"; "blink_r"];
    ["lookleft"; "lookright"; "lookup"; "lookdown"] ]%string.

(** [new Set(flatten(EMOTION_PRESET_GROUPING))], as a list. *)
Definition knownNames : list string := concat EMOTION_PRESET_GROUPING.

(** ** The container writer [serialize_glb]

    An [ArrayBuffer] or [Uint8Array] is the list of its bytes, each an
    integer in [0, 256). *)

Definition byteLength (arrayBuffer : list Z) : Z := Z.of_nat (length arrayBuffer).

(** [Math.ceil(bufferSize / 4) * 4]. The quotient of an integer below 2^53
    by 4 is exact in double precision, so the rational ceiling is the
    value the code computes. *)
Definition getPaddedBufferSize (bufferSize : Z) : Z :=
  Qceiling (inject_Z bufferSize / 4) * 4.

(** [new Uint8Array(n)] and [new ArrayBuffer(n)]: [n] zero bytes. *)
Definition new_Uint8Array (n : Z) : list Z := replicate (Z.to_nat n) 0.

(** [array.set(source)]: the bytes of [source] overwrite the first bytes
    of [array] (a source longer than the array raises a [RangeError] in
    the source; the padded length is never smaller). *)
Definition Uint8Array_set (source array : list Z) : list Z :=
  source ++ drop (length source) array.

(** The loop [for (i = start; i < paddedLength; i++) array[i] = paddingByte],
    with [n] iterations left; a byte store keeps the low 8 bits. *)
Fixpoint fill_loop (n : nat) (i : nat) (paddingByte : Z) (array : list Z)
  : list Z :=
  match n with
  | O => array
  | S n' => fill_loop n' (S i) paddingByte (<[i := paddingByte mod 256]> array)
  end.

(** [paddingByte] is [None] when the argument is omitted;
    [paddingByte || 0] turns that, and [0], into [0]. *)
Definition getPaddedArrayBuffer (arrayBuffer : list Z) (paddingByte : option Z)
  : list Z :=
  let paddingByte := default 0 paddingByte in
  let paddedLength := getPaddedBufferSize (byteLength arrayBuffer) in
  if bool_decide (paddedLength = byteLength arrayBuffer) then arrayBuffer
  else
    let array := new_Uint8Array paddedLength in
    let array := Uint8Array_set arrayBuffer array in
    if bool_decide (paddingByte ≠ 0) then
      fill_loop (Z.to_nat (paddedLength - byteLength arrayBuffer))
        (length arrayBuffer) paddingByte array
    else array.

(** [view.setUint32(byteOffset, value, true)]: the low 32 bits of [value],
    least significant byte first. The views of [serialize_glb] are 8 and
    12 bytes long and written at offsets 0, 4 and 8, all in range. *)
Definition setUint32 (byteOffset : nat) (value : Z) (view : list Z) : list Z :=
  let v := value mod 2 ^ 32 in
  <[byteOffset := v mod 256]>
    (<[S byteOffset := (v / 2 ^ 8) mod 256]>
      (<[S (S byteOffset) := (v / 2 ^ 16) mod 256]>
        (<[S (S (S byteOffset)) := (v / 2 ^ 24) mod 256]> view))).

Definition GLB_HEADER_BYTES : Z := 12.
Definition GLB_HEADER_MAGIC : Z := 0x46546C67.
Definition GLB_VERSION : Z := 2.
Definition GLB_CHUNK_PREFIX_BYTES : Z := 8.
Definition GLB_CHUNK_TYPE_JSON : Z := 0x4E4F534A.
Definition GLB_CHUNK_TYPE_BIN : Z := 0x004E4942.

(** [outputJSON.buffers[0].byteLength = size]: throws when [buffers] is
    absent or empty. *)
Definition set_first_byteLength (outputJSON : gltf_json) (size : Z)
  : outcome gltf_json :=
  match json_buffers outputJSON with
  | Some (b0 :: bs) =>
      Returned
        {| json_buffers :=
             Some ({| Buffer.byteLength := size; Buffer.other := Buffer.other b0 |} :: bs);
           extensionsUsed := extensionsUsed outputJSON;
           extensions := extensions outputJSON;
           json_other := json_other outputJSON |}
  | Some [] => TypeError "Cannot set properties of undefined (setting 'byteLength')"
  | None => TypeError "Cannot read properties of undefined (reading '0')"
  end.

Section Serialize.

(** [new TextEncoder().encode(JSON.stringify(outputJSON))], the UTF-8 text
    of the document: a service of the platform. *)
Variable JSON_stringify_utf8 : gltf_json → list Z.

(** The layout computed in [reader.onloadend], from the bytes of the merged
    blob and the document as it is when the callback runs. *)
Definition glb_bytes (reader_result : list Z) (outputJSON : gltf_json) : list Z :=
  (* Binary chunk. *)
  let binaryChunk := getPaddedArrayBuffer reader_result None in
  let binaryChunkPrefix := new_Uint8Array GLB_CHUNK_PREFIX_BYTES in
  let binaryChunkPrefix := setUint32 0 (byteLength binaryChunk) binaryChunkPrefix in
  let binaryChunkPrefix := setUint32 4 GLB_CHUNK_TYPE_BIN binaryChunkPrefix in
  (* JSON chunk. *)
  let jsonChunk :=
    getPaddedArrayBuffer (JSON_stringify_utf8 outputJSON) (Some 0x20) in
  let jsonChunkPrefix := new_Uint8Array GLB_CHUNK_PREFIX_BYTES in
  let jsonChunkPrefix := setUint32 0 (byteLength jsonChunk) jsonChunkPrefix in
  let jsonChunkPrefix := setUint32 4 GLB_CHUNK_TYPE_JSON jsonChunkPrefix in
  (* GLB header. *)
  let header := new_Uint8Array GLB_HEADER_BYTES in
  let header := setUint32 0 GLB_HEADER_MAGIC header in
  let header := setUint32 4 GLB_VERSION header in
  let totalByteLength :=
    GLB_HEADER_BYTES
    + byteLength jsonChunkPrefix + byteLength jsonChunk
    + byteLength binaryChunkPrefix + byteLength binaryChunk in
  let header := setUint32 8 totalByteLength header in
  header ++ jsonChunkPrefix ++ jsonChunk ++ binaryChunkPrefix ++ binaryChunk.

(** The promise resolves with the container; the document of the caller
    has been updated in place and is returned with it. *)
Definition serialize_glb (obj : gltf_and_buffers) : outcome (list Z * gltf_json) :=
  let outputJSON := json obj in
  let buffers := buffers obj in
  (* Merge buffers. *)
  let blob := concat buffers in
  (* Update bytelength of the single buffer. *)
  match set_first_byteLength outputJSON (byteLength blob) with
  | TypeError msg => TypeError msg
  | Returned outputJSON => Returned (glb_bytes blob outputJSON, outputJSON)
  end.

(** [serialize_vrm] from the moment the exporter delivers [obj]: the
    callback logs it, then
    [gltf_and_buffers.then(attach_vrm_extension).then(serialize_glb)].
    When [attach_vrm_extension] throws the promise is rejected and
    [serialize_glb] is not run. *)
Definition serialize_vrm (vrm : Vrm.t three_object mesh_reference three_object)
  (obj : gltf_and_buffers) : Exec (list Z * gltf_json) :=
  let attached := attach_vrm_extension vrm obj in
  let log := ConsoleEntry level_log "" ArgObjects :: attached.2.2 in
  match attached.2.1 with
  | Normal _ =>
      match serialize_glb attached.1 with
      | Returned glb => (Normal glb, log)
      | TypeError msg => (Throws msg, log)
      end
  | Throws msg => (Throws msg, log)
  | PrototypeReplaced => (PrototypeReplaced, log)
  end.

End Serialize.

(** ** Reading a container back (used to state the layout) *)

(** The little-endian 32 bit unsigned integer at [byteOffset]. *)
Definition getUint32 (byteOffset : nat) (bytes : list Z) : Z :=
  match take 4 (drop byteOffset bytes) with
  | [b0; b1; b2; b3] => b0 + 2 ^ 8 * b1 + 2 ^ 16 * b2 + 2 ^ 24 * b3
  | _ => 0
  end.

(** [len] bytes from [byteOffset]. *)
Definition slice (byteOffset len : nat) (bytes : list Z) : list Z :=
  take len (drop byteOffset bytes).

(** The four bytes that [setUint32] stores for [value]. *)
Definition le32 (value : Z) : list Z :=
  let v := value mod 2 ^ 32 in
  [v mod 256; (v / 2 ^ 8) mod 256; (v / 2 ^ 16) mod 256; (v / 2 ^ 24) mod 256].

(** The number of bytes that [getPaddedArrayBuffer] appends. *)
Definition padding_count (arrayBuffer : list Z) : nat :=
  Z.to_nat (getPaddedBufferSize (byteLength arrayBuffer) - byteLength arrayBuffer).

(** ** Sample data used by the examples *)

(** A document with one declared buffer and no extension yet. *)
Definition sample_json : gltf_json :=
  {| json_buffers := Some [ {| Buffer.byteLength := 0; Buffer.other := [] |} ];
     extensionsUsed := None;
     extensions := None;
     json_other := [("asset", JObject [("version", JString "2.0")])] |}.

(** Two buffers of 3 and 2 bytes; node 7 has index 0 and node 8 index 1;
    the skins are the objects 20, 21 and 22. *)
Definition sample_obj : gltf_and_buffers :=
  {| json := sample_json;
     buffers := [[1; 2; 3]; [4; 5]];
     nodeMap := <[7%nat := 0]> (<[8%nat := 1]> ∅);
     skins := [20%nat; 21%nat; 22%nat] |}.

(** A stand-in for the platform's encoder: the text [{}] whatever the
    document. *)
Definition sample_stringify (_ : gltf_json) : list Z := [123; 125].

(** A canonical document: a group "Smile" with preset "joy" bound to the
    mesh whose first object is the skin 22, a group with a preset name
    outside the vocabulary and a mesh that is no skin, two groups with the
    preset "unknown"; the bone "head" points to a node that the exporter
    does not know. *)
Definition sample_vrm : Vrm.t three_object mesh_reference three_object :=
  {| Vrm.blendShapeMaster :=
       {| BlendShapeMaster.blendShapeGroups :=
            [ {| BlendShapeGroup.name := JString "Smile";
                 BlendShapeGroup.presetName := JString "joy";
                 BlendShapeGroup.binds :=
                   [ {| BlendShapeBind.mesh := MeshArray [22%nat];
                        BlendShapeBind.index := JNumber 5;
                        BlendShapeBind.weight := JNumber 1 |} ];
                 BlendShapeGroup.materialValues := JArray [] |};
              {| BlendShapeGroup.name := JString "Surprised";
                 BlendShapeGroup.presetName := JString "surprised";
                 BlendShapeGroup.binds :=
                   [ {| BlendShapeBind.mesh := MeshArray [99%nat];
                        BlendShapeBind.index := JNumber 3;
                        BlendShapeBind.weight := JNumber (1 # 2) |} ];
                 BlendShapeGroup.materialValues := JArray [] |};
              {| BlendShapeGroup.name := JString "Extra1";
                 BlendShapeGroup.presetName := JString "unknown";
                 BlendShapeGroup.binds := [];
                 BlendShapeGroup.materialValues := JArray [] |};
              {| BlendShapeGroup.name := JString "Extra2";
                 BlendShapeGroup.presetName := JString "unknown";
                 BlendShapeGroup.binds := [];
                 BlendShapeGroup.materialValues := JArray [] |} ] |};
     Vrm.humanoid :=
       {| Humanoid.humanBones :=
            [ {| HumanoidBone.bone := JString "hips";
                 HumanoidBone.node := 8%nat;
                 HumanoidBone.useDefaultValues := JBool true;
                 HumanoidBone.min := JUndefined;
                 HumanoidBone.max := JUndefined;
                 HumanoidBone.center := JUndefined;
                 HumanoidBone.axisLength := JNumber 0 |};
              {| HumanoidBone.bone := JString "head";
                 HumanoidBone.node := 9%nat;
                 HumanoidBone.useDefaultValues := JBool true;
                 HumanoidBone.min := JUndefined;
                 HumanoidBone.max := JUndefined;
                 HumanoidBone.center := JUndefined;
                 HumanoidBone.axisLength := JNumber 0 |} ];
          Humanoid.armStretch := JNumber (1 # 20);
          Humanoid.legStretch := JNumber (1 # 20);
          Humanoid.upperArmTwist := JNumber (1 # 2);
          Humanoid.lowerArmTwist := JNumber (1 # 2);
          Humanoid.upperLegTwist := JNumber (1 # 2);
          Humanoid.lowerLegTwist := JNumber (1 # 2);
          Humanoid.feetSpacing := JNumber 0;
          Humanoid.hasTranslationDoF := JBool false |};
     Vrm.firstPerson :=
       {| FirstPerson.firstPersonBone := 7%nat;
          FirstPerson.firstPersonBoneOffset :=
            JObject [("x", JNumber 0); ("y", JNumber (3 # 50)); ("z", JNumber 0)];
          FirstPerson.meshAnnotations :=
            [ {| MeshAnnotation.mesh := MeshArray [20%nat];
                 MeshAnnotation.firstPersonFlag := JString "Auto" |} ];
          FirstPerson.lookAtTypeName := JString "Bone";
          FirstPerson.lookAtHorizontalInner := JNumber 8;
          FirstPerson.lookAtHorizontalOuter := JNumber 12;
          FirstPerson.lookAtVerticalDown := JNumber 10;
          FirstPerson.lookAtVerticalUp := JNumber 10 |};
     Vrm.materialProperties :=
       [ {| MaterialProperties.name := JString "Body";
            MaterialProperties.shader := JString "VRM/MToon";
            MaterialProperties.renderQueue := JNumber 2000;
            MaterialProperties.floatProperties := JObject [("_Cutoff", JNumber (1 # 2))];
            MaterialProperties.vectorProperties := JObject [];
            MaterialProperties.textureProperties := [("_MainTex", 30%nat)];
            MaterialProperties.keywordMap := JObject [];
            MaterialProperties.tagMap := JObject [("RenderType", JString "Opaque")] |} ];
     Vrm.meta := JObject [("title", JString "avatar")];
     Vrm.secondaryAnimation :=
       JObject [("boneGroups", JArray [JObject [("stiffiness", JNumber 1)]]);
                ("colliderGroups", JArray [])] |}.

(** What the loader resolves on import: nodes, meshes and textures by
    index. *)
Definition sample_nodes : list three_object := [7%nat; 8%nat].
Definition sample_meshes : list (list three_object) :=
  [[20%nat]; [21%nat]; [22%nat]].
Definition sample_textures : list three_object := [30%nat].

(** ** Vocabulary of the statements about resolution *)

(** The warnings of the two resolvers of [ref_to_id], as console entries. *)
Definition node_warning (node_ref : three_object) : console_entry :=
  ConsoleEntry level_warn "map_node failed (not found in nodeMap)" (ArgNode node_ref).
Definition mesh_warning (mesh_ref : mesh_reference) : console_entry :=
  ConsoleEntry level_warn "map_node failed (not found in skins)" (ArgMesh mesh_ref).

(** No skin of the exporter is the first object of the mesh reference. *)
Definition mesh_unresolved (obj : gltf_and_buffers) (mesh_ref : mesh_reference)
  : Prop :=
  ∀ e, e ∈ skins obj → mesh_first mesh_ref ≠ Some e.

(** The value of a run that has returned ([d] otherwise). *)
Definition normal_or {A : Type} (d : A) (c : completion A) : A :=
  match c with
  | Normal a => a
  | _ => d
  end.

(** ** Vocabulary of the round trip *)

(** The node and mesh references that occur in a document. *)
Definition vrm_node_refs {N M T : Type} (vrm : Vrm.t N M T) : list N :=
  FirstPerson.firstPersonBone (Vrm.firstPerson vrm)
  :: (HumanoidBone.node <$> Humanoid.humanBones (Vrm.humanoid vrm)).

Definition vrm_mesh_refs {N M T : Type} (vrm : Vrm.t N M T) : list M :=
  (BlendShapeMaster.blendShapeGroups (Vrm.blendShapeMaster vrm)
     ≫= λ g, BlendShapeBind.mesh <$> BlendShapeGroup.binds g)
  ++ (MeshAnnotation.mesh <$> FirstPerson.meshAnnotations (Vrm.firstPerson vrm)).

(** Every node of the document is in the node map of the exporter and
    every mesh reference has a skin as its first object. *)
Definition resolvable (obj : gltf_and_buffers)
  (vrm : Vrm.t three_object mesh_reference three_object) : Prop :=
  (∀ r, r ∈ vrm_node_refs vrm → is_Some (nodeMap obj !! r))
  ∧ (∀ m, m ∈ vrm_mesh_refs vrm → ¬ mesh_unresolved obj m).

(** The arrays of the importer hold, at the index that the exporter emits
    for a reference of the document, that reference; the mesh references
    are arrays. *)
Definition reads_back (obj : gltf_and_buffers) (nodes : list three_object)
  (meshes : list (list three_object))
  (vrm : Vrm.t three_object mesh_reference three_object) : Prop :=
  (∀ r, r ∈ vrm_node_refs vrm →
     ∃ node_id, (map_node (ref_to_id obj) r).1 = Normal node_id
                ∧ array_get nodes node_id = Some r)
  ∧ (∀ m, m ∈ vrm_mesh_refs vrm →
     ∃ skin_id elements,
       (map_mesh (ref_to_id obj) m).1 = Normal skin_id
       ∧ m = MeshArray elements
       ∧ array_get meshes skin_id = Some elements).

(** Every [textureProperties] object of the document has each key once. *)
Definition texture_keys_distinct {N M T : Type} (vrm : Vrm.t N M T) : Prop :=
  ∀ mat, mat ∈ Vrm.materialProperties vrm →
    NoDup (MaterialProperties.textureProperties mat).*1.

(** No [textureProperties] object of the document has the key [size],
    and none has the key [__proto__]. *)
Definition no_texture_key {N M T : Type} (key : string) (vrm : Vrm.t N M T) : Prop :=
  ∀ mat, mat ∈ Vrm.materialProperties vrm →
    key ∉ (MaterialProperties.textureProperties mat).*1.

(** No mesh reference of the document is missing (undefined or null). *)
Definition no_missing_mesh {N T : Type} (vrm : Vrm.t N mesh_reference T) : Prop :=
  ∀ null, MeshNullish null ∉ vrm_mesh_refs vrm.

(** The elements of a mesh reference that is an array. *)
Definition mesh_elements (mesh_ref : mesh_reference) : option (list three_object) :=
  match mesh_ref with
  | MeshArray elements => Some elements
  | MeshNullish _ => None
  end.

(** A document as export followed by import leaves it when every node and
    mesh reference comes back: the conversion whose resolvers give each
    reference back, defined, and for every texture the texture of index
    0; the walker has dropped what it drops. *)
Definition read_back (textures : list three_object)
  : VrmExtensionMapper three_object mesh_reference three_object
      (option three_object) (option (list three_object)) (option three_object) :=
  {| map_node := λ r : three_object, mret (Some r);
     map_mesh := λ m : mesh_reference, mret (mesh_elements m);
     map_texture := λ _ : three_object, mret (array_get textures 0) |}.

Definition roundtrip_image (textures : list three_object)
  (vrm : Vrm.t three_object mesh_reference three_object)
  : completion (Vrm.t (option three_object) (option (list three_object))
                  (option three_object)) :=
  (convert_vrm (read_back textures) vrm).1.

(** The first occurrence of every element, in order. *)
Fixpoint first_occurrences (l : list string) : list string :=
  match l with
  | [] => []
  | x :: l' => x :: filter (λ y, y ≠ x) (first_occurrences l')
  end.

(** A document all of whose references the sample exporter resolves. *)
Definition sample_resolvable_vrm
  : Vrm.t three_object mesh_reference three_object :=
  {| Vrm.blendShapeMaster :=
       {| BlendShapeMaster.blendShapeGroups :=
            [ {| BlendShapeGroup.name := JString "Smile";
                 BlendShapeGroup.presetName := JString "joy";
                 BlendShapeGroup.binds :=
                   [ {| BlendShapeBind.mesh := MeshArray [22%nat];
                        BlendShapeBind.index := JNumber 5;
                        BlendShapeBind.weight := JNumber 1 |} ];
                 BlendShapeGroup.materialValues := JArray [] |} ] |};
     Vrm.humanoid :=
       {| Humanoid.humanBones :=
            [ {| HumanoidBone.bone := JString "hips";
                 HumanoidBone.node := 8%nat;
                 HumanoidBone.useDefaultValues := JBool true;
                 HumanoidBone.min := JUndefined;
                 HumanoidBone.max := JUndefined;
                 HumanoidBone.center := JUndefined;
                 HumanoidBone.axisLength := JNumber 0 |} ];
          Humanoid.armStretch := JNumber (1 # 20);
          Humanoid.legStretch := JNumber (1 # 20);
          Humanoid.upperArmTwist := JNumber (1 # 2);
          Humanoid.lowerArmTwist := JNumber (1 # 2);
          Humanoid.upperLegTwist := JNumber (1 # 2);
          Humanoid.lowerLegTwist := JNumber (1 # 2);
          Humanoid.feetSpacing := JNumber 0;
          Humanoid.hasTranslationDoF := JBool false |};
     Vrm.firstPerson :=
       {| FirstPerson.firstPersonBone := 7%nat;
          FirstPerson.firstPersonBoneOffset :=
            JObject [("x", JNumber 0); ("y", JNumber (3 # 50)); ("z", JNumber 0)];
          FirstPerson.meshAnnotations :=
            [ {| MeshAnnotation.mesh := MeshArray [20%nat];
                 MeshAnnotation.firstPersonFlag := JString "Auto" |} ];
          FirstPerson.lookAtTypeName := JString "Bone";
          FirstPerson.lookAtHorizontalInner := JNumber 8;
          FirstPerson.lookAtHorizontalOuter := JNumber 12;
          FirstPerson.lookAtVerticalDown := JNumber 10;
          FirstPerson.lookAtVerticalUp := JNumber 10 |};
     Vrm.materialProperties :=
       [ {| MaterialProperties.name := JString "Body";
            MaterialProperties.shader := JString "VRM/MToon";
            MaterialProperties.renderQueue := JNumber 2000;
            MaterialProperties.floatProperties := JObject [("_Cutoff", JNumber (1 # 2))];
            MaterialProperties.vectorProperties := JObject [];
            MaterialProperties.textureProperties := [("_MainTex", 30%nat)];
            MaterialProperties.keywordMap := JObject [];
            MaterialProperties.tagMap := JObject [("RenderType", JString "Opaque")] |} ];
     Vrm.meta := JObject [("title", JString "avatar")];
     Vrm.secondaryAnimation := empty_object |}.

(** An exporter result without nodes, skins or buffers, whose document
    declares two extensions, one of them twice, and "VRM" already. *)
Definition sample_declared_obj : gltf_and_buffers :=
  {| json :=
       {| json_buffers := None;
          extensionsUsed :=
            Some ["KHR_materials_unlit"; "VRM"; "KHR_texture_transform";
                  "KHR_materials_unlit"];
          extensions := None;
          json_other := [] |};
     buffers := [];
     nodeMap := ∅;
     skins := [] |}.

(** [sample_vrm] with a second texture property, named [size]. *)
Definition sample_size_vrm : Vrm.t three_object mesh_reference three_object :=
  {| Vrm.blendShapeMaster := Vrm.blendShapeMaster sample_vrm;
     Vrm.humanoid := Vrm.humanoid sample_vrm;
     Vrm.firstPerson := Vrm.firstPerson sample_vrm;
     Vrm.materialProperties :=
       [ {| MaterialProperties.name := JString "Body";
            MaterialProperties.shader := JString "VRM/MToon";
            MaterialProperties.renderQueue := JNumber 2000;
            MaterialProperties.floatProperties := JObject [("_Cutoff", JNumber (1 # 2))];
            MaterialProperties.vectorProperties := JObject [];
            MaterialProperties.textureProperties :=
              [("_MainTex", 30%nat); ("size", 31%nat)];
            MaterialProperties.keywordMap := JObject [];
            MaterialProperties.tagMap := JObject [("RenderType", JString "Opaque")] |} ];
     Vrm.meta := Vrm.meta sample_vrm;
     Vrm.secondaryAnimation := Vrm.secondaryAnimation sample_vrm |}.

(** [sample_vrm] with a first-person mesh annotation whose mesh is
    missing (undefined). *)
Definition sample_nullish_vrm : Vrm.t three_object mesh_reference three_object :=
  {| Vrm.blendShapeMaster := Vrm.blendShapeMaster sample_vrm;
     Vrm.humanoid := Vrm.humanoid sample_vrm;
     Vrm.firstPerson :=
       {| FirstPerson.firstPersonBone := 7%nat;
          FirstPerson.firstPersonBoneOffset := JUndefined;
          FirstPerson.meshAnnotations :=
            [ {| MeshAnnotation.mesh := MeshNullish false;
                 MeshAnnotation.firstPersonFlag := JString "Auto" |} ];
          FirstPerson.lookAtTypeName := JString "Bone";
          FirstPerson.lookAtHorizontalInner := JNumber 8;
          FirstPerson.lookAtHorizontalOuter := JNumber 12;
          FirstPerson.lookAtVerticalDown := JNumber 10;
          FirstPerson.lookAtVerticalUp := JNumber 10 |};
     Vrm.materialProperties := Vrm.materialProperties sample_vrm;
     Vrm.meta := Vrm.meta sample_vrm;
     Vrm.secondaryAnimation := Vrm.secondaryAnimation sample_vrm |}.

(** A wire document with spring bones: one bone on node 1, a mesh
    annotation on mesh 2, one texture property. *)
Definition sample_wire_vrm : Vrm.t Z Z Z :=
  {| Vrm.blendShapeMaster := {| BlendShapeMaster.blendShapeGroups := [] |};
     Vrm.humanoid :=
       {| Humanoid.humanBones :=
            [ {| HumanoidBone.bone := JString "hips";
                 HumanoidBone.node := 1;
                 HumanoidBone.useDefaultValues := JBool true;
                 HumanoidBone.min := JUndefined;
                 HumanoidBone.max := JUndefined;
                 HumanoidBone.center := JUndefined;
                 HumanoidBone.axisLength := JNumber 0 |} ];
          Humanoid.armStretch := JNumber (1 # 20);
          Humanoid.legStretch := JNumber (1 # 20);
          Humanoid.upperArmTwist := JNumber (1 # 2);
          Humanoid.lowerArmTwist := JNumber (1 # 2);
          Humanoid.upperLegTwist := JNumber (1 # 2);
          Humanoid.lowerLegTwist := JNumber (1 # 2);
          Humanoid.feetSpacing := JNumber 0;
          Humanoid.hasTranslationDoF := JBool false |};
     Vrm.firstPerson :=
       {| FirstPerson.firstPersonBone := 0;
          FirstPerson.firstPersonBoneOffset := JUndefined;
          FirstPerson.meshAnnotations :=
            [ {| MeshAnnotation.mesh := 2;
                 MeshAnnotation.firstPersonFlag := JString "Auto" |} ];
          FirstPerson.lookAtTypeName := JString "Bone";
          FirstPerson.lookAtHorizontalInner := JNumber 8;
          FirstPerson.lookAtHorizontalOuter := JNumber 12;
          FirstPerson.lookAtVerticalDown := JNumber 10;
          FirstPerson.lookAtVerticalUp := JNumber 10 |};
     Vrm.materialProperties :=
       [ {| MaterialProperties.name := JString "Body";
            MaterialProperties.shader := JString "VRM/MToon";
            MaterialProperties.renderQueue := JNumber 2000;
            MaterialProperties.floatProperties := JObject [];
            MaterialProperties.vectorProperties := JObject [];
            MaterialProperties.textureProperties := [("_MainTex", 0)];
            MaterialProperties.keywordMap := JObject [];
            MaterialProperties.tagMap := JObject [] |} ];
     Vrm.meta := JObject [("title", JString "avatar")];
     Vrm.secondaryAnimation :=
       JObject [("boneGroups", JArray [JObject [("stiffiness", JNumber 1)]]);
                ("colliderGroups", JArray [])] |}.

(** ** [parse_vrm]: resolving every index through the loader *)

(** The parser of the loader as [parse_vrm] reads it: the lengths of
    [json.nodes], [json.meshes] and [json.textures] ([None] when the key
    is absent), what [getDependency] resolves to for each kind and index,
    and the document. *)
Record GLTFParser : Type := {
  json_nodes_length : option nat;
  json_meshes_length : option nat;
  json_textures_length : option nat;
  getDependency_node : nat → three_object;
  getDependency_mesh : nat → list three_object;
  getDependency_texture : nat → three_object;
  parser_json : gltf_json;
}.

(** [new Array(n).fill().map((_, id) => getDependency(kind, id))], once
    every promise has resolved. *)
Definition resolve_all {A : Type} (n : nat) (getDependency : nat → A) : list A :=
  getDependency <$> seq 0 n.

(** [parse_vrm] from the parser: after the log of the first line,
    [json.nodes.length] and [json.meshes.length] throw on an absent key,
    [(json.textures || [])] does not. *)
Definition parse_vrm_with_loader (parser : GLTFParser)
  : Exec (Vrm.t (option three_object) (option (list three_object))
            (option three_object)) :=
  console (console_log "Parsing glTF as VRM" ArgObjects);;
  match json_nodes_length parser with
  | None => throw "Cannot read properties of undefined (reading 'length')"
  | Some n_nodes =>
      match json_meshes_length parser with
      | None => throw "Cannot read properties of undefined (reading 'length')"
      | Some n_meshes =>
          let n_textures := default 0%nat (json_textures_length parser) in
          parse_vrm_resolved (resolve_all n_nodes (getDependency_node parser))
            (resolve_all n_meshes (getDependency_mesh parser))
            (resolve_all n_textures (getDependency_texture parser))
            (parser_json parser)
      end
  end.

(** ** The editor: emotion groups *)

Definition EMOTION_PRESET_NAME_TO_LABEL : list (string * string) :=
  [ ("neutral", "標準");
    ("a", "あ");
    ("i", "い");
    ("u", "う");
    ("e", "え");
    ("o", "お");
    ("joy", "喜");
    ("angry", "怒");
    ("sorrow", "哀");
    ("fun", "楽");
    ("blink", "瞬目");
    ("blink_l", "瞬目:左");
    ("blink_r", "瞬目:右");
    ("lookleft", "目←");
    ("lookright", "目→");
    ("lookup", "目↑");
    ("lookdown", "目↓") ]%string.

(** [EMOTION_PRESET_NAME_TO_LABEL[name]] for a key that is no built-in
    property name: the label, or undefined. *)
Definition preset_label (name : string) : js_value :=
  match List.find (λ kv, bool_decide (kv.1 = name)) EMOTION_PRESET_NAME_TO_LABEL with
  | Some kv => JString kv.2
  | None => JUndefined
  end.

(** An element of the computed property [blendshapes]. *)
Module Blendshape.
Record t (W : Type) : Type := Build {
  id : js_value;
  label : js_value;
  presetName : js_value;
  weightConfigs : list W;
}.
Arguments Build {W}.
Arguments id {W}.
Arguments label {W}.
Arguments presetName {W}.
Arguments weightConfigs {W}.
End Blendshape.

(** An element of a group of [emotionGroups]. *)
Module Emotion.
Record t (W : Type) : Type := Build {
  id : js_value;
  label : js_value;
  weightConfigs : list W;
}.
Arguments Build {W}.
Arguments id {W}.
Arguments label {W}.
Arguments weightConfigs {W}.
End Emotion.

(** [v === name] for a string [name]. *)
Definition is_string (name : string) (v : js_value) : bool :=
  match v with
  | JString s => bool_decide (s = name)
  | _ => false
  end.

(** [knownNames.has(v)]: the set holds strings only. *)
Definition knownNames_has (v : js_value) : bool :=
  match v with
  | JString s => bool_decide (s ∈ knownNames)
  | _ => false
  end.

Section EmotionGroups.
Context {W : Type}.

(** [nameToBlendshape.get(name)] for the map built by
    [new Map(blendshapes.map(bs => [bs.presetName, bs]))] and a string
    [name]: a later pair replaces the value of an earlier pair with the
    same key, so the value is the last blendshape with that preset name;
    [None] is [has(name) === false]. *)
Definition nameToBlendshape_get (blendshapes : list (Blendshape.t W))
  (name : string) : option (Blendshape.t W) :=
  last (List.filter (λ bs, is_string name (Blendshape.presetName bs)) blendshapes).

Definition emotion_of (bs : Blendshape.t W) : Emotion.t W :=
  {| Emotion.id := Blendshape.id bs;
     Emotion.label := Blendshape.label bs;
     Emotion.weightConfigs := Blendshape.weightConfigs bs |}.

(** The callback of [defaultGroupDef.map]. *)
Definition emotionGroups_default (blendshapes : list (Blendshape.t W))
  (name : string) : Console (Emotion.t W) :=
  match nameToBlendshape_get blendshapes name with
  | Some bs => mret (emotion_of bs)
  | None =>
      console_warn
        (String.append "The VRM is missing standard blendshape preset: "
           (String.append name ". Creating new one."))
        ArgObjects;;
      mret {| Emotion.id := JString name;
              Emotion.label := preset_label name;
              Emotion.weightConfigs := [] |}
  end.

(** The [forEach] that fills [unknownGroup]. The console entry of the
    warning keeps the message; the preset name printed after it is not
    recorded. *)
Fixpoint emotionGroups_unknown (blendshapes : list (Blendshape.t W))
  (unknownGroup : list (Emotion.t W)) : Console (list (Emotion.t W)) :=
  match blendshapes with
  | [] => mret unknownGroup
  | bs :: blendshapes' =>
      if knownNames_has (Blendshape.presetName bs) then
        emotionGroups_unknown blendshapes' unknownGroup
      else
        (if is_string "unknown" (Blendshape.presetName bs) then mret tt
         else console_warn
                "Non-comformant emotion preset name found, treating as 'unknown'"
                ArgObjects);;
        emotionGroups_unknown blendshapes' (unknownGroup ++ [emotion_of bs])
  end.

(** The computed property [emotionGroups]; [vrmRoot_is_null] is
    [this.vrmRoot == null] and [blendshapes] the value of the computed
    property of that name. *)
Definition emotionGroups (vrmRoot_is_null : bool)
  (blendshapes : list (Blendshape.t W)) : Console (list (list (Emotion.t W))) :=
  if vrmRoot_is_null then mret []
  else
    groups ← mapM (λ defaultGroupDef,
                     mapM (emotionGroups_default blendshapes) defaultGroupDef)
                EMOTION_PRESET_GROUPING;
    unknownGroup ← emotionGroups_unknown blendshapes [];
    mret (if bool_decide (0 < length unknownGroup)%nat
          then groups ++ [unknownGroup] else groups).

End EmotionGroups.

(** ** The editor: spring bones and shader names *)

(** [v[key]] for a key that is no built-in property name: reading a
    property of undefined or null throws, a value that is no object has no
    such property, an object has each key once. *)
Definition js_get (v : js_value) (key : string) : outcome js_value :=
  match v with
  | JUndefined =>
      TypeError (String.append "Cannot read properties of undefined (reading '"
                   (String.append key "')"))
  | JNull =>
      TypeError (String.append "Cannot read properties of null (reading '"
                   (String.append key "')"))
  | JObject props =>
      match List.find (λ kv, bool_decide (kv.1 = key)) props with
      | Some kv => Returned kv.2
      | None => Returned JUndefined
      end
  | _ => Returned JUndefined
  end.

Section Springs.
(** [JSON.stringify] of one value: a string, or undefined. *)
Variable JSON_stringify : js_value → js_value.

(** The computed property [springs]; [vrmRoot] is [None] for null and
    otherwise the VRM extension of its glTF. Only an array has a [concat]
    whose result has a [map]; [concat] appends the elements of an array
    argument and any other argument as one element. *)
Definition springs {N M T : Type} (vrmRoot : option (Vrm.t N M T))
  : outcome (list js_value) :=
  match vrmRoot with
  | None => Returned []
  | Some vrm =>
      let secAnim := Vrm.secondaryAnimation vrm in
      match js_get secAnim "boneGroups" with
      | TypeError msg => TypeError msg
      | Returned (JArray boneGroups) =>
          match js_get secAnim "colliderGroups" with
          | TypeError msg => TypeError msg
          | Returned (JArray colliderGroups) =>
              Returned (JSON_stringify <$> boneGroups ++ colliderGroups)
          | Returned other => Returned (JSON_stringify <$> boneGroups ++ [other])
          end
      | Returned JUndefined =>
          TypeError "Cannot read properties of undefined (reading 'concat')"
      | Returned JNull =>
          TypeError "Cannot read properties of null (reading 'concat')"
      | Returned (JString _) =>
          TypeError "secAnim.boneGroups.concat(...).map is not a function"
      | Returned _ => TypeError "secAnim.boneGroups.concat is not a function"
      end
  end.

End Springs.


(** ** The editor: panes and the motion cursor *)

Definition PANE_MODE_DEFAULT : Z := 0.
Definition PANE_MODE_EMOTION : Z := 1.
Definition PANE_MODE_IMAGE : Z := 2.

(** The data of the Vue instance that the click handlers and the pane
    flags use; [vrmRoot_is_null] is [vrmRoot === null]. *)
Record vm_data : Type := VmData {
  startedLoading : bool;
  vrmRoot_is_null : bool;
  currentPane : Z;
  isFatalError : bool;
  currentEmotionId : string;
  currentImageId : Z;
}.

(** The calls that the handlers make on [app.vrmRenderer]. *)
Inductive renderer_call : Type :=
  | setCurrentEmotionId (emotionId : string)
  | invalidateWeight.

Definition _applyEmotion (data : vm_data) : list renderer_call :=
  [setCurrentEmotionId (currentEmotionId data); invalidateWeight].

(** Each handler returns the new data and the renderer calls it made. *)
Definition clickEmotion (emotionId : string) (data : vm_data)
  : vm_data * list renderer_call :=
  if bool_decide (currentEmotionId data = emotionId) then
    ({| startedLoading := startedLoading data;
        vrmRoot_is_null := vrmRoot_is_null data;
        currentPane := PANE_MODE_EMOTION;
        isFatalError := isFatalError data;
        currentEmotionId := currentEmotionId data;
        currentImageId := currentImageId data |}, [])
  else
    let data' :=
      {| startedLoading := startedLoading data;
         vrmRoot_is_null := vrmRoot_is_null data;
         currentPane := currentPane data;
         isFatalError := isFatalError data;
         currentEmotionId := emotionId;
         currentImageId := currentImageId data |} in
    (data', _applyEmotion data').

Definition clickImage (imageId : Z) (data : vm_data)
  : vm_data * list renderer_call :=
  ({| startedLoading := startedLoading data;
      vrmRoot_is_null := vrmRoot_is_null data;
      currentPane := PANE_MODE_IMAGE;
      isFatalError := isFatalError data;
      currentEmotionId := currentEmotionId data;
      currentImageId := imageId |}, []).

Definition clickBackButton (data : vm_data) : vm_data * list renderer_call :=
  ({| startedLoading := startedLoading data;
      vrmRoot_is_null := vrmRoot_is_null data;
      currentPane := PANE_MODE_DEFAULT;
      isFatalError := isFatalError data;
      currentEmotionId := currentEmotionId data;
      currentImageId := currentImageId data |}, []).

Definition showBackButton (data : vm_data) : bool :=
  negb (bool_decide (currentPane data = PANE_MODE_DEFAULT)).
Definition showMainPane (data : vm_data) : bool :=
  bool_decide (currentPane data = PANE_MODE_DEFAULT) && negb (vrmRoot_is_null data).
Definition showEmotionPane (data : vm_data) : bool :=
  bool_decide (currentPane data = PANE_MODE_EMOTION).
Definition showImagePane (data : vm_data) : bool :=
  bool_decide (currentPane data = PANE_MODE_IMAGE).
Definition isLoading (data : vm_data) : bool :=
  startedLoading data && (vrmRoot_is_null data && negb (isFatalError data)).

(** The frame cursor of [animate]: the index is reset when it has run
    past the frames, the frame at the index is read, and the index
    advances by 2. The result is the index read and the index left for the
    next call. *)
Definition animate_cursor (motionFrames_length motionFrameIndex : nat) : nat * nat :=
  let motionFrameIndex :=
    if bool_decide (motionFrames_length ≤ motionFrameIndex)%nat then 0%nat
    else motionFrameIndex in
  (motionFrameIndex, (motionFrameIndex + 2)%nat).

(** The index read by the call number [k] (from 0), the cursor starting at
    [motionFrameIndex] and the number of frames staying the same. *)
Fixpoint animate_frame_read (motionFrames_length motionFrameIndex k : nat) : nat :=
  match k with
  | O => (animate_cursor motionFrames_length motionFrameIndex).1
  | S k' =>
      animate_frame_read motionFrames_length
        (animate_cursor motionFrames_length motionFrameIndex).2 k'
  end.

(** * Properties *)

(** ** Padding *)

Lemma getPaddedBufferSize_div (L : Z) :
  getPaddedBufferSize L = - ((- L) / 4) * 4.
Proof.
  unfold getPaddedBufferSize, Qceiling, Qfloor, Qdiv, Qmult, Qinv, Qopp, inject_Z.
  cbn. replace (- (L * 1)) with (- L) by lia. reflexivity.
Qed.

Lemma getPaddedBufferSize_bounds (L : Z) :
  L ≤ getPaddedBufferSize L < L + 4 ∧ getPaddedBufferSize L mod 4 = 0.
Proof.
  rewrite getPaddedBufferSize_div.
  pose proof (Z.div_mod (- L) 4 ltac:(lia)) as Hdm.
  pose proof (Z.mod_pos_bound (- L) 4 ltac:(lia)) as Hb.
  split; [lia |]. apply Z.mod_mul. lia.
Qed.

(** C4. For every non-negative buffer length [L], [getPaddedBufferSize L]
    is a multiple of 4, is at least [L], is below every other multiple of 4
    that is at least [L], and padding a padded length changes nothing. *)
Theorem C4_padded_size_least_multiple_idempotent (L : Z) (HL : 0 ≤ L) :
  (∃ k, 0 ≤ k ∧ getPaddedBufferSize L = 4 * k)
  ∧ L ≤ getPaddedBufferSize L
  ∧ (∀ m k, m = 4 * k → L ≤ m → getPaddedBufferSize L ≤ m)
  ∧ getPaddedBufferSize (getPaddedBufferSize L) = getPaddedBufferSize L.
Proof.
  pose proof (getPaddedBufferSize_bounds L) as [[Hle Hlt] Hmod].
  apply Z.mod_divide in Hmod; [| lia]. destruct Hmod as [q Hq].
  repeat split.
  - exists q. lia.
  - exact Hle.
  - intros m k -> Hm. lia.
  - pose proof (getPaddedBufferSize_bounds (getPaddedBufferSize L))
      as [[Hle' Hlt'] Hmod'].
    apply Z.mod_divide in Hmod'; [| lia]. destruct Hmod' as [q' Hq']. lia.
Qed.

Lemma C4_padded_size_witness :
  0 ≤ 10
  ∧ getPaddedBufferSize 10 = 12
  ∧ getPaddedBufferSize (getPaddedBufferSize 10) = getPaddedBufferSize 10.
Proof.
  split; [lia |]. split; [reflexivity |].
  apply (C4_padded_size_least_multiple_idempotent 10). lia.
Defined.

Lemma fill_loop_replicate (k : nat) (p z : Z) (pre : list Z) :
  fill_loop k (length pre) p (pre ++ replicate k z) = pre ++ replicate k (p mod 256).
Proof.
  revert pre. induction k as [| k IH]; intros pre; [reflexivity |].
  cbn [fill_loop replicate].
  rewrite insert_app_r_alt by lia. rewrite Nat.sub_diag. cbn [insert list_insert].
  replace (pre ++ p mod 256 :: replicate k z)
    with ((pre ++ [p mod 256]) ++ replicate k z) by (by rewrite <- app_assoc).
  replace (S (length pre)) with (length (pre ++ [p mod 256]))
    by (rewrite length_app; cbn; lia).
  rewrite IH. by rewrite <- app_assoc.
Qed.

Lemma padding_count_lt (arrayBuffer : list Z) : (padding_count arrayBuffer < 4)%nat.
Proof.
  unfold padding_count.
  pose proof (getPaddedBufferSize_bounds (byteLength arrayBuffer)). lia.
Qed.

Lemma getPaddedArrayBuffer_app (arrayBuffer : list Z) (paddingByte : option Z) :
  getPaddedArrayBuffer arrayBuffer paddingByte
  = arrayBuffer ++ replicate (padding_count arrayBuffer) (default 0 paddingByte mod 256).
Proof.
  unfold getPaddedArrayBuffer, padding_count.
  pose proof (getPaddedBufferSize_bounds (byteLength arrayBuffer)) as [[Hle _] _].
  set (P := getPaddedBufferSize (byteLength arrayBuffer)) in *.
  case_bool_decide as Heq.
  - rewrite Heq, Z.sub_diag. cbn. by rewrite app_nil_r.
  - assert (Harr : Uint8Array_set arrayBuffer (new_Uint8Array P)
                   = arrayBuffer ++ replicate (Z.to_nat (P - byteLength arrayBuffer)) 0).
    { unfold Uint8Array_set, new_Uint8Array. rewrite drop_replicate.
      do 2 f_equal. unfold byteLength in *. lia. }
    rewrite Harr. case_bool_decide as Hp.
    + apply fill_loop_replicate.
    + assert (default 0 paddingByte = 0) as -> by (destruct (decide (default 0 paddingByte = 0)); [done | contradiction]).
      reflexivity.
Qed.

Lemma getPaddedArrayBuffer_byteLength (arrayBuffer : list Z) (paddingByte : option Z) :
  byteLength (getPaddedArrayBuffer arrayBuffer paddingByte)
  = getPaddedBufferSize (byteLength arrayBuffer).
Proof.
  rewrite getPaddedArrayBuffer_app. unfold padding_count, byteLength.
  rewrite length_app, length_replicate.
  pose proof (getPaddedBufferSize_bounds (Z.of_nat (length arrayBuffer))). lia.
Qed.

(** ** Layout of the container *)

Lemma getUint32_le32 (value : Z) (rest : list Z) :
  getUint32 0 (le32 value ++ rest) = value mod 2 ^ 32.
Proof.
  unfold getUint32, le32. cbn [drop take app]. rewrite take_0.
  set (v := value mod 2 ^ 32).
  assert (Hv : 0 ≤ v < 2 ^ 32) by (apply Z.mod_pos_bound; lia).
  change (2 ^ 8) with 256 in *. change (2 ^ 16) with (256 * 256) in *.
  change (2 ^ 24) with (256 * 256 * 256) in *.
  change (2 ^ 32) with (256 * 256 * 256 * 256) in *.
  rewrite <- !Z.div_div by lia.
  pose proof (Z.div_mod v 256 ltac:(lia)).
  pose proof (Z.div_mod (v / 256) 256 ltac:(lia)).
  pose proof (Z.div_mod (v / 256 / 256) 256 ltac:(lia)).
  pose proof (Z.mod_pos_bound v 256 ltac:(lia)).
  pose proof (Z.mod_pos_bound (v / 256) 256 ltac:(lia)).
  pose proof (Z.mod_pos_bound (v / 256 / 256) 256 ltac:(lia)).
  assert (0 ≤ v / 256 / 256 / 256 < 256).
  { split; [repeat apply Z.div_pos; lia |].
    repeat (apply Z.div_lt_upper_bound; [lia |]). lia. }
  rewrite (Z.mod_small (v / 256 / 256 / 256) 256) by lia.
  pose proof (Z.div_mod (v / 256 / 256) 256 ltac:(lia)).
  lia.
Qed.

Section Layout.
Variable JSON_stringify_utf8 : gltf_json → list Z.

Lemma glb_bytes_layout (reader_result : list Z) (outputJSON : gltf_json) :
  let jsonChunk := getPaddedArrayBuffer (JSON_stringify_utf8 outputJSON) (Some 0x20) in
  let binaryChunk := getPaddedArrayBuffer reader_result None in
  glb_bytes JSON_stringify_utf8 reader_result outputJSON
  = le32 GLB_HEADER_MAGIC ++ le32 GLB_VERSION
    ++ le32 (12 + 8 + byteLength jsonChunk + 8 + byteLength binaryChunk)
    ++ le32 (byteLength jsonChunk) ++ le32 GLB_CHUNK_TYPE_JSON ++ jsonChunk
    ++ le32 (byteLength binaryChunk) ++ le32 GLB_CHUNK_TYPE_BIN ++ binaryChunk.
Proof. reflexivity. Qed.

End Layout.

Section Container.
Variable JSON_stringify_utf8 : gltf_json → list Z.

Lemma serialize_glb_Returned (obj : gltf_and_buffers) (glb : list Z)
    (outputJSON : gltf_json) :
  serialize_glb JSON_stringify_utf8 obj = Returned (glb, outputJSON) →
  set_first_byteLength (json obj) (byteLength (concat (buffers obj)))
    = Returned outputJSON
  ∧ glb = glb_bytes JSON_stringify_utf8 (concat (buffers obj)) outputJSON.
Proof.
  unfold serialize_glb.
  destruct (set_first_byteLength _ _) as [doc | msg]; [| discriminate].
  intros [= <- <-]. done.
Qed.

(** C2. A container that the writer produces starts with the magic
    constant, then the version 2, then the total length, each as four
    little-endian bytes. The total length is 12 + 8 + padded JSON length
    + 8 + padded binary length, which is the length of the container;
    [setUint32] keeps its low 32 bits, so the field read back is that sum
    for every container shorter than 2^32 bytes. *)
Theorem C2_header_total_length (obj : gltf_and_buffers) (glb : list Z)
    (outputJSON : gltf_json)
    (Hret : serialize_glb JSON_stringify_utf8 obj = Returned (glb, outputJSON)) :
  let total :=
    12 + 8 + getPaddedBufferSize (byteLength (JSON_stringify_utf8 outputJSON))
    + 8 + getPaddedBufferSize (byteLength (concat (buffers obj))) in
  slice 0 4 glb = [0x67; 0x6C; 0x54; 0x46]
  ∧ slice 4 4 glb = [2; 0; 0; 0]
  ∧ slice 8 4 glb = le32 total
  ∧ getUint32 0 glb = GLB_HEADER_MAGIC
  ∧ getUint32 4 glb = GLB_VERSION
  ∧ getUint32 8 glb = total mod 2 ^ 32
  ∧ byteLength glb = total
  ∧ (total < 2 ^ 32 →
       getUint32 8 glb = total
       ∧ slice 8 4 glb = [total mod 256; (total / 2 ^ 8) mod 256;
                          (total / 2 ^ 16) mod 256; (total / 2 ^ 24) mod 256]).
Proof.
  intros total.
  apply serialize_glb_Returned in Hret as [_ ->].
  rewrite glb_bytes_layout. cbv zeta.
  rewrite !getPaddedArrayBuffer_byteLength. fold total.
  pose proof (getPaddedBufferSize_bounds (byteLength (JSON_stringify_utf8 outputJSON)))
    as [[HJ _] _].
  pose proof (getPaddedBufferSize_bounds (byteLength (concat (buffers obj))))
    as [[HB _] _].
  assert (Hfield : ∀ rest, getUint32 8 (le32 GLB_HEADER_MAGIC ++ le32 GLB_VERSION
                                         ++ le32 total ++ rest)
                           = total mod 2 ^ 32).
  { intros rest. change (getUint32 8 ?l) with (getUint32 0 (drop 8 l)).
    unfold le32 at 1 2. cbn [drop app]. rewrite drop_0.
    apply getUint32_le32. }
  split; [reflexivity |]. split; [reflexivity |]. split; [reflexivity |].
  split; [reflexivity |]. split; [reflexivity |].
  split; [apply Hfield |]. split.
  - unfold byteLength. rewrite !length_app. cbn [le32 length].
    unfold total.
    rewrite <- (getPaddedArrayBuffer_byteLength (JSON_stringify_utf8 outputJSON) (Some 0x20)).
    rewrite <- (getPaddedArrayBuffer_byteLength (concat (buffers obj)) None).
    unfold byteLength. lia.
  - intros Hfit.
    assert (Htot : 0 ≤ total < 2 ^ 32) by (unfold total, byteLength in *; lia).
    assert (Hmod : total mod 2 ^ 32 = total) by (apply Z.mod_small; exact Htot).
    split; [by rewrite Hfield |].
    unfold slice, le32. cbn [drop take app]. rewrite Hmod. reflexivity.
Qed.
End Container.

Lemma C2_header_total_length_witness :
  ∃ glb outputJSON,
    serialize_glb sample_stringify sample_obj = Returned (glb, outputJSON)
    ∧ getUint32 8 glb = 40
    ∧ byteLength glb = 40.
Proof.
  eexists _, _. split; [reflexivity |].
  destruct (C2_header_total_length sample_stringify sample_obj _ _ eq_refl)
    as (_ & _ & _ & _ & _ & _ & Hlen & Hfits).
  split; [| exact Hlen].
  apply Hfits. vm_compute. reflexivity.
Defined.

Section Chunks.
Variable JSON_stringify_utf8 : gltf_json → list Z.

(** C3. In a container that the writer produces, the JSON chunk payload is
    the UTF-8 text of the document followed by fewer than four bytes 0x20,
    the binary chunk payload is the concatenated buffers followed by fewer
    than four zero bytes, and both payload lengths are multiples of 4. A
    payload of 10 bytes is padded to 12 bytes, with two bytes 0 as the
    binary chunk and two bytes 0x20 as the JSON chunk. *)
Theorem C3_chunks_padded_to_alignment (obj : gltf_and_buffers) (glb : list Z)
    (outputJSON : gltf_json) (payload : list Z)
    (Hret : serialize_glb JSON_stringify_utf8 obj = Returned (glb, outputJSON))
    (Hten : length payload = 10%nat) :
  (∃ (jpad bpad : nat) (header jsonChunkPrefix binaryChunkPrefix : list Z),
      glb = header
            ++ jsonChunkPrefix
            ++ (JSON_stringify_utf8 outputJSON ++ replicate jpad 0x20)
            ++ binaryChunkPrefix
            ++ (concat (buffers obj) ++ replicate bpad 0)
      ∧ length header = 12%nat
      ∧ length jsonChunkPrefix = 8%nat
      ∧ getUint32 4 jsonChunkPrefix = GLB_CHUNK_TYPE_JSON
      ∧ length binaryChunkPrefix = 8%nat
      ∧ getUint32 4 binaryChunkPrefix = GLB_CHUNK_TYPE_BIN
      ∧ (jpad < 4)%nat
      ∧ (bpad < 4)%nat
      ∧ byteLength (JSON_stringify_utf8 outputJSON ++ replicate jpad 0x20) mod 4 = 0
      ∧ byteLength (concat (buffers obj) ++ replicate bpad 0) mod 4 = 0)
  ∧ getPaddedArrayBuffer payload None = payload ++ [0; 0]
  ∧ getPaddedArrayBuffer payload (Some 0x20) = payload ++ [0x20; 0x20].
Proof.
  apply serialize_glb_Returned in Hret as [_ ->].
  split.
  - exists (padding_count (JSON_stringify_utf8 outputJSON)),
           (padding_count (concat (buffers obj))).
    eexists _, _, _. rewrite glb_bytes_layout. cbv zeta.
    rewrite !getPaddedArrayBuffer_app. cbn [default].
    change (32 mod 256) with 32. change (0 mod 256) with 0.
    split.
    { rewrite (app_assoc (le32 GLB_HEADER_MAGIC)).
      rewrite (app_assoc (le32 GLB_HEADER_MAGIC ++ le32 GLB_VERSION)).
      f_equal.
      rewrite (app_assoc (le32 (byteLength _)) (le32 GLB_CHUNK_TYPE_JSON)).
      f_equal. f_equal.
      rewrite (app_assoc (le32 (byteLength _)) (le32 GLB_CHUNK_TYPE_BIN)).
      reflexivity. }
    split; [reflexivity |]. split; [reflexivity |]. split; [reflexivity |].
    split; [reflexivity |]. split; [reflexivity |].
    split; [apply padding_count_lt |]. split; [apply padding_count_lt |].
    rewrite <- !(getPaddedArrayBuffer_app _ (Some 0x20)).
    rewrite <- !(getPaddedArrayBuffer_app _ None).
    rewrite !getPaddedArrayBuffer_byteLength.
    split; apply getPaddedBufferSize_bounds.
  - rewrite !getPaddedArrayBuffer_app. unfold padding_count, byteLength.
    rewrite Hten. split; reflexivity.
Qed.

(** Without a first declared buffer the assignment to
    [outputJSON.buffers[0].byteLength] throws and no container is made. *)
Lemma serialize_glb_without_first_buffer (obj : gltf_and_buffers) :
  json_buffers (json obj) = None ∨ json_buffers (json obj) = Some [] →
  ∃ msg, serialize_glb JSON_stringify_utf8 obj = TypeError msg.
Proof.
  unfold serialize_glb, set_first_byteLength.
  intros [-> | ->]; eexists; reflexivity.
Qed.

(** C8. When the document declares a first buffer, the writer returns; the
    buffers are merged into one region before anything else; the first
    buffer entry of the document has its [byteLength] set to the size of
    that region, which is the sum of the buffer sizes without padding, and
    nothing else in the document changes; the container is laid out from
    the merged region and from the updated document, so that the encoded
    JSON text carries the unpadded size while the binary chunk length is
    the padded one. *)
Theorem C8_first_buffer_byteLength_is_merged_size (obj : gltf_and_buffers)
    (b0 : Buffer.t) (bs : list Buffer.t)
    (Hdecl : json_buffers (json obj) = Some (b0 :: bs)) :
  let blob := concat (buffers obj) in
  ∃ glb outputJSON,
    serialize_glb JSON_stringify_utf8 obj = Returned (glb, outputJSON)
    ∧ json_buffers outputJSON
      = Some ({| Buffer.byteLength := byteLength blob;
                 Buffer.other := Buffer.other b0 |} :: bs)
    ∧ byteLength blob = Z.of_nat (sum_list (length <$> buffers obj))
    ∧ extensionsUsed outputJSON = extensionsUsed (json obj)
    ∧ extensions outputJSON = extensions (json obj)
    ∧ json_other outputJSON = json_other (json obj)
    ∧ glb = glb_bytes JSON_stringify_utf8 blob outputJSON
    ∧ slice 20 (length (getPaddedArrayBuffer (JSON_stringify_utf8 outputJSON) (Some 0x20))) glb
      = getPaddedArrayBuffer (JSON_stringify_utf8 outputJSON) (Some 0x20)
    ∧ byteLength (getPaddedArrayBuffer blob None) = getPaddedBufferSize (byteLength blob).
Proof.
  intros blob. unfold serialize_glb, set_first_byteLength. rewrite Hdecl.
  eexists _, _. split; [reflexivity |]. cbn [json_buffers extensionsUsed extensions json_other].
  split; [reflexivity |].
  split.
  { unfold byteLength, blob. f_equal.
    induction (buffers obj) as [| b l IH]; [reflexivity |].
    cbn. rewrite length_app, IH. reflexivity. }
  split; [reflexivity |]. split; [reflexivity |]. split; [reflexivity |].
  split; [reflexivity |].
  split; [| apply getPaddedArrayBuffer_byteLength].
  rewrite glb_bytes_layout. cbv zeta. unfold slice, le32. cbn [drop app].
  rewrite drop_0, take_app_length. reflexivity.
Qed.
End Chunks.

Lemma C3_chunks_padded_to_alignment_witness :
  ∃ glb outputJSON,
    serialize_glb sample_stringify sample_obj = Returned (glb, outputJSON)
    ∧ slice 20 4 glb = [123; 125; 0x20; 0x20]
    ∧ slice 32 8 glb = [1; 2; 3; 4; 5; 0; 0; 0]
    ∧ getPaddedArrayBuffer [1; 2; 3; 4; 5; 6; 7; 8; 9; 10] None
      = [1; 2; 3; 4; 5; 6; 7; 8; 9; 10; 0; 0]
    ∧ getPaddedArrayBuffer [1; 2; 3; 4; 5; 6; 7; 8; 9; 10] (Some 0x20)
      = [1; 2; 3; 4; 5; 6; 7; 8; 9; 10; 0x20; 0x20].
Proof.
  eexists _, _. split; [reflexivity |].
  destruct (C3_chunks_padded_to_alignment sample_stringify sample_obj _ _
              [1; 2; 3; 4; 5; 6; 7; 8; 9; 10] eq_refl eq_refl)
    as (_ & Hbin & Hjson).
  split; [reflexivity |]. split; [reflexivity |].
  split; [exact Hbin | exact Hjson].
Defined.

Lemma C8_first_buffer_byteLength_is_merged_size_witness :
  ∃ glb outputJSON,
    serialize_glb sample_stringify sample_obj = Returned (glb, outputJSON)
    ∧ json_buffers outputJSON
      = Some [ {| Buffer.byteLength := 5; Buffer.other := [] |} ]
    ∧ getUint32 24 glb = 8.
Proof.
  destruct (C8_first_buffer_byteLength_is_merged_size sample_stringify sample_obj
              {| Buffer.byteLength := 0; Buffer.other := [] |} [] eq_refl)
    as (glb & outputJSON & Hret & Hbuf & _ & _ & _ & _ & Hglb & _).
  exists glb, outputJSON. split; [exact Hret |]. split; [exact Hbuf |].
  rewrite Hglb. injection Hret as _ <-. reflexivity.
Defined.

(** ** The console monad and [Array.prototype.map] *)

Lemma Console_bind_fst {A B : Type} (f : A → Console B) (c : Console A) :
  (c ≫= f).1 = (f c.1).1.
Proof. reflexivity. Qed.

Lemma Console_bind_snd {A B : Type} (f : A → Console B) (c : Console A) :
  (c ≫= f).2 = c.2 ++ (f c.1).2.
Proof. reflexivity. Qed.

Lemma Console_mapM_fst {A B : Type} (f : A → Console B) (l : list A) :
  (mapM f l).1 = (λ x, (f x).1) <$> l.
Proof.
  induction l as [| x l IH]; [reflexivity |].
  change ((mapM f (x :: l)).1) with ((f x).1 :: (mapM f l).1).
  by rewrite IH.
Qed.

Lemma Console_mapM_snd {A B : Type} (f : A → Console B) (l : list A) :
  (mapM f l).2 = concat ((λ x, (f x).2) <$> l).
Proof.
  induction l as [| x l IH]; [reflexivity |].
  change ((mapM f (x :: l)).2) with ((f x).2 ++ (mapM f l).2 ++ []).
  by rewrite IH, app_nil_r.
Qed.

Lemma Console_mapM_log_elem_of {A B : Type} (f : A → Console B) (l : list A)
    (x : A) (e : console_entry) :
  x ∈ l → e ∈ (f x).2 → e ∈ (mapM f l).2.
Proof.
  intros Hx He. rewrite Console_mapM_snd.
  induction Hx as [x l | x y l Hx IH]; cbn [fmap list_fmap concat];
    apply elem_of_app; [by left | right].
  by apply IH.
Qed.

Lemma Console_mapM_log_inv {A B : Type} (f : A → Console B) (l : list A)
    (e : console_entry) :
  e ∈ (mapM f l).2 → ∃ x, x ∈ l ∧ e ∈ (f x).2.
Proof.
  rewrite Console_mapM_snd.
  induction l as [| x l IH]; cbn [fmap list_fmap concat].
  - intros He. by apply elem_of_nil in He.
  - intros [He | He]%elem_of_app.
    + exists x. split; [left | done].
    + destruct (IH He) as (y & Hy & Hey). exists y. split; [by right | done].
Qed.

Lemma Console_mapM_silent {A B : Type} (f : A → Console B) (l : list A) :
  (∀ x, x ∈ l → (f x).2 = []) → (mapM f l).2 = [].
Proof.
  intros Hsilent. destruct (mapM f l).2 as [| e out] eqn:Hout; [done |].
  assert (He : e ∈ (mapM f l).2) by (rewrite Hout; left).
  apply Console_mapM_log_inv in He as (x & Hx & He).
  rewrite (Hsilent x Hx) in He. by apply elem_of_nil in He.
Qed.

(** ** Runs that may throw *)

Lemma Exec_bind_Normal {A B : Type} (f : A → Exec B) (c : Exec A) (a : A) :
  c.1 = Normal a → c ≫= f = ((f a).1, c.2 ++ (f a).2).
Proof. unfold mbind, Exec_bind. by intros ->. Qed.

Lemma Exec_bind_Normal_inv {A B : Type} (f : A → Exec B) (c : Exec A) (b : B) :
  (c ≫= f).1 = Normal b → ∃ a, c.1 = Normal a ∧ (f a).1 = Normal b.
Proof.
  unfold mbind, Exec_bind. destruct c.1 as [a | msg |]; [| done | done].
  intros H. by exists a.
Qed.

Lemma Exec_bind_log_inv {A B : Type} (f : A → Exec B) (c : Exec A)
    (e : console_entry) :
  e ∈ (c ≫= f).2 → e ∈ c.2 ∨ ∃ a, c.1 = Normal a ∧ e ∈ (f a).2.
Proof.
  unfold mbind, Exec_bind. destruct c.1 as [a | msg |]; [| by left | by left].
  intros [He | He]%elem_of_app; [by left | right; by exists a].
Qed.

Lemma Exec_mapM_cons {A B : Type} (f : A → Exec B) (x : A) (l : list A) :
  mapM f (x :: l) = (y ← f x; k ← mapM f l; mret (y :: k)).
Proof. reflexivity. Qed.

Lemma Exec_mapM_Normal_inv {A B : Type} (f : A → Exec B) (l : list A)
    (out : list B) :
  (mapM f l).1 = Normal out → Forall2 (λ x y, (f x).1 = Normal y) l out.
Proof.
  revert out. induction l as [| x l IH]; intros out H.
  - injection H as <-. constructor.
  - rewrite Exec_mapM_cons in H.
    apply Exec_bind_Normal_inv in H as (y & Hy & H).
    apply Exec_bind_Normal_inv in H as (k & Hk & H).
    injection H as <-. constructor; [done | by apply IH].
Qed.

Lemma Exec_mapM_Normal {A B : Type} (f : A → Exec B) (l : list A) (out : list B) :
  Forall2 (λ x y, (f x).1 = Normal y) l out → (mapM f l).1 = Normal out.
Proof.
  induction 1 as [| x y l out Hxy _ IH]; [reflexivity |].
  rewrite Exec_mapM_cons, (Exec_bind_Normal _ _ y Hxy). cbn [fst].
  by rewrite (Exec_bind_Normal _ _ out IH).
Qed.

Lemma Exec_mapM_returns {A B : Type} (f : A → Exec B) (l : list A) :
  (∀ x, x ∈ l → ∃ y, (f x).1 = Normal y) → ∃ out, (mapM f l).1 = Normal out.
Proof.
  induction l as [| x l IH]; intros Hall; [by eexists |].
  destruct (Hall x) as [y Hy]; [left |].
  destruct IH as [out Hout]; [intros x' Hx'; apply Hall; by right |].
  exists (y :: out). apply Exec_mapM_Normal. constructor; [done |].
  by apply Exec_mapM_Normal_inv.
Qed.

Lemma Exec_mapM_log_inv {A B : Type} (f : A → Exec B) (l : list A)
    (e : console_entry) :
  e ∈ (mapM f l).2 → ∃ x, x ∈ l ∧ e ∈ (f x).2.
Proof.
  induction l as [| x l IH].
  - intros He. by apply elem_of_nil in He.
  - rewrite Exec_mapM_cons.
    intros [He | (y & _ & He)]%Exec_bind_log_inv.
    { exists x. split; [left | done]. }
    apply Exec_bind_log_inv in He as [He | (k & _ & He)].
    + destruct (IH He) as (x' & Hx' & He'). exists x'. split; [by right | done].
    + by apply elem_of_nil in He.
Qed.

Lemma Exec_mapM_log {A B : Type} (f : A → Exec B) (l : list A) (out : list B) :
  (mapM f l).1 = Normal out → (mapM f l).2 = concat ((λ x, (f x).2) <$> l).
Proof.
  revert out. induction l as [| x l IH]; intros out H; [reflexivity |].
  rewrite Exec_mapM_cons in H |- *.
  apply Exec_bind_Normal_inv in H as (y & Hy & H).
  apply Exec_bind_Normal_inv in H as (k & Hk & _).
  rewrite (Exec_bind_Normal _ _ y Hy). cbn [snd].
  rewrite (Exec_bind_Normal _ _ k Hk). cbn [snd fmap list_fmap concat].
  change ((mret (y :: k) : Exec (list B)).2) with (@nil console_entry).
  by rewrite app_nil_r, (IH k Hk).
Qed.

Lemma Exec_mapM_log_elem_of {A B : Type} (f : A → Exec B) (l : list A)
    (out : list B) (x : A) (e : console_entry) :
  (mapM f l).1 = Normal out → x ∈ l → e ∈ (f x).2 → e ∈ (mapM f l).2.
Proof.
  intros Hout Hx He. rewrite (Exec_mapM_log f l out Hout). clear Hout.
  induction Hx as [x l | x y l Hx IH]; cbn [fmap list_fmap concat];
    apply elem_of_app; [by left | right].
  by apply IH.
Qed.

Lemma Exec_mapM_silent {A B : Type} (f : A → Exec B) (l : list A) :
  (∀ x, x ∈ l → (f x).2 = []) → (mapM f l).2 = [].
Proof.
  intros Hsilent. destruct (mapM f l).2 as [| e out] eqn:Hout; [done |].
  assert (He : e ∈ (mapM f l).2) by (rewrite Hout; left).
  apply Exec_mapM_log_inv in He as (x & Hx & He).
  rewrite (Hsilent x Hx) in He. by apply elem_of_nil in He.
Qed.

Lemma Forall2_fmap_eq {A B : Type} (R : A → B → Prop) (g : A → B)
    (l : list A) (l' : list B) :
  Forall2 R l l' → (∀ x y, x ∈ l → R x y → y = g x) → l' = g <$> l.
Proof.
  induction 1 as [| x y l l' Hxy _ IH]; intros Hg; [reflexivity |].
  cbn. rewrite (Hg x y) by (done || left). f_equal. apply IH.
  intros x' y' Hx'. apply Hg. by right.
Qed.

Lemma Exec_bind_not_Normal {A B : Type} (f : A → Exec B) (c : Exec A) :
  (∀ a, c.1 ≠ Normal a) → c ≫= f = (match c.1 with
                                     | Normal _ => PrototypeReplaced
                                     | Throws msg => Throws msg
                                     | PrototypeReplaced => PrototypeReplaced
                                     end, c.2).
Proof.
  unfold mbind, Exec_bind. destruct c.1 as [a | msg |]; [| done | done].
  intros H. by destruct (H a).
Qed.

Lemma Exec_bind_PrototypeReplaced_inv {A B : Type} (f : A → Exec B) (c : Exec A) :
  (c ≫= f).1 = PrototypeReplaced →
  c.1 = PrototypeReplaced ∨ ∃ a, c.1 = Normal a ∧ (f a).1 = PrototypeReplaced.
Proof.
  unfold mbind, Exec_bind. destruct c.1 as [a | msg |]; [| done | by left].
  intros H. right. by exists a.
Qed.

Lemma Exec_mapM_PrototypeReplaced_inv {A B : Type} (f : A → Exec B) (l : list A) :
  (mapM f l).1 = PrototypeReplaced → ∃ x, x ∈ l ∧ (f x).1 = PrototypeReplaced.
Proof.
  induction l as [| x l IH]; [done |].
  rewrite Exec_mapM_cons.
  intros [H | (y & _ & H)]%Exec_bind_PrototypeReplaced_inv.
  { exists x. split; [left | done]. }
  apply Exec_bind_PrototypeReplaced_inv in H as [H | (k & _ & H)]; [| done].
  destruct (IH H) as (x' & Hx' & H'). exists x'. split; [by right | done].
Qed.

(** ** Assignments to the [Map] *)

Lemma object_set_fresh {A : Type} (key : string) (v : A) (o : list (string * A)) :
  key ∉ o.*1 → object_set key v o = o ++ [(key, v)].
Proof.
  induction o as [| [k w] o IH]; intros Hfresh; cbn [object_set app]; [done |].
  cbn in Hfresh. apply not_elem_of_cons in Hfresh as [Hne Hfresh].
  rewrite bool_decide_eq_false_2 by congruence. by rewrite IH.
Qed.

Lemma object_set_keys {A : Type} (key : string) (v : A) (o : list (string * A)) :
  key ∈ o.*1 → (object_set key v o).*1 = o.*1.
Proof.
  induction o as [| [k w] o IH]; intros Hin; cbn [object_set].
  - by apply elem_of_nil in Hin.
  - case_bool_decide as Hk; [done |].
    cbn in Hin |- *. apply elem_of_cons in Hin as [-> | Hin]; [done |].
    by rewrite IH.
Qed.

Section MapAssign.
Context {A : Type} `{!JsKind A}.

Lemma Map_assign_log (key : string) (v : A) (texProp : list (string * A)) :
  (Map_assign key v texProp).2 = [].
Proof.
  unfold Map_assign. repeat case_bool_decide; try done.
  by destruct (is_object_or_null v).
Qed.

(** An assignment that returns has left the keys as they were or has
    added its key last; it has added neither [size] nor [__proto__]. *)
Lemma Map_assign_Normal_inv (key : string) (v : A) (texProp out : list (string * A)) :
  (Map_assign key v texProp).1 = Normal out →
  (key ∈ texProp.*1 ∧ out = object_set key v texProp)
  ∨ ((key ∉ texProp.*1) ∧ key = "__proto__" ∧ is_object_or_null v = false
     ∧ out = texProp)
  ∨ ((key ∉ texProp.*1) ∧ key ≠ "size" ∧ key ≠ "__proto__"
     ∧ out = texProp ++ [(key, v)]).
Proof.
  unfold Map_assign. case_bool_decide as Hown.
  { intros [= <-]. by left. }
  case_bool_decide as Hsize; [done |].
  case_bool_decide as Hproto.
  - destruct (is_object_or_null v) eqn:Hkind; [done |].
    intros [= <-]. right. by left.
  - intros [= <-]. right. right. by rewrite object_set_fresh.
Qed.

End MapAssign.

Section MapperFacts.
Context {N M T N' M' T' : Type} `{!JsKind T'}.
Variable this : VrmExtensionMapper N M T N' M' T'.

Lemma _convert_material_loop_cons (texName : string) (tex : T)
    (props : list (string * T)) (texProp : list (string * T')) :
  _convert_material_loop this ((texName, tex) :: props) texProp
  = (v ← map_texture this tex;
     texProp ← Map_assign texName v texProp;
     _convert_material_loop this props texProp).
Proof. reflexivity. Qed.

Lemma _convert_material_loop_step (texName : string) (tex : T)
    (props : list (string * T)) (texProp out : list (string * T')) :
  (_convert_material_loop this ((texName, tex) :: props) texProp).1 = Normal out →
  ∃ v texProp',
    (map_texture this tex).1 = Normal v
    ∧ (Map_assign texName v texProp).1 = Normal texProp'
    ∧ (_convert_material_loop this props texProp').1 = Normal out.
Proof.
  rewrite _convert_material_loop_cons.
  intros (v & Hv & H)%Exec_bind_Normal_inv.
  apply Exec_bind_Normal_inv in H as (texProp' & Hassign & H).
  by exists v, texProp'.
Qed.

Lemma _convert_material_loop_log_inv (props : list (string * T))
    (texProp : list (string * T')) (e : console_entry) :
  e ∈ (_convert_material_loop this props texProp).2 →
  ∃ kt, kt ∈ props ∧ e ∈ (map_texture this kt.2).2.
Proof.
  revert texProp. induction props as [| [texName tex] props IH]; intros texProp.
  - intros He. by apply elem_of_nil in He.
  - rewrite _convert_material_loop_cons.
    intros [He | (v & _ & He)]%Exec_bind_log_inv.
    { exists (texName, tex). split; [left | done]. }
    apply Exec_bind_log_inv in He as [He | (texProp' & _ & He)].
    + rewrite Map_assign_log in He. by apply elem_of_nil in He.
    + destruct (IH _ He) as (kt & Hkt & Hekt). exists kt. split; [by right | done].
Qed.

Lemma _convert_material_loop_log_elem_of (props : list (string * T))
    (texProp out : list (string * T')) (kt : string * T) (e : console_entry) :
  (_convert_material_loop this props texProp).1 = Normal out →
  kt ∈ props → e ∈ (map_texture this kt.2).2 →
  e ∈ (_convert_material_loop this props texProp).2.
Proof.
  intros Hout Hkt He. revert texProp Hout.
  induction Hkt as [[k t] props | [k t] [k' t'] props Hkt IH]; intros texProp Hout;
    pose proof Hout as Hstep;
    apply _convert_material_loop_step in Hstep as (v & texProp' & Hv & Hassign & Hrest);
    rewrite _convert_material_loop_cons, (Exec_bind_Normal _ _ v Hv); cbn [snd];
    apply elem_of_app.
  - by left.
  - right. rewrite (Exec_bind_Normal _ _ texProp' Hassign). cbn [snd].
    apply elem_of_app. right. by apply IH.
Qed.

(** A loop that returns has met no key [size], and has made no own
    property [size] or [__proto__]. *)
Lemma _convert_material_loop_Normal_keys (props : list (string * T))
    (texProp out : list (string * T')) :
  (_convert_material_loop this props texProp).1 = Normal out →
  ("size" ∉ texProp.*1 → ("size" ∉ props.*1) ∧ ("size" ∉ out.*1))
  ∧ ("__proto__" ∉ texProp.*1 → "__proto__" ∉ out.*1).
Proof.
  revert texProp. induction props as [| [texName tex] props IH]; intros texProp Hout.
  - injection Hout as <-. split; [| done]. intros Hsize. split; [| done].
    apply not_elem_of_nil.
  - apply _convert_material_loop_step in Hout as (v & texProp' & _ & Hassign & Hrest).
    destruct (IH _ Hrest) as [IHsize IHproto].
    apply Map_assign_Normal_inv in Hassign
      as [[Hown ->] | [(Hown & -> & _ & ->) | (Hown & Hsize & Hproto & ->)]].
    + rewrite object_set_keys in IHsize, IHproto by done. split; [| done].
      intros Hfresh. destruct (IHsize Hfresh) as [Hprops Hout]. split; [| done].
      cbn. apply not_elem_of_cons. split; [| done]. by intros <-.
    + split; [| done]. intros Hfresh. destruct (IHsize Hfresh) as [Hprops Hout].
      split; [| done]. cbn. apply not_elem_of_cons. done.
    + rewrite fmap_app in IHsize, IHproto. cbn in IHsize, IHproto. split.
      * intros Hfresh. destruct IHsize as [Hprops Hout].
        { rewrite elem_of_app, list_elem_of_singleton. intros [? | ?]; by auto. }
        split; [| done]. cbn. apply not_elem_of_cons. split; [congruence | done].
      * intros Hfresh. apply IHproto.
        rewrite elem_of_app, list_elem_of_singleton. intros [? | ?]; by auto.
Qed.

(** The value of a loop that returns, for distinct keys: the keys in
    their order without [__proto__], each with the value of its texture. *)
Lemma _convert_material_loop_Normal_value (ft : T → T') (props : list (string * T))
    (texProp out : list (string * T')) :
  (_convert_material_loop this props texProp).1 = Normal out →
  NoDup (texProp.*1 ++ props.*1) →
  (∀ kt v, kt ∈ props → (map_texture this kt.2).1 = Normal v → v = ft kt.2) →
  out = texProp
        ++ ((λ kt : string * T, (kt.1, ft kt.2))
              <$> filter (λ kt : string * T, kt.1 ≠ "__proto__") props).
Proof.
  revert texProp. induction props as [| [texName tex] props IH];
    intros texProp Hout Hnd Hft.
  - injection Hout as <-. by rewrite app_nil_r.
  - apply _convert_material_loop_step in Hout as (v & texProp' & Hv & Hassign & Hrest).
    assert (Hfresh : texName ∉ texProp.*1).
    { apply NoDup_app in Hnd as (_ & Hdisj & _). intros Hin.
      apply (Hdisj _ Hin). left. }
    assert (v = ft tex) as -> by (apply (Hft (texName, tex)); [left | done]).
    assert (Hft' : ∀ kt v, kt ∈ props →
                     (map_texture this kt.2).1 = Normal v → v = ft kt.2)
      by (intros kt v' Hkt; apply Hft; by right).
    apply Map_assign_Normal_inv in Hassign
      as [[Hown ->] | [(_ & -> & _ & ->) | (_ & Hsize & Hproto & ->)]].
    + done.
    + rewrite filter_cons_False by (cbn; auto).
      apply IH; [done | | done].
      cbn in Hnd. rewrite <- Permutation_middle in Hnd. by apply NoDup_cons in Hnd as [_ ?].
    + rewrite filter_cons_True by done. cbn [fmap list_fmap fst snd].
      rewrite (IH _ Hrest); [by rewrite <- app_assoc | | done].
      rewrite fmap_app. cbn. rewrite <- app_assoc. exact Hnd.
Qed.

Lemma _convert_material_loop_returns (props : list (string * T))
    (texProp : list (string * T')) :
  (∀ kt, kt ∈ props →
     kt.1 ≠ "size"
     ∧ ∃ v, (map_texture this kt.2).1 = Normal v
            ∧ (kt.1 = "__proto__" → is_object_or_null v = false)) →
  ∃ out, (_convert_material_loop this props texProp).1 = Normal out.
Proof.
  revert texProp. induction props as [| [texName tex] props IH]; intros texProp Hall.
  - by eexists.
  - destruct (Hall (texName, tex)) as (Hsize & v & Hv & Hkind); [left |].
    cbn in Hsize, Hv, Hkind.
    assert (∃ texProp', (Map_assign texName v texProp).1 = Normal texProp')
      as [texProp' Hassign].
    { unfold Map_assign. case_bool_decide; [by eexists |].
      rewrite bool_decide_eq_false_2 by done.
      case_bool_decide as Hproto; [| by eexists].
      rewrite (Hkind Hproto). by eexists. }
    destruct (IH texProp') as [out Hout]; [intros kt Hkt; apply Hall; by right |].
    exists out. rewrite _convert_material_loop_cons.
    rewrite (Exec_bind_Normal _ _ v Hv). cbn [fst].
    rewrite (Exec_bind_Normal _ _ texProp' Hassign). exact Hout.
Qed.

Lemma _convert_material_loop_PrototypeReplaced_inv (props : list (string * T))
    (texProp : list (string * T')) :
  (_convert_material_loop this props texProp).1 = PrototypeReplaced →
  ∃ kt, kt ∈ props
        ∧ ((map_texture this kt.2).1 = PrototypeReplaced
           ∨ ∃ v, (map_texture this kt.2).1 = Normal v ∧ kt.1 = "__proto__"
                  ∧ is_object_or_null v = true).
Proof.
  revert texProp. induction props as [| [texName tex] props IH]; intros texProp; [done |].
  rewrite _convert_material_loop_cons.
  intros [H | (v & Hv & H)]%Exec_bind_PrototypeReplaced_inv.
  { exists (texName, tex). split; [left | by left]. }
  apply Exec_bind_PrototypeReplaced_inv in H as [H | (texProp' & _ & H)].
  - exists (texName, tex). split; [left |]. right. exists v. split; [done |].
    unfold Map_assign in H. repeat case_bool_decide; try done.
    by destruct (is_object_or_null v).
  - destruct (IH _ H) as (kt & Hkt & Hcase). exists kt. split; [by right | done].
Qed.

Lemma _convert_material_Normal_inv (mat : MaterialProperties.t T)
    (out : MaterialProperties.t T') :
  (_convert_material this mat).1 = Normal out →
  ∃ texProp,
    (_convert_material_loop this (MaterialProperties.textureProperties mat) []).1
    = Normal texProp
    ∧ out = {| MaterialProperties.name := MaterialProperties.name mat;
               MaterialProperties.shader := MaterialProperties.shader mat;
               MaterialProperties.renderQueue := MaterialProperties.renderQueue mat;
               MaterialProperties.floatProperties :=
                 MaterialProperties.floatProperties mat;
               MaterialProperties.vectorProperties :=
                 MaterialProperties.vectorProperties mat;
               MaterialProperties.textureProperties := texProp;
               MaterialProperties.keywordMap := MaterialProperties.keywordMap mat;
               MaterialProperties.tagMap := MaterialProperties.tagMap mat |}.
Proof.
  unfold _convert_material. intros (texProp & Hloop & H)%Exec_bind_Normal_inv.
  injection H as <-. by exists texProp.
Qed.

Lemma _convert_material_log (mat : MaterialProperties.t T) :
  (_convert_material this mat).2
  = (_convert_material_loop this (MaterialProperties.textureProperties mat) []).2.
Proof.
  unfold _convert_material, mbind, Exec_bind.
  destruct (_convert_material_loop this _ []).1; cbn; by rewrite ?app_nil_r.
Qed.

Lemma _convert_material_log_inv (mat : MaterialProperties.t T) (e : console_entry) :
  e ∈ (_convert_material this mat).2 →
  ∃ kt, kt ∈ MaterialProperties.textureProperties mat
        ∧ e ∈ (map_texture this kt.2).2.
Proof. rewrite _convert_material_log. apply _convert_material_loop_log_inv. Qed.

Lemma _convert_blendshape_bind_Normal_inv (bind : BlendShapeBind.t M)
    (out : BlendShapeBind.t M') :
  (_convert_blendshape_bind this bind).1 = Normal out →
  ∃ mesh, (map_mesh this (BlendShapeBind.mesh bind)).1 = Normal mesh
          ∧ out = {| BlendShapeBind.mesh := mesh;
                     BlendShapeBind.index := BlendShapeBind.index bind;
                     BlendShapeBind.weight := BlendShapeBind.weight bind |}.
Proof.
  unfold _convert_blendshape_bind. intros (mesh & Hmesh & H)%Exec_bind_Normal_inv.
  injection H as <-. by exists mesh.
Qed.

Lemma _convert_blendshape_bind_log (bind : BlendShapeBind.t M) :
  (_convert_blendshape_bind this bind).2 = (map_mesh this (BlendShapeBind.mesh bind)).2.
Proof.
  unfold _convert_blendshape_bind, mbind, Exec_bind.
  destruct (map_mesh this _).1; cbn; by rewrite ?app_nil_r.
Qed.

Lemma _convert_blendshape_group_Normal_inv (group : BlendShapeGroup.t M)
    (out : BlendShapeGroup.t M') :
  (_convert_blendshape_group this group).1 = Normal out →
  ∃ binds,
    (mapM (_convert_blendshape_bind this) (BlendShapeGroup.binds group)).1 = Normal binds
    ∧ out = {| BlendShapeGroup.name := BlendShapeGroup.name group;
               BlendShapeGroup.presetName := BlendShapeGroup.presetName group;
               BlendShapeGroup.binds := binds;
               BlendShapeGroup.materialValues := BlendShapeGroup.materialValues group |}.
Proof.
  unfold _convert_blendshape_group. intros (binds & Hbinds & H)%Exec_bind_Normal_inv.
  injection H as <-. by exists binds.
Qed.

Lemma _convert_blendshape_group_log (group : BlendShapeGroup.t M) :
  (_convert_blendshape_group this group).2
  = (mapM (_convert_blendshape_bind this) (BlendShapeGroup.binds group)).2.
Proof.
  unfold _convert_blendshape_group, mbind, Exec_bind.
  destruct (mapM (_convert_blendshape_bind this) (BlendShapeGroup.binds group)).1;
    cbn; by rewrite ?app_nil_r.
Qed.

Lemma _convert_humanoid_bone_Normal_inv (bone : HumanoidBone.t N)
    (out : HumanoidBone.t N') :
  (_convert_humanoid_bone this bone).1 = Normal out →
  ∃ node, (map_node this (HumanoidBone.node bone)).1 = Normal node
          ∧ out = {| HumanoidBone.bone := HumanoidBone.bone bone;
                     HumanoidBone.node := node;
                     HumanoidBone.useDefaultValues := HumanoidBone.useDefaultValues bone;
                     HumanoidBone.min := HumanoidBone.min bone;
                     HumanoidBone.max := HumanoidBone.max bone;
                     HumanoidBone.center := HumanoidBone.center bone;
                     HumanoidBone.axisLength := HumanoidBone.axisLength bone |}.
Proof.
  unfold _convert_humanoid_bone. intros (node & Hnode & H)%Exec_bind_Normal_inv.
  injection H as <-. by exists node.
Qed.

Lemma _convert_humanoid_bone_log (bone : HumanoidBone.t N) :
  (_convert_humanoid_bone this bone).2 = (map_node this (HumanoidBone.node bone)).2.
Proof.
  unfold _convert_humanoid_bone, mbind, Exec_bind.
  destruct (map_node this _).1; cbn; by rewrite ?app_nil_r.
Qed.

Lemma _convert_firstperson_meshannotation_Normal_inv (annot : MeshAnnotation.t M)
    (out : MeshAnnotation.t M') :
  (_convert_firstperson_meshannotation this annot).1 = Normal out →
  ∃ mesh, (map_mesh this (MeshAnnotation.mesh annot)).1 = Normal mesh
          ∧ out = {| MeshAnnotation.mesh := mesh;
                     MeshAnnotation.firstPersonFlag :=
                       MeshAnnotation.firstPersonFlag annot |}.
Proof.
  unfold _convert_firstperson_meshannotation.
  intros (mesh & Hmesh & H)%Exec_bind_Normal_inv.
  injection H as <-. by exists mesh.
Qed.

Lemma _convert_firstperson_meshannotation_log (annot : MeshAnnotation.t M) :
  (_convert_firstperson_meshannotation this annot).2
  = (map_mesh this (MeshAnnotation.mesh annot)).2.
Proof.
  unfold _convert_firstperson_meshannotation, mbind, Exec_bind.
  destruct (map_mesh this _).1; cbn; by rewrite ?app_nil_r.
Qed.

(** A conversion that has returned: every part has returned, and the
    result is the literal made of their values. *)
Lemma convert_vrm_Normal_inv (vrm : Vrm.t N M T) (out : Vrm.t N' M' T') :
  (convert_vrm this vrm).1 = Normal out →
  ∃ groups humanBones firstPersonBone meshAnnotations materialProperties,
    (mapM (_convert_blendshape_group this)
       (BlendShapeMaster.blendShapeGroups (Vrm.blendShapeMaster vrm))).1 = Normal groups
    ∧ (mapM (_convert_humanoid_bone this)
         (Humanoid.humanBones (Vrm.humanoid vrm))).1 = Normal humanBones
    ∧ (map_node this (FirstPerson.firstPersonBone (Vrm.firstPerson vrm))).1
      = Normal firstPersonBone
    ∧ (mapM (_convert_firstperson_meshannotation this)
         (FirstPerson.meshAnnotations (Vrm.firstPerson vrm))).1 = Normal meshAnnotations
    ∧ (mapM (_convert_material this) (Vrm.materialProperties vrm)).1
      = Normal materialProperties
    ∧ out
      = {| Vrm.blendShapeMaster := {| BlendShapeMaster.blendShapeGroups := groups |};
           Vrm.humanoid :=
             {| Humanoid.humanBones := humanBones;
                Humanoid.armStretch := Humanoid.armStretch (Vrm.humanoid vrm);
                Humanoid.legStretch := Humanoid.legStretch (Vrm.humanoid vrm);
                Humanoid.upperArmTwist := Humanoid.upperArmTwist (Vrm.humanoid vrm);
                Humanoid.lowerArmTwist := Humanoid.lowerArmTwist (Vrm.humanoid vrm);
                Humanoid.upperLegTwist := Humanoid.upperLegTwist (Vrm.humanoid vrm);
                Humanoid.lowerLegTwist := Humanoid.lowerLegTwist (Vrm.humanoid vrm);
                Humanoid.feetSpacing := Humanoid.feetSpacing (Vrm.humanoid vrm);
                Humanoid.hasTranslationDoF :=
                  Humanoid.hasTranslationDoF (Vrm.humanoid vrm) |};
           Vrm.firstPerson :=
             {| FirstPerson.firstPersonBone := firstPersonBone;
                FirstPerson.firstPersonBoneOffset :=
                  FirstPerson.firstPersonBoneOffset (Vrm.firstPerson vrm);
                FirstPerson.meshAnnotations := meshAnnotations;
                FirstPerson.lookAtTypeName :=
                  FirstPerson.lookAtTypeName (Vrm.firstPerson vrm);
                FirstPerson.lookAtHorizontalInner :=
                  FirstPerson.lookAtHorizontalInner (Vrm.firstPerson vrm);
                FirstPerson.lookAtHorizontalOuter := JUndefined;
                FirstPerson.lookAtVerticalDown :=
                  FirstPerson.lookAtVerticalDown (Vrm.firstPerson vrm);
                FirstPerson.lookAtVerticalUp :=
                  FirstPerson.lookAtVerticalUp (Vrm.firstPerson vrm) |};
           Vrm.materialProperties := materialProperties;
           Vrm.meta := Vrm.meta vrm;
           Vrm.secondaryAnimation := empty_object |}.
Proof.
  unfold convert_vrm.
  intros (blend & Hblend & H)%Exec_bind_Normal_inv.
  apply Exec_bind_Normal_inv in H as (humanoid & Hhumanoid & H).
  apply Exec_bind_Normal_inv in H as (firstPerson & HfirstPerson & H).
  apply Exec_bind_Normal_inv in H as (mats & Hmats & H).
  injection H as <-.
  unfold _convert_blendshape in Hblend.
  apply Exec_bind_Normal_inv in Hblend as (groups & Hgroups & Hblend).
  injection Hblend as <-.
  unfold _convert_humanoid in Hhumanoid.
  apply Exec_bind_Normal_inv in Hhumanoid as (humanBones & Hbones & Hhumanoid).
  injection Hhumanoid as <-.
  unfold _convert_firstperson in HfirstPerson.
  apply Exec_bind_Normal_inv in HfirstPerson as (firstPersonBone & Hbone & HfirstPerson).
  apply Exec_bind_Normal_inv in HfirstPerson as (meshAnnotations & Hannots & HfirstPerson).
  injection HfirstPerson as <-.
  by exists groups, humanBones, firstPersonBone, meshAnnotations, mats.
Qed.

(** The converse: when every part returns, the conversion returns. *)
Lemma convert_vrm_Normal (vrm : Vrm.t N M T) (groups : list (BlendShapeGroup.t M'))
    (humanBones : list (HumanoidBone.t N')) (firstPersonBone : N')
    (meshAnnotations : list (MeshAnnotation.t M'))
    (materialProperties : list (MaterialProperties.t T')) :
  (mapM (_convert_blendshape_group this)
     (BlendShapeMaster.blendShapeGroups (Vrm.blendShapeMaster vrm))).1 = Normal groups →
  (mapM (_convert_humanoid_bone this)
     (Humanoid.humanBones (Vrm.humanoid vrm))).1 = Normal humanBones →
  (map_node this (FirstPerson.firstPersonBone (Vrm.firstPerson vrm))).1
  = Normal firstPersonBone →
  (mapM (_convert_firstperson_meshannotation this)
     (FirstPerson.meshAnnotations (Vrm.firstPerson vrm))).1 = Normal meshAnnotations →
  (mapM (_convert_material this) (Vrm.materialProperties vrm)).1
  = Normal materialProperties →
  ∃ out, (convert_vrm this vrm).1 = Normal out.
Proof.
  intros Hgroups Hbones Hbone Hannots Hmats. eexists.
  unfold convert_vrm, _convert_blendshape, _convert_humanoid, _convert_firstperson.
  rewrite (Exec_bind_Normal _ _ _ Hgroups). cbn [fst snd mret Exec_ret].
  rewrite (Exec_bind_Normal _ (Normal _, _) _ eq_refl). cbn [fst snd].
  rewrite (Exec_bind_Normal _ _ _ Hbones). cbn [fst snd mret Exec_ret].
  rewrite (Exec_bind_Normal _ (Normal _, _) _ eq_refl). cbn [fst snd].
  rewrite (Exec_bind_Normal _ _ _ Hbone). cbn [fst snd].
  rewrite (Exec_bind_Normal _ _ _ Hannots). cbn [fst snd mret Exec_ret].
  rewrite (Exec_bind_Normal _ (Normal _, _) _ eq_refl). cbn [fst snd].
  rewrite (Exec_bind_Normal _ _ _ Hmats). cbn [fst snd mret Exec_ret].
  reflexivity.
Qed.

End MapperFacts.

Lemma elem_of_vrm_node_refs {N M T : Type} (vrm : Vrm.t N M T) (r : N) :
  r ∈ vrm_node_refs vrm
  ↔ r = FirstPerson.firstPersonBone (Vrm.firstPerson vrm)
    ∨ ∃ b, b ∈ Humanoid.humanBones (Vrm.humanoid vrm) ∧ r = HumanoidBone.node b.
Proof.
  unfold vrm_node_refs. rewrite elem_of_cons, list_elem_of_fmap.
  split; (intros [? | (b & ? & ?)]; [by left | right; by exists b]).
Qed.

Lemma elem_of_vrm_mesh_refs {N M T : Type} (vrm : Vrm.t N M T) (m : M) :
  m ∈ vrm_mesh_refs vrm
  ↔ (∃ g b, g ∈ BlendShapeMaster.blendShapeGroups (Vrm.blendShapeMaster vrm)
            ∧ b ∈ BlendShapeGroup.binds g ∧ m = BlendShapeBind.mesh b)
    ∨ ∃ a, a ∈ FirstPerson.meshAnnotations (Vrm.firstPerson vrm)
           ∧ m = MeshAnnotation.mesh a.
Proof.
  unfold vrm_mesh_refs. rewrite elem_of_app, list_elem_of_bind, list_elem_of_fmap.
  split.
  - intros [(g & Hm & Hg) | (a & ? & ?)]; [left | right; by exists a].
    apply list_elem_of_fmap in Hm as (b & ? & ?). by exists g, b.
  - intros [(g & b & Hg & Hb & ->) | (a & ? & ?)]; [left | right; by exists a].
    exists g. split; [| done]. by apply list_elem_of_fmap_2.
Qed.

Section ConvertFacts.
Context {N M T N' M' T' : Type} `{!JsKind T'}.
Variable this : VrmExtensionMapper N M T N' M' T'.

(** What is on the console after a conversion, returned or not, has been
    written by a resolver called on a reference of the document. *)
Lemma convert_vrm_log_inv (vrm : Vrm.t N M T) (e : console_entry) :
  e ∈ (convert_vrm this vrm).2 →
  (∃ r, r ∈ vrm_node_refs vrm ∧ e ∈ (map_node this r).2)
  ∨ (∃ m, m ∈ vrm_mesh_refs vrm ∧ e ∈ (map_mesh this m).2)
  ∨ (∃ mat kt, mat ∈ Vrm.materialProperties vrm
               ∧ kt ∈ MaterialProperties.textureProperties mat
               ∧ e ∈ (map_texture this kt.2).2).
Proof.
  unfold convert_vrm.
  intros [He | (blend & _ & He)]%Exec_bind_log_inv.
  { unfold _convert_blendshape in He.
    apply Exec_bind_log_inv in He as [He | (groups & _ & He)];
      [| by apply elem_of_nil in He].
    apply Exec_mapM_log_inv in He as (g & Hg & He).
    rewrite _convert_blendshape_group_log in He.
    apply Exec_mapM_log_inv in He as (b & Hb & He).
    rewrite _convert_blendshape_bind_log in He.
    right. left. exists (BlendShapeBind.mesh b). split; [| done].
    apply elem_of_vrm_mesh_refs. left. by exists g, b. }
  apply Exec_bind_log_inv in He as [He | (humanoid & _ & He)].
  { unfold _convert_humanoid in He.
    apply Exec_bind_log_inv in He as [He | (bones & _ & He)];
      [| by apply elem_of_nil in He].
    apply Exec_mapM_log_inv in He as (b & Hb & He).
    rewrite _convert_humanoid_bone_log in He.
    left. exists (HumanoidBone.node b). split; [| done].
    apply elem_of_vrm_node_refs. right. by exists b. }
  apply Exec_bind_log_inv in He as [He | (firstPerson & _ & He)].
  { unfold _convert_firstperson in He.
    apply Exec_bind_log_inv in He as [He | (bone & _ & He)].
    { left. eexists. split; [| exact He]. apply elem_of_vrm_node_refs. by left. }
    apply Exec_bind_log_inv in He as [He | (annots & _ & He)];
      [| by apply elem_of_nil in He].
    apply Exec_mapM_log_inv in He as (a & Ha & He).
    rewrite _convert_firstperson_meshannotation_log in He.
    right. left. exists (MeshAnnotation.mesh a). split; [| done].
    apply elem_of_vrm_mesh_refs. right. by exists a. }
  apply Exec_bind_log_inv in He as [He | (mats & _ & He)];
    [| by apply elem_of_nil in He].
  apply Exec_mapM_log_inv in He as (mat & Hmat & He).
  apply _convert_material_log_inv in He as (kt & Hkt & He).
  right. right. by exists mat, kt.
Qed.

(** The console after a conversion that has returned. *)
Lemma convert_vrm_log (vrm : Vrm.t N M T) (out : Vrm.t N' M' T') :
  (convert_vrm this vrm).1 = Normal out →
  (convert_vrm this vrm).2
  = (mapM (_convert_blendshape_group this)
       (BlendShapeMaster.blendShapeGroups (Vrm.blendShapeMaster vrm))).2
    ++ (mapM (_convert_humanoid_bone this)
          (Humanoid.humanBones (Vrm.humanoid vrm))).2
    ++ (map_node this (FirstPerson.firstPersonBone (Vrm.firstPerson vrm))).2
    ++ (mapM (_convert_firstperson_meshannotation this)
          (FirstPerson.meshAnnotations (Vrm.firstPerson vrm))).2
    ++ (mapM (_convert_material this) (Vrm.materialProperties vrm)).2.
Proof.
  intros Hout.
  apply convert_vrm_Normal_inv in Hout
    as (groups & humanBones & firstPersonBone & meshAnnotations & mats
        & Hgroups & Hbones & Hbone & Hannots & Hmats & _).
  unfold convert_vrm, _convert_blendshape, _convert_humanoid, _convert_firstperson.
  rewrite (Exec_bind_Normal _ _ _ Hgroups). cbn [fst snd mret Exec_ret].
  rewrite (Exec_bind_Normal _ (Normal _, _) _ eq_refl). cbn [fst snd].
  rewrite (Exec_bind_Normal _ _ _ Hbones). cbn [fst snd mret Exec_ret].
  rewrite (Exec_bind_Normal _ (Normal _, _) _ eq_refl). cbn [fst snd].
  rewrite (Exec_bind_Normal _ _ _ Hbone). cbn [fst snd].
  rewrite (Exec_bind_Normal _ _ _ Hannots). cbn [fst snd mret Exec_ret].
  rewrite (Exec_bind_Normal _ (Normal _, _) _ eq_refl). cbn [fst snd].
  rewrite (Exec_bind_Normal _ _ _ Hmats). cbn [fst snd mret Exec_ret].
  rewrite !app_nil_r, <- !app_assoc. reflexivity.
Qed.

(** In a conversion that has returned, every resolver call on a reference
    of the document has returned, and what it wrote is on the console. *)
Lemma convert_vrm_Normal_node (vrm : Vrm.t N M T) (out : Vrm.t N' M' T') (r : N) :
  (convert_vrm this vrm).1 = Normal out → r ∈ vrm_node_refs vrm →
  (∃ x, (map_node this r).1 = Normal x)
  ∧ ∀ e, e ∈ (map_node this r).2 → e ∈ (convert_vrm this vrm).2.
Proof.
  intros Hout Hr. rewrite (convert_vrm_log vrm out Hout).
  apply convert_vrm_Normal_inv in Hout
    as (groups & humanBones & firstPersonBone & meshAnnotations & mats
        & Hgroups & Hbones & Hbone & Hannots & Hmats & _).
  apply elem_of_vrm_node_refs in Hr as [-> | (b & Hb & ->)].
  - split; [by eexists |]. intros e He. rewrite !elem_of_app. auto.
  - pose proof (Exec_mapM_Normal_inv _ _ _ Hbones) as Hall.
    split.
    + apply list_elem_of_lookup in Hb as [i Hi].
      destruct (Forall2_lookup_l _ _ _ _ _ Hall Hi) as (b' & _ & Hb').
      apply _convert_humanoid_bone_Normal_inv in Hb' as (node & Hnode & _).
      by exists node.
    + intros e He. rewrite !elem_of_app. right. left.
      apply (Exec_mapM_log_elem_of _ _ humanBones b); [done | done |].
      by rewrite _convert_humanoid_bone_log.
Qed.

Lemma convert_vrm_Normal_mesh (vrm : Vrm.t N M T) (out : Vrm.t N' M' T') (m : M) :
  (convert_vrm this vrm).1 = Normal out → m ∈ vrm_mesh_refs vrm →
  (∃ x, (map_mesh this m).1 = Normal x)
  ∧ ∀ e, e ∈ (map_mesh this m).2 → e ∈ (convert_vrm this vrm).2.
Proof.
  intros Hout Hm. rewrite (convert_vrm_log vrm out Hout).
  apply convert_vrm_Normal_inv in Hout
    as (groups & humanBones & firstPersonBone & meshAnnotations & mats
        & Hgroups & Hbones & Hbone & Hannots & Hmats & _).
  apply elem_of_vrm_mesh_refs in Hm as [(g & b & Hg & Hb & ->) | (a & Ha & ->)].
  - pose proof (Exec_mapM_Normal_inv _ _ _ Hgroups) as Hall.
    pose proof Hg as Hg'. apply list_elem_of_lookup in Hg' as [i Hi].
    destruct (Forall2_lookup_l _ _ _ _ _ Hall Hi) as (g' & _ & Hg').
    apply _convert_blendshape_group_Normal_inv in Hg' as (binds & Hbinds & _).
    pose proof (Exec_mapM_Normal_inv _ _ _ Hbinds) as Hallb.
    split.
    + apply list_elem_of_lookup in Hb as [j Hj].
      destruct (Forall2_lookup_l _ _ _ _ _ Hallb Hj) as (b' & _ & Hb').
      apply _convert_blendshape_bind_Normal_inv in Hb' as (mesh & Hmesh & _).
      by exists mesh.
    + intros e He. rewrite !elem_of_app. left.
      apply (Exec_mapM_log_elem_of _ _ groups g); [done | done |].
      rewrite _convert_blendshape_group_log.
      apply (Exec_mapM_log_elem_of _ _ binds b); [done | done |].
      by rewrite _convert_blendshape_bind_log.
  - pose proof (Exec_mapM_Normal_inv _ _ _ Hannots) as Hall.
    split.
    + apply list_elem_of_lookup in Ha as [i Hi].
      destruct (Forall2_lookup_l _ _ _ _ _ Hall Hi) as (a' & _ & Ha').
      apply _convert_firstperson_meshannotation_Normal_inv in Ha' as (mesh & Hmesh & _).
      by exists mesh.
    + intros e He. rewrite !elem_of_app. do 3 right. left.
      apply (Exec_mapM_log_elem_of _ _ meshAnnotations a); [done | done |].
      by rewrite _convert_firstperson_meshannotation_log.
Qed.

Lemma convert_vrm_Normal_texture (vrm : Vrm.t N M T) (out : Vrm.t N' M' T')
    (mat : MaterialProperties.t T) (kt : string * T) :
  (convert_vrm this vrm).1 = Normal out →
  mat ∈ Vrm.materialProperties vrm →
  kt ∈ MaterialProperties.textureProperties mat →
  kt.1 ≠ "size"
  ∧ ∀ e, e ∈ (map_texture this kt.2).2 → e ∈ (convert_vrm this vrm).2.
Proof.
  intros Hout Hmat Hkt. rewrite (convert_vrm_log vrm out Hout).
  apply convert_vrm_Normal_inv in Hout
    as (groups & humanBones & firstPersonBone & meshAnnotations & mats
        & Hgroups & Hbones & Hbone & Hannots & Hmats & _).
  pose proof (Exec_mapM_Normal_inv _ _ _ Hmats) as Hall.
  pose proof Hmat as Hmat'. apply list_elem_of_lookup in Hmat' as [i Hi].
  destruct (Forall2_lookup_l _ _ _ _ _ Hall Hi) as (mat' & _ & Hmat').
  apply _convert_material_Normal_inv in Hmat' as (texProp & Hloop & _).
  split.
  - destruct (_convert_material_loop_Normal_keys this _ _ _ Hloop) as [Hsize _].
    destruct Hsize as [Hsize _]; [apply not_elem_of_nil |].
    intros Heq. apply Hsize. rewrite <- Heq. by apply list_elem_of_fmap_2.
  - intros e He. rewrite !elem_of_app. do 4 right.
    apply (Exec_mapM_log_elem_of _ _ mats mat); [done | done |].
    rewrite _convert_material_log.
    by apply (_convert_material_loop_log_elem_of this _ _ texProp kt).
Qed.

(** The fields of a conversion that has returned, in terms of functions
    that give the value of the resolvers. *)
Lemma convert_vrm_Normal_fields (fn : N → N') (fm : M → M') (vrm : Vrm.t N M T)
    (out : Vrm.t N' M' T') :
  (convert_vrm this vrm).1 = Normal out →
  (∀ r x, r ∈ vrm_node_refs vrm → (map_node this r).1 = Normal x → x = fn r) →
  (∀ m x, m ∈ vrm_mesh_refs vrm → (map_mesh this m).1 = Normal x → x = fm m) →
  Vrm.blendShapeMaster out
  = {| BlendShapeMaster.blendShapeGroups :=
         (λ g, {| BlendShapeGroup.name := BlendShapeGroup.name g;
                  BlendShapeGroup.presetName := BlendShapeGroup.presetName g;
                  BlendShapeGroup.binds :=
                    (λ b, {| BlendShapeBind.mesh := fm (BlendShapeBind.mesh b);
                             BlendShapeBind.index := BlendShapeBind.index b;
                             BlendShapeBind.weight := BlendShapeBind.weight b |})
                      <$> BlendShapeGroup.binds g;
                  BlendShapeGroup.materialValues := BlendShapeGroup.materialValues g |})
           <$> BlendShapeMaster.blendShapeGroups (Vrm.blendShapeMaster vrm) |}
  ∧ Vrm.humanoid out
    = {| Humanoid.humanBones :=
           (λ b, {| HumanoidBone.bone := HumanoidBone.bone b;
                    HumanoidBone.node := fn (HumanoidBone.node b);
                    HumanoidBone.useDefaultValues := HumanoidBone.useDefaultValues b;
                    HumanoidBone.min := HumanoidBone.min b;
                    HumanoidBone.max := HumanoidBone.max b;
                    HumanoidBone.center := HumanoidBone.center b;
                    HumanoidBone.axisLength := HumanoidBone.axisLength b |})
             <$> Humanoid.humanBones (Vrm.humanoid vrm);
         Humanoid.armStretch := Humanoid.armStretch (Vrm.humanoid vrm);
         Humanoid.legStretch := Humanoid.legStretch (Vrm.humanoid vrm);
         Humanoid.upperArmTwist := Humanoid.upperArmTwist (Vrm.humanoid vrm);
         Humanoid.lowerArmTwist := Humanoid.lowerArmTwist (Vrm.humanoid vrm);
         Humanoid.upperLegTwist := Humanoid.upperLegTwist (Vrm.humanoid vrm);
         Humanoid.lowerLegTwist := Humanoid.lowerLegTwist (Vrm.humanoid vrm);
         Humanoid.feetSpacing := Humanoid.feetSpacing (Vrm.humanoid vrm);
         Humanoid.hasTranslationDoF := Humanoid.hasTranslationDoF (Vrm.humanoid vrm) |}
  ∧ Vrm.firstPerson out
    = {| FirstPerson.firstPersonBone :=
           fn (FirstPerson.firstPersonBone (Vrm.firstPerson vrm));
         FirstPerson.firstPersonBoneOffset :=
           FirstPerson.firstPersonBoneOffset (Vrm.firstPerson vrm);
         FirstPerson.meshAnnotations :=
           (λ a, {| MeshAnnotation.mesh := fm (MeshAnnotation.mesh a);
                    MeshAnnotation.firstPersonFlag := MeshAnnotation.firstPersonFlag a |})
             <$> FirstPerson.meshAnnotations (Vrm.firstPerson vrm);
         FirstPerson.lookAtTypeName := FirstPerson.lookAtTypeName (Vrm.firstPerson vrm);
         FirstPerson.lookAtHorizontalInner :=
           FirstPerson.lookAtHorizontalInner (Vrm.firstPerson vrm);
         FirstPerson.lookAtHorizontalOuter := JUndefined;
         FirstPerson.lookAtVerticalDown :=
           FirstPerson.lookAtVerticalDown (Vrm.firstPerson vrm);
         FirstPerson.lookAtVerticalUp :=
           FirstPerson.lookAtVerticalUp (Vrm.firstPerson vrm) |}
  ∧ Forall2 (λ mat mat', (_convert_material this mat).1 = Normal mat')
      (Vrm.materialProperties vrm) (Vrm.materialProperties out)
  ∧ Vrm.meta out = Vrm.meta vrm
  ∧ Vrm.secondaryAnimation out = empty_object.
Proof.
  intros Hout Hfn Hfm.
  apply convert_vrm_Normal_inv in Hout
    as (groups & humanBones & firstPersonBone & meshAnnotations & mats
        & Hgroups & Hbones & Hbone & Hannots & Hmats & ->).
  cbn [Vrm.blendShapeMaster Vrm.humanoid Vrm.firstPerson Vrm.materialProperties
       Vrm.meta Vrm.secondaryAnimation].
  split; [| split; [| split; [| split; [| done]]]].
  - f_equal.
    apply (Forall2_fmap_eq _ _ _ _ (Exec_mapM_Normal_inv _ _ _ Hgroups)).
    intros g g' Hg Hconv. apply _convert_blendshape_group_Normal_inv in Hconv as (binds & Hbinds & ->).
    f_equal.
    apply (Forall2_fmap_eq _ _ _ _ (Exec_mapM_Normal_inv _ _ _ Hbinds)).
    intros b b' Hb Hconv. apply _convert_blendshape_bind_Normal_inv in Hconv as (mesh & Hmesh & ->).
    f_equal. apply Hfm; [| done]. apply elem_of_vrm_mesh_refs. left. by exists g, b.
  - f_equal.
    apply (Forall2_fmap_eq _ _ _ _ (Exec_mapM_Normal_inv _ _ _ Hbones)).
    intros b b' Hb Hconv. apply _convert_humanoid_bone_Normal_inv in Hconv as (node & Hnode & ->).
    f_equal. apply Hfn; [| done]. apply elem_of_vrm_node_refs. right. by exists b.
  - f_equal.
    + apply Hfn; [| done]. apply elem_of_vrm_node_refs. by left.
    + apply (Forall2_fmap_eq _ _ _ _ (Exec_mapM_Normal_inv _ _ _ Hannots)).
      intros a a' Ha Hconv. apply _convert_firstperson_meshannotation_Normal_inv in Hconv as (mesh & Hmesh & ->).
      f_equal. apply Hfm; [| done]. apply elem_of_vrm_mesh_refs. right. by exists a.
  - by apply Exec_mapM_Normal_inv.
Qed.

(** A conversion returns when every resolver call on a reference of the
    document returns and every material converts. *)
Lemma convert_vrm_returns (vrm : Vrm.t N M T) :
  (∀ r, r ∈ vrm_node_refs vrm → ∃ x, (map_node this r).1 = Normal x) →
  (∀ m, m ∈ vrm_mesh_refs vrm → ∃ x, (map_mesh this m).1 = Normal x) →
  (∀ mat, mat ∈ Vrm.materialProperties vrm →
     ∃ mat', (_convert_material this mat).1 = Normal mat') →
  ∃ out, (convert_vrm this vrm).1 = Normal out.
Proof.
  intros Hnodes Hmeshes Hmats.
  destruct (Exec_mapM_returns (_convert_blendshape_group this)
              (BlendShapeMaster.blendShapeGroups (Vrm.blendShapeMaster vrm)))
    as [groups Hgroups].
  { intros g Hg.
    destruct (Exec_mapM_returns (_convert_blendshape_bind this)
                (BlendShapeGroup.binds g)) as [binds Hbinds].
    { intros b Hb. destruct (Hmeshes (BlendShapeBind.mesh b)) as [x Hx].
      { apply elem_of_vrm_mesh_refs. left. by exists g, b. }
      eexists. unfold _convert_blendshape_bind.
      by rewrite (Exec_bind_Normal _ _ _ Hx). }
    eexists. unfold _convert_blendshape_group.
    by rewrite (Exec_bind_Normal _ _ _ Hbinds). }
  destruct (Exec_mapM_returns (_convert_humanoid_bone this)
              (Humanoid.humanBones (Vrm.humanoid vrm))) as [bones Hbones].
  { intros b Hb. destruct (Hnodes (HumanoidBone.node b)) as [x Hx].
    { apply elem_of_vrm_node_refs. right. by exists b. }
    eexists. unfold _convert_humanoid_bone.
    by rewrite (Exec_bind_Normal _ _ _ Hx). }
  destruct (Hnodes (FirstPerson.firstPersonBone (Vrm.firstPerson vrm)))
    as [bone Hbone].
  { apply elem_of_vrm_node_refs. by left. }
  destruct (Exec_mapM_returns (_convert_firstperson_meshannotation this)
              (FirstPerson.meshAnnotations (Vrm.firstPerson vrm))) as [annots Hannots].
  { intros a Ha. destruct (Hmeshes (MeshAnnotation.mesh a)) as [x Hx].
    { apply elem_of_vrm_mesh_refs. right. by exists a. }
    eexists. unfold _convert_firstperson_meshannotation.
    by rewrite (Exec_bind_Normal _ _ _ Hx). }
  destruct (Exec_mapM_returns (_convert_material this) (Vrm.materialProperties vrm))
    as [mats Hmats']; [done |].
  by apply (convert_vrm_Normal this vrm groups bones bone annots mats).
Qed.

(** A conversion stops at a replaced prototype only when a resolver does,
    or when a texture resolver has returned an object or null for the key
    [__proto__]. *)
Lemma convert_vrm_PrototypeReplaced_inv (vrm : Vrm.t N M T) :
  (convert_vrm this vrm).1 = PrototypeReplaced →
  (∃ r, (map_node this r).1 = PrototypeReplaced)
  ∨ (∃ m, (map_mesh this m).1 = PrototypeReplaced)
  ∨ (∃ t, (map_texture this t).1 = PrototypeReplaced)
  ∨ ∃ mat kt v, mat ∈ Vrm.materialProperties vrm
                ∧ kt ∈ MaterialProperties.textureProperties mat
                ∧ kt.1 = "__proto__"
                ∧ (map_texture this kt.2).1 = Normal v
                ∧ is_object_or_null v = true.
Proof.
  unfold convert_vrm.
  intros [H | (blend & _ & H)]%Exec_bind_PrototypeReplaced_inv.
  { unfold _convert_blendshape in H.
    apply Exec_bind_PrototypeReplaced_inv in H as [H | (groups & _ & H)]; [| done].
    apply Exec_mapM_PrototypeReplaced_inv in H as (g & _ & H).
    unfold _convert_blendshape_group in H.
    apply Exec_bind_PrototypeReplaced_inv in H as [H | (binds & _ & H)]; [| done].
    apply Exec_mapM_PrototypeReplaced_inv in H as (b & _ & H).
    unfold _convert_blendshape_bind in H.
    apply Exec_bind_PrototypeReplaced_inv in H as [H | (mesh & _ & H)]; [| done].
    right. left. by eexists. }
  apply Exec_bind_PrototypeReplaced_inv in H as [H | (humanoid & _ & H)].
  { unfold _convert_humanoid in H.
    apply Exec_bind_PrototypeReplaced_inv in H as [H | (bones & _ & H)]; [| done].
    apply Exec_mapM_PrototypeReplaced_inv in H as (b & _ & H).
    unfold _convert_humanoid_bone in H.
    apply Exec_bind_PrototypeReplaced_inv in H as [H | (node & _ & H)]; [| done].
    left. by eexists. }
  apply Exec_bind_PrototypeReplaced_inv in H as [H | (firstPerson & _ & H)].
  { unfold _convert_firstperson in H.
    apply Exec_bind_PrototypeReplaced_inv in H as [H | (bone & _ & H)].
    { left. by eexists. }
    apply Exec_bind_PrototypeReplaced_inv in H as [H | (annots & _ & H)]; [| done].
    apply Exec_mapM_PrototypeReplaced_inv in H as (a & _ & H).
    unfold _convert_firstperson_meshannotation in H.
    apply Exec_bind_PrototypeReplaced_inv in H as [H | (mesh & _ & H)]; [| done].
    right. left. by eexists. }
  apply Exec_bind_PrototypeReplaced_inv in H as [H | (mats & _ & H)]; [| done].
  apply Exec_mapM_PrototypeReplaced_inv in H as (mat & Hmat & H).
  unfold _convert_material in H.
  apply Exec_bind_PrototypeReplaced_inv in H as [H | (texProp & _ & H)]; [| done].
  apply _convert_material_loop_PrototypeReplaced_inv in H
    as (kt & Hkt & [H | (v & Hv & Hproto & Hkind)]).
  - right. right. left. by eexists.
  - do 3 right. by exists mat, kt, v.
Qed.

End ConvertFacts.

(** ** The resolvers of the two directions *)

Lemma findIndex_from_spec {A : Type} (p : A → bool) (l : list A) (i : Z) :
  (∃ (k : nat) (e : A),
      l !! k = Some e ∧ p e = true
      ∧ (∀ (j : nat) (e' : A), (j < k)%nat → l !! j = Some e' → p e' = false)
      ∧ findIndex_from p l i = i + Z.of_nat k)
  ∨ ((∀ e, e ∈ l → p e = false) ∧ findIndex_from p l i = -1).
Proof.
  revert i. induction l as [| x l IH]; intros i; cbn [findIndex_from].
  - right. split; [| done]. intros e He. by apply elem_of_nil in He.
  - destruct (p x) eqn:Hpx.
    + left. exists 0%nat, x. repeat split; [done | | lia]. intros j e' Hj. lia.
    + destruct (IH (i + 1)) as [(k & e & Hk & Hpe & Hmin & Hr) | [Hnone Hr]].
      * left. exists (S k), e. repeat split; [done | done | | lia].
        intros [| j] e' Hj Hl; [by injection Hl as <- |].
        apply (Hmin j); [lia | done].
      * right. split; [| done].
        intros e [-> | He]%elem_of_cons; [done | by apply Hnone].
Qed.

Lemma map_node_resolved (obj : gltf_and_buffers) (node_ref : three_object)
    (node_id : Z) :
  nodeMap obj !! node_ref = Some node_id →
  map_node (ref_to_id obj) node_ref = (Normal node_id, []).
Proof. intros H. cbn. by rewrite H. Qed.

Lemma map_node_unresolved (obj : gltf_and_buffers) (node_ref : three_object) :
  nodeMap obj !! node_ref = None →
  map_node (ref_to_id obj) node_ref = (Normal 0, [node_warning node_ref]).
Proof. intros H. cbn. by rewrite H. Qed.

Lemma map_node_log_inv (obj : gltf_and_buffers) (node_ref : three_object)
    (e : console_entry) :
  e ∈ (map_node (ref_to_id obj) node_ref).2 →
  nodeMap obj !! node_ref = None ∧ e = node_warning node_ref.
Proof.
  destruct (nodeMap obj !! node_ref) as [node_id |] eqn:Hget.
  - rewrite (map_node_resolved obj _ _ Hget). intros He. by apply elem_of_nil in He.
  - rewrite (map_node_unresolved obj _ Hget).
    intros ->%list_elem_of_singleton. done.
Qed.

(** The value of the node resolver of the exporter, which always returns. *)
Lemma map_node_Normal (obj : gltf_and_buffers) (node_ref : three_object) :
  (map_node (ref_to_id obj) node_ref).1
  = Normal (default 0 (nodeMap obj !! node_ref)).
Proof.
  destruct (nodeMap obj !! node_ref) as [node_id |] eqn:Hget.
  - by rewrite (map_node_resolved obj _ _ Hget).
  - by rewrite (map_node_unresolved obj _ Hget).
Qed.

Lemma map_mesh_array (obj : gltf_and_buffers) (mesh_ref : mesh_reference) :
  (∀ null, mesh_ref ≠ MeshNullish null) ∨ skins obj = [] →
  map_mesh (ref_to_id obj) mesh_ref
  = (let skin_id :=
       findIndex (λ e, bool_decide (Some e = mesh_first mesh_ref)) (skins obj) in
     if bool_decide (skin_id < 0) then (Normal 0, [mesh_warning mesh_ref])
     else (Normal skin_id, [])).
Proof.
  intros Hcase. cbn [map_mesh ref_to_id].
  destruct mesh_ref as [elements | null].
  - cbv zeta. by case_bool_decide.
  - destruct Hcase as [Hne | ->]; [by destruct (Hne null) |]. reflexivity.
Qed.

Lemma map_mesh_resolved (obj : gltf_and_buffers) (mesh_ref : mesh_reference)
    (k : nat) (e : three_object) :
  skins obj !! k = Some e →
  mesh_first mesh_ref = Some e →
  (∀ j : nat, (j < k)%nat → skins obj !! j ≠ Some e) →
  map_mesh (ref_to_id obj) mesh_ref = (Normal (Z.of_nat k), []).
Proof.
  intros Hk Hfirst Hmin. rewrite map_mesh_array by (left; by intros null ->).
  cbv zeta. unfold findIndex.
  destruct (findIndex_from_spec
              (λ e0, bool_decide (Some e0 = mesh_first mesh_ref)) (skins obj) 0)
    as [(k' & e' & Hk' & Hp & Hmin' & ->) | [Hnone _]].
  - apply bool_decide_eq_true_1 in Hp. rewrite Hfirst in Hp. injection Hp as ->.
    assert (k' = k) as ->.
    { destruct (Nat.lt_trichotomy k' k) as [Hlt | [-> | Hgt]]; [| done |].
      - by destruct (Hmin k' Hlt).
      - specialize (Hmin' k e Hgt Hk). apply bool_decide_eq_false_1 in Hmin'.
        by rewrite Hfirst in Hmin'. }
    rewrite bool_decide_eq_false_2 by lia. reflexivity.
  - assert (He : e ∈ skins obj) by (apply list_elem_of_lookup; eauto).
    apply Hnone, bool_decide_eq_false_1 in He. by rewrite Hfirst in He.
Qed.

Lemma map_mesh_unresolved (obj : gltf_and_buffers) (mesh_ref : mesh_reference) :
  mesh_unresolved obj mesh_ref →
  (∀ null, mesh_ref ≠ MeshNullish null) ∨ skins obj = [] →
  map_mesh (ref_to_id obj) mesh_ref = (Normal 0, [mesh_warning mesh_ref]).
Proof.
  intros Hnone Hcase. rewrite map_mesh_array by done. cbv zeta. unfold findIndex.
  destruct (findIndex_from_spec
              (λ e0, bool_decide (Some e0 = mesh_first mesh_ref)) (skins obj) 0)
    as [(k' & e' & Hk' & Hp & _ & _) | [_ ->]].
  - apply bool_decide_eq_true_1 in Hp.
    assert (He : e' ∈ skins obj) by (apply list_elem_of_lookup; eauto).
    by destruct (Hnone e' He).
  - reflexivity.
Qed.

Lemma map_mesh_nullish_throws (obj : gltf_and_buffers) (null : bool) :
  skins obj ≠ [] →
  map_mesh (ref_to_id obj) (MeshNullish null) = (Throws (cannot_read_0 null), []).
Proof. intros Hne. cbn [map_mesh ref_to_id]. by destruct (skins obj). Qed.

(** The three ends of the mesh resolver of the exporter. *)
Lemma map_mesh_cases (obj : gltf_and_buffers) (mesh_ref : mesh_reference) :
  (∃ (k : nat) (e : three_object),
      skins obj !! k = Some e ∧ mesh_first mesh_ref = Some e
      ∧ map_mesh (ref_to_id obj) mesh_ref = (Normal (Z.of_nat k), []))
  ∨ (mesh_unresolved obj mesh_ref
     ∧ map_mesh (ref_to_id obj) mesh_ref = (Normal 0, [mesh_warning mesh_ref]))
  ∨ (∃ null, mesh_ref = MeshNullish null ∧ skins obj ≠ []
             ∧ map_mesh (ref_to_id obj) mesh_ref = (Throws (cannot_read_0 null), [])).
Proof.
  assert (Hcase : (∃ null, mesh_ref = MeshNullish null ∧ skins obj ≠ [])
                  ∨ ((∀ null, mesh_ref ≠ MeshNullish null) ∨ skins obj = [])).
  { destruct mesh_ref as [elements | null]; [right; by left |].
    destruct (skins obj); [right; by right | left; by exists null]. }
  destruct Hcase as [(null & -> & Hne) | Hcase'].
  { right. right. exists null. split; [done |]. split; [done |].
    by apply map_mesh_nullish_throws. }
  destruct (findIndex_from_spec
              (λ e0, bool_decide (Some e0 = mesh_first mesh_ref)) (skins obj) 0)
    as [(k & e & Hk & Hp & Hmin & _) | [Hnone _]].
  - left. exists k, e. apply bool_decide_eq_true_1 in Hp.
    split; [done |]. split; [done |].
    apply (map_mesh_resolved obj mesh_ref k e); [done | done |].
    intros j Hj Hskin. specialize (Hmin j e Hj Hskin).
    apply bool_decide_eq_false_1 in Hmin. congruence.
  - right. left.
    assert (Hun : mesh_unresolved obj mesh_ref).
    { intros e He Hfirst. specialize (Hnone e He).
      apply bool_decide_eq_false_1 in Hnone. congruence. }
    split; [done |]. by apply map_mesh_unresolved.
Qed.

Lemma map_mesh_log_inv (obj : gltf_and_buffers) (mesh_ref : mesh_reference)
    (e : console_entry) :
  e ∈ (map_mesh (ref_to_id obj) mesh_ref).2 →
  mesh_unresolved obj mesh_ref ∧ e = mesh_warning mesh_ref.
Proof.
  destruct (map_mesh_cases obj mesh_ref)
    as [(k & s & _ & _ & ->) | [[Hun ->] | (null & _ & _ & ->)]].
  - intros He. by apply elem_of_nil in He.
  - intros ->%list_elem_of_singleton. done.
  - intros He. by apply elem_of_nil in He.
Qed.

(** An unresolved mesh reference is emitted as 0 whenever the resolver
    returns. *)
Lemma map_mesh_unresolved_Normal (obj : gltf_and_buffers) (mesh_ref : mesh_reference)
    (skin_id : Z) :
  mesh_unresolved obj mesh_ref →
  (map_mesh (ref_to_id obj) mesh_ref).1 = Normal skin_id →
  map_mesh (ref_to_id obj) mesh_ref = (Normal 0, [mesh_warning mesh_ref]).
Proof.
  intros Hun Hret.
  destruct (map_mesh_cases obj mesh_ref)
    as [(k & e & Hk & Hfirst & _) | [[_ ->] | (null & _ & _ & Hthrow)]]; [| done |].
  - destruct (Hun e); [| done]. by eapply list_elem_of_lookup_2.
  - by rewrite Hthrow in Hret.
Qed.

Lemma map_mesh_array_Normal (obj : gltf_and_buffers) (elements : list three_object) :
  ∃ skin_id, (map_mesh (ref_to_id obj) (MeshArray elements)).1 = Normal skin_id.
Proof.
  destruct (map_mesh_cases obj (MeshArray elements))
    as [(k & e & _ & _ & ->) | [[_ ->] | (null & ? & _)]];
    [by eexists | by eexists | done].
Qed.

Lemma export_not_PrototypeReplaced (obj : gltf_and_buffers)
    (vrm : Vrm.t three_object mesh_reference three_object) :
  (convert_vrm (ref_to_id obj) vrm).1 ≠ PrototypeReplaced.
Proof.
  intros [[r H] | [[m H] | [[t H] | (mat & kt & v & _ & _ & _ & _ & H)]]]
    %convert_vrm_PrototypeReplaced_inv.
  - by rewrite map_node_Normal in H.
  - destruct (map_mesh_cases obj m)
      as [(k & e & _ & _ & Heq) | [[_ Heq] | (null & _ & _ & Heq)]];
      by rewrite Heq in H.
  - done.
  - done.
Qed.

Lemma array_get_None {A : Type} (l : list A) (id : Z) :
  array_get l id = None ↔ id < 0 ∨ Z.of_nat (length l) ≤ id.
Proof.
  unfold array_get. case_bool_decide as Hid.
  - rewrite lookup_ge_None. lia.
  - split; [lia | done].
Qed.

Lemma array_get_of_nat {A : Type} (l : list A) (i : nat) :
  array_get l (Z.of_nat i) = l !! i.
Proof.
  unfold array_get. rewrite bool_decide_eq_true_2 by lia. by rewrite Nat2Z.id.
Qed.

(** The import conversion writes nothing. *)
Lemma import_silent (nodes : list three_object) (meshes : list (list three_object))
    (textures : list three_object) (wire : Vrm.t Z Z Z) :
  (convert_vrm (ref_to_real nodes meshes textures) wire).2 = [].
Proof.
  destruct (convert_vrm (ref_to_real nodes meshes textures) wire).2
    as [| e log] eqn:Hlog; [done |].
  assert (He : e ∈ (convert_vrm (ref_to_real nodes meshes textures) wire).2)
    by (rewrite Hlog; left).
  apply convert_vrm_log_inv in He
    as [(r & _ & He) | [(m & _ & He) | (mat & kt & _ & _ & He)]];
    by apply elem_of_nil in He.
Qed.

(** The import conversion returns when no texture property is named
    [size] or [__proto__]. *)
Lemma import_returns (nodes : list three_object) (meshes : list (list three_object))
    (textures : list three_object) (wire : Vrm.t Z Z Z) :
  no_texture_key "size" wire → no_texture_key "__proto__" wire →
  ∃ out, convert_vrm (ref_to_real nodes meshes textures) wire = (Normal out, []).
Proof.
  intros Hsize Hproto.
  destruct (convert_vrm_returns (ref_to_real nodes meshes textures) wire)
    as [out Hout]; [by eexists | by eexists | |].
  - intros mat Hmat.
    destruct (_convert_material_loop_returns (ref_to_real nodes meshes textures)
                (MaterialProperties.textureProperties mat) []) as [texProp Hloop].
    { intros kt Hkt. split.
      - intros Heq. apply (Hsize mat Hmat). rewrite <- Heq.
        by apply list_elem_of_fmap_2.
      - eexists. split; [reflexivity |]. intros Heq.
        destruct (Hproto mat Hmat). rewrite <- Heq. by apply list_elem_of_fmap_2. }
    eexists. unfold _convert_material. by rewrite (Exec_bind_Normal _ _ _ Hloop).
  - exists out. rewrite <- Hout, <- (import_silent nodes meshes textures wire).
    by destruct (convert_vrm _ wire).
Qed.

(** ** Spring bones, preset names *)

(** C10. In the import direction every document that the conversion
    produces has an empty [secondaryAnimation], whatever the wire document
    held there; the same holds of what [parse_vrm] computes for a glTF
    document that carries the extension, which is that document. The
    conversion does produce a document, and [parse_vrm] with it, whenever
    no texture property of the wire document is named [size] or
    [__proto__]. *)
Theorem C10_import_secondaryAnimation_empty (nodes : list three_object)
    (meshes : list (list three_object)) (textures : list three_object)
    (wire : Vrm.t Z Z Z) (version : js_value)
    (others : gmap string js_value) (doc : gltf_json) :
  let this := ref_to_real nodes meshes textures in
  let gltf :=
    {| json_buffers := json_buffers doc;
       extensionsUsed := extensionsUsed doc;
       extensions :=
         Some {| VRM := Some {| ext_vrm := wire; exporterVersion := version |};
                 other_extensions := others |};
       json_other := json_other doc |} in
  (∀ out, (convert_vrm this wire).1 = Normal out →
          Vrm.secondaryAnimation out = empty_object)
  ∧ (∀ out, (parse_vrm nodes meshes textures gltf).1 = Normal out →
            (convert_vrm this wire).1 = Normal out
            ∧ Vrm.secondaryAnimation out = empty_object)
  ∧ (no_texture_key "size" wire → no_texture_key "__proto__" wire →
     ∃ out, (convert_vrm this wire).1 = Normal out
            ∧ (parse_vrm nodes meshes textures gltf).1 = Normal out
            ∧ Vrm.secondaryAnimation out = empty_object).
Proof.
  intros this gltf.
  assert (Hempty : ∀ out, (convert_vrm this wire).1 = Normal out →
                          Vrm.secondaryAnimation out = empty_object).
  { intros out Hout.
    apply convert_vrm_Normal_inv in Hout as (? & ? & ? & ? & ? & _ & _ & _ & _ & _ & ->).
    reflexivity. }
  assert (Hparse : (parse_vrm nodes meshes textures gltf).1
                   = (convert_vrm this wire).1).
  { unfold parse_vrm, parse_vrm_resolved, gltf, this, mbind, Exec_bind. cbn.
    by destruct (convert_vrm (ref_to_real nodes meshes textures) wire).1. }
  split; [exact Hempty |]. split.
  - intros out Hout. rewrite Hparse in Hout. split; [done | by apply Hempty].
  - intros Hsize Hproto.
    destruct (import_returns nodes meshes textures wire Hsize Hproto) as [out Hout].
    exists out. rewrite Hparse. fold this in Hout. rewrite Hout.
    split; [done |]. split; [done |]. apply Hempty. by rewrite Hout.
Qed.

Lemma C10_import_secondaryAnimation_empty_witness :
  ∃ out,
    (convert_vrm (ref_to_real sample_nodes sample_meshes sample_textures)
       sample_wire_vrm).1 = Normal out
    ∧ Vrm.secondaryAnimation out = empty_object
    ∧ Vrm.secondaryAnimation sample_wire_vrm ≠ empty_object.
Proof.
  destruct (C10_import_secondaryAnimation_empty sample_nodes sample_meshes
              sample_textures sample_wire_vrm (JString "me/v") ∅ sample_json)
    as (_ & _ & Hreturns).
  destruct Hreturns as (out & Hout & _ & Hempty).
  - intros mat Hmat. cbn in Hmat. apply list_elem_of_singleton in Hmat as ->.
    cbn. intros Hin. apply list_elem_of_singleton in Hin. discriminate.
  - intros mat Hmat. cbn in Hmat. apply list_elem_of_singleton in Hmat as ->.
    cbn. intros Hin. apply list_elem_of_singleton in Hin. discriminate.
  - exists out. split; [exact Hout |]. split; [exact Hempty | discriminate].
Defined.

(** C6 (as amended). A conversion that returns emits every blendshape
    group with the [presetName] it had, in either direction and whatever
    the name is; so the groups named "unknown" stay so, as many as there
    are. *)
Theorem C6_presetName_passed_through {N M T N' M' T' : Type} `{!JsKind T'}
    (this : VrmExtensionMapper N M T N' M' T') (vrm : Vrm.t N M T)
    (out : Vrm.t N' M' T') :
  (convert_vrm this vrm).1 = Normal out →
  BlendShapeGroup.presetName
    <$> BlendShapeMaster.blendShapeGroups (Vrm.blendShapeMaster out)
  = BlendShapeGroup.presetName
    <$> BlendShapeMaster.blendShapeGroups (Vrm.blendShapeMaster vrm).
Proof.
  intros Hout.
  apply convert_vrm_Normal_inv in Hout
    as (groups & ? & ? & ? & ? & Hgroups & _ & _ & _ & _ & ->).
  cbn [Vrm.blendShapeMaster BlendShapeMaster.blendShapeGroups].
  apply Exec_mapM_Normal_inv in Hgroups.
  induction Hgroups as [| g g' l l' Hg _ IH]; [reflexivity |].
  apply _convert_blendshape_group_Normal_inv in Hg as (binds & _ & ->).
  cbn. by rewrite IH.
Qed.

Lemma C6_presetName_passed_through_witness :
  ∃ out,
    (convert_vrm (ref_to_id sample_obj) sample_vrm).1 = Normal out
    ∧ BlendShapeGroup.presetName
        <$> BlendShapeMaster.blendShapeGroups (Vrm.blendShapeMaster out)
      = [JString "joy"; JString "surprised"; JString "unknown"; JString "unknown"].
Proof.
  eexists. split; [reflexivity |].
  apply (C6_presetName_passed_through (ref_to_id sample_obj) sample_vrm).
  reflexivity.
Defined.

(** C6, counterexample to the claim as stated: the second group of the
    sample has the preset name "surprised", which is not in the vocabulary,
    and it is emitted as "surprised", not as "unknown". *)
Lemma C6_presetName_not_normalized :
  ("surprised" ∉ knownNames)
  ∧ (∃ out,
       (convert_vrm (ref_to_id sample_obj) sample_vrm).1 = Normal out
       ∧ BlendShapeGroup.presetName
           <$> BlendShapeMaster.blendShapeGroups (Vrm.blendShapeMaster out)
         = [JString "joy"; JString "surprised"; JString "unknown"; JString "unknown"])
  ∧ JString "surprised" ≠ JString "unknown".
Proof.
  split; [| split; [eexists; split; reflexivity | discriminate]].
  unfold knownNames. cbn [concat EMOTION_PRESET_GROUPING app].
  rewrite !not_elem_of_cons. repeat split; try discriminate.
  apply not_elem_of_nil.
Qed.

(** ** The "extensions used" declaration *)

Lemma set_add_all_prefix (l s : list string) :
  ∃ t, set_add_all s l = s ++ t.
Proof.
  revert s. induction l as [| x l IH]; intros s; cbn [set_add_all].
  - exists []. by rewrite app_nil_r.
  - case_bool_decide; [apply IH |].
    destruct (IH (s ++ [x])) as [t ->]. exists (x :: t). by rewrite <- app_assoc.
Qed.

Lemma set_add_all_NoDup (l s : list string) :
  NoDup s → NoDup (set_add_all s l).
Proof.
  revert s. induction l as [| x l IH]; intros s Hs; cbn [set_add_all]; [done |].
  apply IH. case_bool_decide as Hx; [done |].
  apply NoDup_app. split; [done |]. split.
  - intros y Hy ->%list_elem_of_singleton. contradiction.
  - apply NoDup_singleton.
Qed.

Lemma set_add_all_elem_of (l s : list string) (x : string) :
  x ∈ set_add_all s l ↔ x ∈ s ∨ x ∈ l.
Proof.
  revert s. induction l as [| y l IH]; intros s; cbn [set_add_all].
  - rewrite elem_of_nil. tauto.
  - rewrite IH, elem_of_cons. case_bool_decide as Hy.
    + split; [tauto |]. intros [? | [-> | ?]]; tauto.
    + rewrite elem_of_app, list_elem_of_singleton. tauto.
Qed.

Lemma set_add_all_fresh (l s : list string) :
  NoDup (s ++ l) → set_add_all s l = s ++ l.
Proof.
  revert s. induction l as [| x l IH]; intros s Hnd; cbn [set_add_all].
  - by rewrite app_nil_r.
  - apply NoDup_app in Hnd as (Hs & Hdisj & Hxl).
    rewrite bool_decide_eq_false_2.
    + rewrite IH; [by rewrite <- app_assoc |].
      rewrite <- app_assoc. cbn. apply NoDup_app. done.
    + intros Hx. apply (Hdisj x Hx). left.
Qed.

Lemma Array_from_Set_idempotent (x : string) (l : list string) :
  Array_from_Set (x :: Array_from_Set (x :: l)) = Array_from_Set (x :: l).
Proof.
  unfold Array_from_Set. cbn [set_add_all].
  rewrite bool_decide_eq_false_2 by apply not_elem_of_nil. cbn [app].
  pose proof (set_add_all_NoDup l [x] (NoDup_singleton x)) as Hnd.
  destruct (set_add_all_prefix l [x]) as [t Ht]. rewrite Ht in *.
  cbn [app set_add_all]. rewrite bool_decide_eq_true_2 by left.
  by apply (set_add_all_fresh t [x]).
Qed.

(** What [attach_vrm_extension] has done when it returns. *)
Lemma attach_vrm_extension_Normal_inv
    (vrm : Vrm.t three_object mesh_reference three_object)
    (obj once : gltf_and_buffers) (log : list console_entry) :
  attach_vrm_extension vrm obj = (once, (Normal tt, log)) →
  ∃ wire,
    (convert_vrm (ref_to_id obj) vrm).1 = Normal wire
    ∧ log = ConsoleEntry level_log "Attaching VRM" ArgObjects
            :: (convert_vrm (ref_to_id obj) vrm).2
    ∧ once
      = {| json :=
             {| json_buffers := json_buffers (json obj);
                extensionsUsed :=
                  Some (Array_from_Set ("VRM" :: default [] (extensionsUsed (json obj))));
                extensions :=
                  Some {| VRM := Some {| ext_vrm := wire;
                                        exporterVersion := JString "me/v" |};
                          other_extensions :=
                            other_extensions
                              (default (ExtensionsObject None ∅)
                                 (extensions (json obj))) |};
                json_other := json_other (json obj) |};
           buffers := buffers obj;
           nodeMap := nodeMap obj;
           skins := skins obj |}.
Proof.
  unfold attach_vrm_extension. cbv zeta.
  destruct (convert_vrm (ref_to_id obj) vrm).1 as [wire | msg |] eqn:Hwire;
    [| done | done].
  intros [= <- <-]. by exists wire.
Qed.

(** The resolvers of the exporter read the node map and the skins only. *)
Lemma ref_to_id_ext (obj obj' : gltf_and_buffers) :
  nodeMap obj' = nodeMap obj → skins obj' = skins obj → ref_to_id obj' = ref_to_id obj.
Proof. intros Hnodes Hskins. unfold ref_to_id. by rewrite Hnodes, Hskins. Qed.

(** C9. After [attach_vrm_extension] has returned, once or twice (with
    any document to attach, on any exporter result, whatever its
    "extensions used" list held), [json.extensionsUsed] is a list without
    duplicates that contains "VRM"; the second run leaves the list as the
    first made it. *)
Theorem C9_extensionsUsed_has_VRM_no_duplicates
    (vrm vrm' : Vrm.t three_object mesh_reference three_object)
    (obj once twice : gltf_and_buffers) (log log' : list console_entry) :
  attach_vrm_extension vrm obj = (once, (Normal tt, log)) →
  attach_vrm_extension vrm' once = (twice, (Normal tt, log')) →
  ∃ used,
    extensionsUsed (json once) = Some used
    ∧ "VRM" ∈ used ∧ NoDup used
    ∧ extensionsUsed (json twice) = Some used.
Proof.
  intros (wire & _ & _ & ->)%attach_vrm_extension_Normal_inv
         (wire' & _ & _ & ->)%attach_vrm_extension_Normal_inv.
  exists (Array_from_Set ("VRM" :: default [] (extensionsUsed (json obj)))).
  split; [reflexivity |]. split; [| split].
  - unfold Array_from_Set. apply set_add_all_elem_of. right. left.
  - unfold Array_from_Set. apply set_add_all_NoDup, NoDup_nil_2.
  - cbn [json extensionsUsed default]. f_equal. apply Array_from_Set_idempotent.
Qed.

Lemma C9_extensionsUsed_has_VRM_no_duplicates_witness :
  ∃ once twice log log',
    attach_vrm_extension sample_vrm sample_declared_obj = (once, (Normal tt, log))
    ∧ attach_vrm_extension sample_resolvable_vrm once = (twice, (Normal tt, log'))
    ∧ extensionsUsed (json once)
      = Some ["VRM"; "KHR_materials_unlit"; "KHR_texture_transform"]
    ∧ extensionsUsed (json twice)
      = Some ["VRM"; "KHR_materials_unlit"; "KHR_texture_transform"].
Proof.
  eexists _, _, _, _. split; [reflexivity |]. split; [reflexivity |].
  edestruct (C9_extensionsUsed_has_VRM_no_duplicates sample_vrm sample_resolvable_vrm
               sample_declared_obj)
    as (used & Honce & _ & _ & Htwice); [reflexivity | reflexivity |].
  rewrite Htwice, <- Honce. split; reflexivity.
Defined.

(** ** Resolution of references on export *)

(** C7. On export every mesh reference, in the binds of every blendshape
    group and in every first-person mesh annotation, is replaced by what
    [map_mesh] of [ref_to_id] returns for it; for a reference that is an
    array that index is the position of the first skin of the exporter
    that is identical to the first object of the reference
    ([e === mesh_ref[0]]), 0 when no skin is; it depends on the exporter
    result through its skin list only. *)
Theorem C7_mesh_references_resolved_against_skins (obj : gltf_and_buffers)
    (vrm : Vrm.t three_object mesh_reference three_object) :
  let skin_id := λ mesh_ref, normal_or 0 (map_mesh (ref_to_id obj) mesh_ref).1 in
  (∀ out, (convert_vrm (ref_to_id obj) vrm).1 = Normal out →
     BlendShapeMaster.blendShapeGroups (Vrm.blendShapeMaster out)
     = (λ g, {| BlendShapeGroup.name := BlendShapeGroup.name g;
                BlendShapeGroup.presetName := BlendShapeGroup.presetName g;
                BlendShapeGroup.binds :=
                  (λ b, {| BlendShapeBind.mesh := skin_id (BlendShapeBind.mesh b);
                           BlendShapeBind.index := BlendShapeBind.index b;
                           BlendShapeBind.weight := BlendShapeBind.weight b |})
                    <$> BlendShapeGroup.binds g;
                BlendShapeGroup.materialValues := BlendShapeGroup.materialValues g |})
         <$> BlendShapeMaster.blendShapeGroups (Vrm.blendShapeMaster vrm)
     ∧ FirstPerson.meshAnnotations (Vrm.firstPerson out)
       = (λ a, {| MeshAnnotation.mesh := skin_id (MeshAnnotation.mesh a);
                  MeshAnnotation.firstPersonFlag := MeshAnnotation.firstPersonFlag a |})
           <$> FirstPerson.meshAnnotations (Vrm.firstPerson vrm)
     ∧ (∀ m, m ∈ vrm_mesh_refs vrm →
          (map_mesh (ref_to_id obj) m).1 = Normal (skin_id m)))
  ∧ (∀ (mesh_ref : list three_object) (k : nat) (e : three_object),
        skins obj !! k = Some e →
        mesh_ref !! 0%nat = Some e →
        (∀ j : nat, (j < k)%nat → skins obj !! j ≠ Some e) →
        map_mesh (ref_to_id obj) (MeshArray mesh_ref) = (Normal (Z.of_nat k), []))
  ∧ (∀ mesh_ref : list three_object,
        mesh_unresolved obj (MeshArray mesh_ref) →
        map_mesh (ref_to_id obj) (MeshArray mesh_ref)
        = (Normal 0, [mesh_warning (MeshArray mesh_ref)]))
  ∧ (∀ (obj' : gltf_and_buffers) (mesh_ref : mesh_reference),
        skins obj' = skins obj →
        map_mesh (ref_to_id obj') mesh_ref = map_mesh (ref_to_id obj) mesh_ref).
Proof.
  intros skin_id. split; [| split; [| split]].
  - intros out Hout.
    assert (Hskin : ∀ m x, m ∈ vrm_mesh_refs vrm →
                      (map_mesh (ref_to_id obj) m).1 = Normal x → x = skin_id m).
    { intros m x _ Hx. unfold skin_id. by rewrite Hx. }
    destruct (convert_vrm_Normal_fields (ref_to_id obj)
                (λ r, default 0 (nodeMap obj !! r)) skin_id vrm out Hout)
      as (Hblend & _ & Hfirst & _); [| exact Hskin |].
    { intros r x _ Hx. rewrite map_node_Normal in Hx. by injection Hx as <-. }
    split; [by rewrite Hblend |]. split; [by rewrite Hfirst |].
    intros m Hm.
    destruct (convert_vrm_Normal_mesh (ref_to_id obj) vrm out m Hout Hm) as [[x Hx] _].
    rewrite Hx. f_equal. by apply Hskin.
  - intros mesh_ref k e Hk Hfirst Hmin.
    by apply (map_mesh_resolved obj (MeshArray mesh_ref) k e).
  - intros mesh_ref Hnone. apply map_mesh_unresolved; [done | by left].
  - intros obj' mesh_ref Hskins. cbn [map_mesh ref_to_id]. by rewrite Hskins.
Qed.

Lemma C7_mesh_references_resolved_against_skins_witness :
  map_mesh (ref_to_id sample_obj) (MeshArray [22%nat]) = (Normal 2, [])
  ∧ map_mesh (ref_to_id sample_obj) (MeshArray [99%nat])
    = (Normal 0, [mesh_warning (MeshArray [99%nat])])
  ∧ ∃ out,
      (convert_vrm (ref_to_id sample_obj) sample_vrm).1 = Normal out
      ∧ MeshAnnotation.mesh <$> FirstPerson.meshAnnotations (Vrm.firstPerson out) = [0].
Proof.
  destruct (C7_mesh_references_resolved_against_skins sample_obj sample_vrm)
    as (Hfields & Hfound & Hnone & _).
  split; [| split].
  - apply (Hfound [22%nat] 2%nat 22%nat); [reflexivity | reflexivity |].
    intros [| [| j]] Hj; [discriminate | discriminate | lia].
  - apply (Hnone [99%nat]). intros e He. vm_compute in He.
    repeat (apply elem_of_cons in He as [-> | He]; [discriminate |]).
    by apply elem_of_nil in He.
  - eexists. split; [reflexivity |].
    destruct (Hfields _ eq_refl) as (_ & -> & _). reflexivity.
Defined.

(** The export conversion returns exactly when no texture property is
    named [size] and either the exporter has no skin or no mesh reference
    is missing. *)
Lemma export_returns (obj : gltf_and_buffers)
    (vrm : Vrm.t three_object mesh_reference three_object) :
  (∃ out, (convert_vrm (ref_to_id obj) vrm).1 = Normal out)
  ↔ no_texture_key "size" vrm ∧ (skins obj = [] ∨ no_missing_mesh vrm).
Proof.
  split.
  - intros [out Hout]. split.
    + intros mat Hmat Hin. apply list_elem_of_fmap in Hin as (kt & Heq & Hkt).
      by destruct (convert_vrm_Normal_texture (ref_to_id obj) vrm out mat kt
                     Hout Hmat Hkt) as [Hsize _].
    + destruct (skins obj) as [| e l] eqn:Hskins; [by left |].
      right. intros null Hm.
      destruct (convert_vrm_Normal_mesh (ref_to_id obj) vrm out _ Hout Hm)
        as [[x Hx] _].
      rewrite map_mesh_nullish_throws in Hx by (by rewrite Hskins). done.
  - intros [Hsize Hnullish]. apply convert_vrm_returns.
    + intros r _. eexists. apply map_node_Normal.
    + intros m Hm.
      destruct (map_mesh_cases obj m)
        as [(k & e & _ & _ & ->) | [[_ ->] | (null & -> & Hne & _)]];
        [by eexists | by eexists |].
      destruct Hnullish as [Hskins | Hmissing]; [done | by destruct (Hmissing null)].
    + intros mat Hmat.
      destruct (_convert_material_loop_returns (ref_to_id obj)
                  (MaterialProperties.textureProperties mat) []) as [texProp Hloop].
      { intros kt Hkt. split.
        - intros Heq. apply (Hsize mat Hmat). rewrite <- Heq.
          by apply list_elem_of_fmap_2.
        - exists 0. split; reflexivity. }
      eexists. unfold _convert_material. by rewrite (Exec_bind_Normal _ _ _ Hloop).
Qed.

(** A material of the wire document: the texture properties other than
    [__proto__], in their order, all with the index 0. *)
Lemma export_material (obj : gltf_and_buffers) (mat : MaterialProperties.t three_object)
    (out : MaterialProperties.t Z) :
  (_convert_material (ref_to_id obj) mat).1 = Normal out →
  NoDup (MaterialProperties.textureProperties mat).*1 →
  out = {| MaterialProperties.name := MaterialProperties.name mat;
           MaterialProperties.shader := MaterialProperties.shader mat;
           MaterialProperties.renderQueue := MaterialProperties.renderQueue mat;
           MaterialProperties.floatProperties := MaterialProperties.floatProperties mat;
           MaterialProperties.vectorProperties := MaterialProperties.vectorProperties mat;
           MaterialProperties.textureProperties :=
             (λ kt : string * three_object, (kt.1, 0))
               <$> filter (λ kt : string * three_object, kt.1 ≠ "__proto__")
                     (MaterialProperties.textureProperties mat);
           MaterialProperties.keywordMap := MaterialProperties.keywordMap mat;
           MaterialProperties.tagMap := MaterialProperties.tagMap mat |}.
Proof.
  intros Hout Hnd. apply _convert_material_Normal_inv in Hout as (texProp & Hloop & ->).
  f_equal.
  rewrite (_convert_material_loop_Normal_value (ref_to_id obj) (λ _, 0) _ _ _ Hloop);
    [done | done |].
  intros kt v _ Hv. by injection Hv as <-.
Qed.

(** C5, at two failing inputs. [sample_nullish_vrm] has a first-person
    mesh annotation whose mesh reference is missing: no skin is found for
    it, and the resolver does not fall back but throws, at
    [mesh_ref[0]]. [sample_size_vrm] has a mesh reference that matches no
    skin and a bone whose node the exporter does not know; here the
    resolvers fall back to 0 and warn, but a texture property of the
    document is named [size], and the assignment to the [Map] throws. In
    both cases the conversion does not return, [attach_vrm_extension]
    throws after it has given [extensionsUsed] and [extensions] their
    defaults, with nothing attached, and the export throws. *)
Theorem C5_conversion_aborts_instead_of_falling_back :
  let missing := convert_vrm (ref_to_id sample_obj) sample_nullish_vrm in
  let size := convert_vrm (ref_to_id sample_obj) sample_size_vrm in
  let unattached :=
    {| json :=
         {| json_buffers := json_buffers sample_json;
            extensionsUsed := Some [];
            extensions := Some {| VRM := None; other_extensions := ∅ |};
            json_other := json_other sample_json |};
       buffers := buffers sample_obj;
       nodeMap := nodeMap sample_obj;
       skins := skins sample_obj |} in
  (MeshNullish false ∈ vrm_mesh_refs sample_nullish_vrm
   ∧ mesh_unresolved sample_obj (MeshNullish false)
   ∧ map_mesh (ref_to_id sample_obj) (MeshNullish false)
     = (Throws "Cannot read properties of undefined (reading '0')", [])
   ∧ missing.1 = Throws "Cannot read properties of undefined (reading '0')"
   ∧ (mesh_warning (MeshNullish false) ∉ missing.2)
   ∧ attach_vrm_extension sample_nullish_vrm sample_obj
     = (unattached,
        (Throws "Cannot read properties of undefined (reading '0')",
         ConsoleEntry level_log "Attaching VRM" ArgObjects :: missing.2))
   ∧ ∀ JSON_stringify_utf8,
       (serialize_vrm JSON_stringify_utf8 sample_nullish_vrm sample_obj).1
       = Throws "Cannot read properties of undefined (reading '0')")
  ∧ (MeshArray [99%nat] ∈ vrm_mesh_refs sample_size_vrm
     ∧ mesh_unresolved sample_obj (MeshArray [99%nat])
     ∧ map_mesh (ref_to_id sample_obj) (MeshArray [99%nat])
       = (Normal 0, [mesh_warning (MeshArray [99%nat])])
     ∧ size.1 = Throws "Cannot set property size of #<Map> which has only a getter"
     ∧ size.2
       = [ mesh_warning (MeshArray [99%nat]);
           node_warning 9%nat;
           ConsoleEntry level_log "map_texture" (ArgTexture 30%nat);
           ConsoleEntry level_log "map_texture" (ArgTexture 31%nat) ]
     ∧ attach_vrm_extension sample_size_vrm sample_obj
       = (unattached,
          (Throws "Cannot set property size of #<Map> which has only a getter",
           ConsoleEntry level_log "Attaching VRM" ArgObjects :: size.2))
     ∧ ∀ JSON_stringify_utf8,
         (serialize_vrm JSON_stringify_utf8 sample_size_vrm sample_obj).1
         = Throws "Cannot set property size of #<Map> which has only a getter").
Proof.
  intros missing size unattached.
  assert (Hmissing : missing
                     = (Throws "Cannot read properties of undefined (reading '0')",
                        [ mesh_warning (MeshArray [99%nat]); node_warning 9%nat ]))
    by reflexivity.
  split.
  - split; [cbn; right; right; left |].
    split; [intros e _; discriminate |]. split; [reflexivity |].
    split; [reflexivity |]. split.
    { rewrite Hmissing. cbn [snd]. rewrite !not_elem_of_cons.
      split; [discriminate |]. split; [discriminate |]. apply not_elem_of_nil. }
    split; [reflexivity |]. intros JSON_stringify_utf8. reflexivity.
  - split; [cbn; right; left |]. split.
    { intros e He. vm_compute in He.
      repeat (apply elem_of_cons in He as [-> | He]; [discriminate |]).
      by apply elem_of_nil in He. }
    split; [reflexivity |]. split; [reflexivity |]. split; [reflexivity |].
    split; [reflexivity |]. intros JSON_stringify_utf8. reflexivity.
Qed.

(** ** Export followed by import *)

(** The blendshape, humanoid and first-person blocks of the wire
    document, and what is left of the rest. *)
Lemma export_fields (obj : gltf_and_buffers)
    (vrm : Vrm.t three_object mesh_reference three_object) (wire : Vrm.t Z Z Z) :
  let node_id := λ node_ref, default 0 (nodeMap obj !! node_ref) in
  let skin_id := λ mesh_ref, normal_or 0 (map_mesh (ref_to_id obj) mesh_ref).1 in
  (convert_vrm (ref_to_id obj) vrm).1 = Normal wire →
  Vrm.blendShapeMaster wire
  = {| BlendShapeMaster.blendShapeGroups :=
         (λ g, {| BlendShapeGroup.name := BlendShapeGroup.name g;
                  BlendShapeGroup.presetName := BlendShapeGroup.presetName g;
                  BlendShapeGroup.binds :=
                    (λ b, {| BlendShapeBind.mesh := skin_id (BlendShapeBind.mesh b);
                             BlendShapeBind.index := BlendShapeBind.index b;
                             BlendShapeBind.weight := BlendShapeBind.weight b |})
                      <$> BlendShapeGroup.binds g;
                  BlendShapeGroup.materialValues := BlendShapeGroup.materialValues g |})
           <$> BlendShapeMaster.blendShapeGroups (Vrm.blendShapeMaster vrm) |}
  ∧ Vrm.humanoid wire
    = {| Humanoid.humanBones :=
           (λ b, {| HumanoidBone.bone := HumanoidBone.bone b;
                    HumanoidBone.node := node_id (HumanoidBone.node b);
                    HumanoidBone.useDefaultValues := HumanoidBone.useDefaultValues b;
                    HumanoidBone.min := HumanoidBone.min b;
                    HumanoidBone.max := HumanoidBone.max b;
                    HumanoidBone.center := HumanoidBone.center b;
                    HumanoidBone.axisLength := HumanoidBone.axisLength b |})
             <$> Humanoid.humanBones (Vrm.humanoid vrm);
         Humanoid.armStretch := Humanoid.armStretch (Vrm.humanoid vrm);
         Humanoid.legStretch := Humanoid.legStretch (Vrm.humanoid vrm);
         Humanoid.upperArmTwist := Humanoid.upperArmTwist (Vrm.humanoid vrm);
         Humanoid.lowerArmTwist := Humanoid.lowerArmTwist (Vrm.humanoid vrm);
         Humanoid.upperLegTwist := Humanoid.upperLegTwist (Vrm.humanoid vrm);
         Humanoid.lowerLegTwist := Humanoid.lowerLegTwist (Vrm.humanoid vrm);
         Humanoid.feetSpacing := Humanoid.feetSpacing (Vrm.humanoid vrm);
         Humanoid.hasTranslationDoF := Humanoid.hasTranslationDoF (Vrm.humanoid vrm) |}
  ∧ Vrm.firstPerson wire
    = {| FirstPerson.firstPersonBone :=
           node_id (FirstPerson.firstPersonBone (Vrm.firstPerson vrm));
         FirstPerson.firstPersonBoneOffset :=
           FirstPerson.firstPersonBoneOffset (Vrm.firstPerson vrm);
         FirstPerson.meshAnnotations :=
           (λ a, {| MeshAnnotation.mesh := skin_id (MeshAnnotation.mesh a);
                    MeshAnnotation.firstPersonFlag := MeshAnnotation.firstPersonFlag a |})
             <$> FirstPerson.meshAnnotations (Vrm.firstPerson vrm);
         FirstPerson.lookAtTypeName := FirstPerson.lookAtTypeName (Vrm.firstPerson vrm);
         FirstPerson.lookAtHorizontalInner :=
           FirstPerson.lookAtHorizontalInner (Vrm.firstPerson vrm);
         FirstPerson.lookAtHorizontalOuter := JUndefined;
         FirstPerson.lookAtVerticalDown :=
           FirstPerson.lookAtVerticalDown (Vrm.firstPerson vrm);
         FirstPerson.lookAtVerticalUp :=
           FirstPerson.lookAtVerticalUp (Vrm.firstPerson vrm) |}
  ∧ Forall2 (λ mat mat', (_convert_material (ref_to_id obj) mat).1 = Normal mat')
      (Vrm.materialProperties vrm) (Vrm.materialProperties wire)
  ∧ Vrm.meta wire = Vrm.meta vrm
  ∧ Vrm.secondaryAnimation wire = empty_object.
Proof.
  intros node_id skin_id Hwire.
  apply (convert_vrm_Normal_fields (ref_to_id obj) node_id skin_id vrm wire Hwire).
  - intros r x _ Hx. rewrite map_node_Normal in Hx. by injection Hx as <-.
  - intros m x _ Hx. unfold skin_id. by rewrite Hx.
Qed.

(** The same for the import direction. *)
Lemma import_fields (nodes : list three_object) (meshes : list (list three_object))
    (textures : list three_object) (wire : Vrm.t Z Z Z)
    (back : Vrm.t (option three_object) (option (list three_object))
              (option three_object)) :
  (convert_vrm (ref_to_real nodes meshes textures) wire).1 = Normal back →
  Vrm.blendShapeMaster back
  = {| BlendShapeMaster.blendShapeGroups :=
         (λ g, {| BlendShapeGroup.name := BlendShapeGroup.name g;
                  BlendShapeGroup.presetName := BlendShapeGroup.presetName g;
                  BlendShapeGroup.binds :=
                    (λ b, {| BlendShapeBind.mesh :=
                               array_get meshes (BlendShapeBind.mesh b);
                             BlendShapeBind.index := BlendShapeBind.index b;
                             BlendShapeBind.weight := BlendShapeBind.weight b |})
                      <$> BlendShapeGroup.binds g;
                  BlendShapeGroup.materialValues := BlendShapeGroup.materialValues g |})
           <$> BlendShapeMaster.blendShapeGroups (Vrm.blendShapeMaster wire) |}
  ∧ Vrm.humanoid back
    = {| Humanoid.humanBones :=
           (λ b, {| HumanoidBone.bone := HumanoidBone.bone b;
                    HumanoidBone.node := array_get nodes (HumanoidBone.node b);
                    HumanoidBone.useDefaultValues := HumanoidBone.useDefaultValues b;
                    HumanoidBone.min := HumanoidBone.min b;
                    HumanoidBone.max := HumanoidBone.max b;
                    HumanoidBone.center := HumanoidBone.center b;
                    HumanoidBone.axisLength := HumanoidBone.axisLength b |})
             <$> Humanoid.humanBones (Vrm.humanoid wire);
         Humanoid.armStretch := Humanoid.armStretch (Vrm.humanoid wire);
         Humanoid.legStretch := Humanoid.legStretch (Vrm.humanoid wire);
         Humanoid.upperArmTwist := Humanoid.upperArmTwist (Vrm.humanoid wire);
         Humanoid.lowerArmTwist := Humanoid.lowerArmTwist (Vrm.humanoid wire);
         Humanoid.upperLegTwist := Humanoid.upperLegTwist (Vrm.humanoid wire);
         Humanoid.lowerLegTwist := Humanoid.lowerLegTwist (Vrm.humanoid wire);
         Humanoid.feetSpacing := Humanoid.feetSpacing (Vrm.humanoid wire);
         Humanoid.hasTranslationDoF := Humanoid.hasTranslationDoF (Vrm.humanoid wire) |}
  ∧ Vrm.firstPerson back
    = {| FirstPerson.firstPersonBone :=
           array_get nodes (FirstPerson.firstPersonBone (Vrm.firstPerson wire));
         FirstPerson.firstPersonBoneOffset :=
           FirstPerson.firstPersonBoneOffset (Vrm.firstPerson wire);
         FirstPerson.meshAnnotations :=
           (λ a, {| MeshAnnotation.mesh := array_get meshes (MeshAnnotation.mesh a);
                    MeshAnnotation.firstPersonFlag := MeshAnnotation.firstPersonFlag a |})
             <$> FirstPerson.meshAnnotations (Vrm.firstPerson wire);
         FirstPerson.lookAtTypeName := FirstPerson.lookAtTypeName (Vrm.firstPerson wire);
         FirstPerson.lookAtHorizontalInner :=
           FirstPerson.lookAtHorizontalInner (Vrm.firstPerson wire);
         FirstPerson.lookAtHorizontalOuter := JUndefined;
         FirstPerson.lookAtVerticalDown :=
           FirstPerson.lookAtVerticalDown (Vrm.firstPerson wire);
         FirstPerson.lookAtVerticalUp :=
           FirstPerson.lookAtVerticalUp (Vrm.firstPerson wire) |}
  ∧ Forall2 (λ mat mat',
               (_convert_material (ref_to_real nodes meshes textures) mat).1
               = Normal mat')
      (Vrm.materialProperties wire) (Vrm.materialProperties back)
  ∧ Vrm.meta back = Vrm.meta wire
  ∧ Vrm.secondaryAnimation back = empty_object.
Proof.
  intros Hback.
  apply (convert_vrm_Normal_fields (ref_to_real nodes meshes textures)
           (array_get nodes) (array_get meshes) wire back Hback).
  - intros r x _ Hx. by injection Hx as <-.
  - intros m x _ Hx. by injection Hx as <-.
Qed.

(** A material of the imported document: the texture properties other
    than [__proto__], in their order, each with the texture of its
    index. *)
Lemma import_material (nodes : list three_object) (meshes : list (list three_object))
    (textures : list three_object) (mat : MaterialProperties.t Z)
    (out : MaterialProperties.t (option three_object)) :
  (_convert_material (ref_to_real nodes meshes textures) mat).1 = Normal out →
  NoDup (MaterialProperties.textureProperties mat).*1 →
  out = {| MaterialProperties.name := MaterialProperties.name mat;
           MaterialProperties.shader := MaterialProperties.shader mat;
           MaterialProperties.renderQueue := MaterialProperties.renderQueue mat;
           MaterialProperties.floatProperties := MaterialProperties.floatProperties mat;
           MaterialProperties.vectorProperties := MaterialProperties.vectorProperties mat;
           MaterialProperties.textureProperties :=
             (λ kt : string * Z, (kt.1, array_get textures kt.2))
               <$> filter (λ kt : string * Z, kt.1 ≠ "__proto__")
                     (MaterialProperties.textureProperties mat);
           MaterialProperties.keywordMap := MaterialProperties.keywordMap mat;
           MaterialProperties.tagMap := MaterialProperties.tagMap mat |}.
Proof.
  intros Hout Hnd. apply _convert_material_Normal_inv in Hout as (texProp & Hloop & ->).
  f_equal.
  rewrite (_convert_material_loop_Normal_value (ref_to_real nodes meshes textures)
             (array_get textures) _ _ _ Hloop); [done | done |].
  intros kt v _ Hv. by injection Hv as <-.
Qed.

Lemma filter_no_proto {A : Type} (props : list (string * A)) :
  "__proto__" ∉ props.*1 →
  filter (λ kt : string * A, kt.1 ≠ "__proto__") props = props.
Proof.
  induction props as [| [k v] props IH]; [done |].
  rewrite fmap_cons. intros [Hk Hprops]%not_elem_of_cons.
  rewrite filter_cons_True by (cbn in *; congruence). by rewrite IH.
Qed.

(** The materials of a wire document whose texture properties have
    distinct names, none of them [__proto__]. *)
Lemma export_materials (obj : gltf_and_buffers)
    (vrm : Vrm.t three_object mesh_reference three_object) (wire : Vrm.t Z Z Z) :
  (convert_vrm (ref_to_id obj) vrm).1 = Normal wire →
  texture_keys_distinct vrm →
  Vrm.materialProperties wire
  = (λ mat,
       {| MaterialProperties.name := MaterialProperties.name mat;
          MaterialProperties.shader := MaterialProperties.shader mat;
          MaterialProperties.renderQueue := MaterialProperties.renderQueue mat;
          MaterialProperties.floatProperties := MaterialProperties.floatProperties mat;
          MaterialProperties.vectorProperties := MaterialProperties.vectorProperties mat;
          MaterialProperties.textureProperties :=
            (λ kt : string * three_object, (kt.1, 0))
              <$> filter (λ kt : string * three_object, kt.1 ≠ "__proto__")
                    (MaterialProperties.textureProperties mat);
          MaterialProperties.keywordMap := MaterialProperties.keywordMap mat;
          MaterialProperties.tagMap := MaterialProperties.tagMap mat |})
      <$> Vrm.materialProperties vrm.
Proof.
  intros Hwire Hkeys.
  destruct (export_fields obj vrm wire Hwire) as (_ & _ & _ & Hmats & _).
  apply (Forall2_fmap_eq _ _ _ _ Hmats).
  intros mat mat' Hmat Hconv. apply (export_material obj); [done | by apply Hkeys].
Qed.

(** Export followed by import, when the importer's arrays give back the
    references that the exporter's indices stand for and no texture
    property is named [size] or [__proto__]: both conversions return, and
    the result is the image of the document (see [roundtrip_image]). *)
Lemma roundtrip_reads_back (obj : gltf_and_buffers) (nodes : list three_object)
    (meshes : list (list three_object)) (textures : list three_object)
    (vrm : Vrm.t three_object mesh_reference three_object) :
  reads_back obj nodes meshes vrm →
  texture_keys_distinct vrm →
  no_texture_key "size" vrm → no_texture_key "__proto__" vrm →
  ∃ wire back,
    (convert_vrm (ref_to_id obj) vrm).1 = Normal wire
    ∧ convert_vrm (ref_to_real nodes meshes textures) wire = (Normal back, [])
    ∧ Vrm.blendShapeMaster back
      = {| BlendShapeMaster.blendShapeGroups :=
             (λ g, {| BlendShapeGroup.name := BlendShapeGroup.name g;
                      BlendShapeGroup.presetName := BlendShapeGroup.presetName g;
                      BlendShapeGroup.binds :=
                        (λ b, {| BlendShapeBind.mesh :=
                                   mesh_elements (BlendShapeBind.mesh b);
                                 BlendShapeBind.index := BlendShapeBind.index b;
                                 BlendShapeBind.weight := BlendShapeBind.weight b |})
                          <$> BlendShapeGroup.binds g;
                      BlendShapeGroup.materialValues :=
                        BlendShapeGroup.materialValues g |})
               <$> BlendShapeMaster.blendShapeGroups (Vrm.blendShapeMaster vrm) |}
    ∧ Vrm.humanoid back
      = {| Humanoid.humanBones :=
             (λ b, {| HumanoidBone.bone := HumanoidBone.bone b;
                      HumanoidBone.node := Some (HumanoidBone.node b);
                      HumanoidBone.useDefaultValues := HumanoidBone.useDefaultValues b;
                      HumanoidBone.min := HumanoidBone.min b;
                      HumanoidBone.max := HumanoidBone.max b;
                      HumanoidBone.center := HumanoidBone.center b;
                      HumanoidBone.axisLength := HumanoidBone.axisLength b |})
               <$> Humanoid.humanBones (Vrm.humanoid vrm);
           Humanoid.armStretch := Humanoid.armStretch (Vrm.humanoid vrm);
           Humanoid.legStretch := Humanoid.legStretch (Vrm.humanoid vrm);
           Humanoid.upperArmTwist := Humanoid.upperArmTwist (Vrm.humanoid vrm);
           Humanoid.lowerArmTwist := Humanoid.lowerArmTwist (Vrm.humanoid vrm);
           Humanoid.upperLegTwist := Humanoid.upperLegTwist (Vrm.humanoid vrm);
           Humanoid.lowerLegTwist := Humanoid.lowerLegTwist (Vrm.humanoid vrm);
           Humanoid.feetSpacing := Humanoid.feetSpacing (Vrm.humanoid vrm);
           Humanoid.hasTranslationDoF :=
             Humanoid.hasTranslationDoF (Vrm.humanoid vrm) |}
    ∧ Vrm.firstPerson back
      = {| FirstPerson.firstPersonBone :=
             Some (FirstPerson.firstPersonBone (Vrm.firstPerson vrm));
           FirstPerson.firstPersonBoneOffset :=
             FirstPerson.firstPersonBoneOffset (Vrm.firstPerson vrm);
           FirstPerson.meshAnnotations :=
             (λ a, {| MeshAnnotation.mesh := mesh_elements (MeshAnnotation.mesh a);
                      MeshAnnotation.firstPersonFlag :=
                        MeshAnnotation.firstPersonFlag a |})
               <$> FirstPerson.meshAnnotations (Vrm.firstPerson vrm);
           FirstPerson.lookAtTypeName :=
             FirstPerson.lookAtTypeName (Vrm.firstPerson vrm);
           FirstPerson.lookAtHorizontalInner :=
             FirstPerson.lookAtHorizontalInner (Vrm.firstPerson vrm);
           FirstPerson.lookAtHorizontalOuter := JUndefined;
           FirstPerson.lookAtVerticalDown :=
             FirstPerson.lookAtVerticalDown (Vrm.firstPerson vrm);
           FirstPerson.lookAtVerticalUp :=
             FirstPerson.lookAtVerticalUp (Vrm.firstPerson vrm) |}
    ∧ Vrm.materialProperties back
      = (λ mat,
           {| MaterialProperties.name := MaterialProperties.name mat;
              MaterialProperties.shader := MaterialProperties.shader mat;
              MaterialProperties.renderQueue := MaterialProperties.renderQueue mat;
              MaterialProperties.floatProperties :=
                MaterialProperties.floatProperties mat;
              MaterialProperties.vectorProperties :=
                MaterialProperties.vectorProperties mat;
              MaterialProperties.textureProperties :=
                (λ kt : string * three_object, (kt.1, array_get textures 0))
                  <$> MaterialProperties.textureProperties mat;
              MaterialProperties.keywordMap := MaterialProperties.keywordMap mat;
              MaterialProperties.tagMap := MaterialProperties.tagMap mat |})
          <$> Vrm.materialProperties vrm
    ∧ Vrm.meta back = Vrm.meta vrm
    ∧ Vrm.secondaryAnimation back = empty_object.
Proof.
  intros [Hnodes Hmeshes] Hkeys Hsize Hproto.
  destruct (proj2 (export_returns obj vrm)) as [wire Hwire].
  { split; [done |]. right. intros null Hm.
    destruct (Hmeshes _ Hm) as (? & ? & _ & ? & _). done. }
  pose proof (export_materials obj vrm wire Hwire Hkeys) as Hmats.
  assert (Hmats' :
    Vrm.materialProperties wire
    = (λ mat,
         {| MaterialProperties.name := MaterialProperties.name mat;
            MaterialProperties.shader := MaterialProperties.shader mat;
            MaterialProperties.renderQueue := MaterialProperties.renderQueue mat;
            MaterialProperties.floatProperties := MaterialProperties.floatProperties mat;
            MaterialProperties.vectorProperties :=
              MaterialProperties.vectorProperties mat;
            MaterialProperties.textureProperties :=
              (λ kt : string * three_object, (kt.1, 0))
                <$> MaterialProperties.textureProperties mat;
            MaterialProperties.keywordMap := MaterialProperties.keywordMap mat;
            MaterialProperties.tagMap := MaterialProperties.tagMap mat |})
        <$> Vrm.materialProperties vrm).
  { rewrite Hmats. apply list_fmap_ext. intros i mat Hi.
    rewrite filter_no_proto; [done |]. apply Hproto. by eapply list_elem_of_lookup_2. }
  clear Hmats.
  assert (Hwire_keys : ∀ mat', mat' ∈ Vrm.materialProperties wire →
            ∃ mat, mat ∈ Vrm.materialProperties vrm
                   ∧ (MaterialProperties.textureProperties mat').*1
                     = (MaterialProperties.textureProperties mat).*1).
  { intros mat'. rewrite Hmats'. intros (mat & -> & Hmat)%list_elem_of_fmap.
    exists mat. split; [done |]. cbn [MaterialProperties.textureProperties].
    rewrite <- list_fmap_compose. by apply list_fmap_ext. }
  destruct (import_returns nodes meshes textures wire) as [back Hback].
  { intros mat' Hmat'. destruct (Hwire_keys mat' Hmat') as (mat & Hmat & ->).
    by apply Hsize. }
  { intros mat' Hmat'. destruct (Hwire_keys mat' Hmat') as (mat & Hmat & ->).
    by apply Hproto. }
  exists wire, back. split; [done |]. split; [done |].
  assert (Hback1 : (convert_vrm (ref_to_real nodes meshes textures) wire).1 = Normal back)
    by (by rewrite Hback).
  destruct (export_fields obj vrm wire Hwire) as (Hwb & Hwh & Hwf & _ & Hwm & _).
  destruct (import_fields nodes meshes textures wire back Hback1)
    as (Hbb & Hbh & Hbf & Hbmats & Hbm & Hbs).
  assert (Hnode : ∀ r, r ∈ vrm_node_refs vrm →
                    array_get nodes (default 0 (nodeMap obj !! r)) = Some r).
  { intros r Hr. destruct (Hnodes r Hr) as (node_id & Hid & Hget).
    rewrite map_node_Normal in Hid. by injection Hid as ->. }
  assert (Hmesh : ∀ m, m ∈ vrm_mesh_refs vrm →
                    array_get meshes (normal_or 0 (map_mesh (ref_to_id obj) m).1)
                    = mesh_elements m).
  { intros m Hm. destruct (Hmeshes m Hm) as (skin_id & elements & Hid & -> & Hget).
    by rewrite Hid. }
  split; [| split; [| split; [| split; [| split]]]].
  - rewrite Hbb, Hwb. cbn [BlendShapeMaster.blendShapeGroups]. f_equal.
    rewrite <- list_fmap_compose. apply list_fmap_ext. intros i g Hi. unfold compose.
    cbn [BlendShapeGroup.name BlendShapeGroup.presetName BlendShapeGroup.binds
         BlendShapeGroup.materialValues].
    f_equal. rewrite <- list_fmap_compose. apply list_fmap_ext. intros j b Hj.
    unfold compose. cbn [BlendShapeBind.mesh BlendShapeBind.index BlendShapeBind.weight].
    f_equal. apply Hmesh. apply elem_of_vrm_mesh_refs. left. exists g, b.
    split; [by eapply list_elem_of_lookup_2 |].
    split; [by eapply list_elem_of_lookup_2 | done].
  - rewrite Hbh, Hwh.
    cbn [Humanoid.humanBones Humanoid.armStretch Humanoid.legStretch
         Humanoid.upperArmTwist Humanoid.lowerArmTwist Humanoid.upperLegTwist
         Humanoid.lowerLegTwist Humanoid.feetSpacing Humanoid.hasTranslationDoF].
    f_equal. rewrite <- list_fmap_compose. apply list_fmap_ext. intros i b Hi.
    unfold compose.
    cbn [HumanoidBone.bone HumanoidBone.node HumanoidBone.useDefaultValues
         HumanoidBone.min HumanoidBone.max HumanoidBone.center HumanoidBone.axisLength].
    f_equal. apply Hnode. apply elem_of_vrm_node_refs. right. exists b.
    split; [by eapply list_elem_of_lookup_2 | done].
  - rewrite Hbf, Hwf.
    cbn [FirstPerson.firstPersonBone FirstPerson.firstPersonBoneOffset
         FirstPerson.meshAnnotations FirstPerson.lookAtTypeName
         FirstPerson.lookAtHorizontalInner FirstPerson.lookAtVerticalDown
         FirstPerson.lookAtVerticalUp].
    f_equal.
    + apply Hnode. apply elem_of_vrm_node_refs. by left.
    + rewrite <- list_fmap_compose. apply list_fmap_ext. intros i a Hi.
      unfold compose. cbn [MeshAnnotation.mesh MeshAnnotation.firstPersonFlag].
      f_equal. apply Hmesh. apply elem_of_vrm_mesh_refs. right. exists a.
      split; [by eapply list_elem_of_lookup_2 | done].
  - rewrite Hmats' in Hbmats.
    apply Forall2_fmap_l in Hbmats.
    apply (Forall2_fmap_eq _ _ _ _ Hbmats).
    intros mat mat' Hmat Hconv.
    apply import_material in Hconv.
    + rewrite Hconv.
      cbn [MaterialProperties.name MaterialProperties.shader
           MaterialProperties.renderQueue MaterialProperties.floatProperties
           MaterialProperties.vectorProperties MaterialProperties.textureProperties
           MaterialProperties.keywordMap MaterialProperties.tagMap].
      f_equal. rewrite filter_no_proto.
      * rewrite <- list_fmap_compose. by apply list_fmap_ext.
      * rewrite <- list_fmap_compose.
        erewrite list_fmap_ext; [by apply Hproto | done].
    + cbn [MaterialProperties.textureProperties]. rewrite <- list_fmap_compose.
      erewrite list_fmap_ext; [by apply Hkeys | done].
  - by rewrite Hbm, Hwm.
  - exact Hbs.
Qed.

(** C1, at a failing input. [sample_resolvable_vrm] has all its references
    resolved by the sample exporter (the console shows no warning) and read
    back by the sample importer, and its first-person block has
    [lookAtHorizontalOuter] equal to 12. Both conversions return. The wire
    document has that field undefined, and so has the document that comes
    back; every other field outside the known losses comes back as it
    was. *)
Theorem C1_roundtrip_drops_lookAtHorizontalOuter :
  let D := sample_resolvable_vrm in
  ∃ wire back,
    convert_vrm (ref_to_id sample_obj) D
    = (Normal wire, [ConsoleEntry level_log "map_texture" (ArgTexture 30%nat)])
    ∧ convert_vrm (ref_to_real sample_nodes sample_meshes sample_textures) wire
      = (Normal back, [])
    ∧ resolvable sample_obj D
    ∧ reads_back sample_obj sample_nodes sample_meshes D
    ∧ FirstPerson.lookAtHorizontalOuter (Vrm.firstPerson D) = JNumber 12
    ∧ FirstPerson.lookAtHorizontalOuter (Vrm.firstPerson wire) = JUndefined
    ∧ FirstPerson.lookAtHorizontalOuter (Vrm.firstPerson back) = JUndefined
    ∧ FirstPerson.lookAtHorizontalOuter (Vrm.firstPerson back)
      ≠ FirstPerson.lookAtHorizontalOuter (Vrm.firstPerson D)
    ∧ FirstPerson.lookAtHorizontalInner (Vrm.firstPerson back)
      = FirstPerson.lookAtHorizontalInner (Vrm.firstPerson D)
    ∧ roundtrip_image sample_textures D = Normal back.
Proof.
  intros D. eexists _, _.
  split; [reflexivity |]. split; [reflexivity |].
  split; [| split].
  - split.
    + intros r Hr. cbn in Hr.
      repeat (apply elem_of_cons in Hr as [-> | Hr]; [by eexists |]).
      by apply elem_of_nil in Hr.
    + intros m Hm. cbn in Hm.
      apply elem_of_cons in Hm as [-> | Hm].
      { intros Hun. apply (Hun 22%nat); [| reflexivity]. right. right. left. }
      apply elem_of_cons in Hm as [-> | Hm].
      { intros Hun. apply (Hun 20%nat); [| reflexivity]. left. }
      by apply elem_of_nil in Hm.
  - split.
    + intros r Hr. cbn in Hr.
      repeat (apply elem_of_cons in Hr as [-> | Hr]; [by eexists |]).
      by apply elem_of_nil in Hr.
    + intros m Hm. cbn in Hm.
      repeat (apply elem_of_cons in Hm as [-> | Hm]; [by eexists _, _ |]).
      by apply elem_of_nil in Hm.
  - split; [reflexivity |]. split; [reflexivity |]. split; [reflexivity |].
    split; [discriminate |]. split; reflexivity.
Qed.

(** * Further properties of the container writer *)

Lemma getUint32_app_length (pre rest : list Z) :
  getUint32 (length pre) (pre ++ rest) = getUint32 0 rest.
Proof. unfold getUint32. by rewrite drop_app_length, drop_0. Qed.

Lemma slice_app_length (pre rest : list Z) (len : nat) :
  slice (length pre) len (pre ++ rest) = take len rest.
Proof. unfold slice. by rewrite drop_app_length. Qed.

Lemma getPaddedArrayBuffer_aligned (arrayBuffer : list Z) (paddingByte : option Z) :
  byteLength arrayBuffer mod 4 = 0 →
  getPaddedArrayBuffer arrayBuffer paddingByte = arrayBuffer.
Proof.
  intros Hal. rewrite getPaddedArrayBuffer_app.
  assert (padding_count arrayBuffer = 0%nat) as ->; [| by rewrite app_nil_r].
  unfold padding_count.
  pose proof (getPaddedBufferSize_bounds (byteLength arrayBuffer)) as [[Hle Hlt] Hmod].
  apply Z.mod_divide in Hmod; [| lia]. destruct Hmod as [q Hq].
  apply Z.mod_divide in Hal; [| lia]. destruct Hal as [q' Hq'].
  lia.
Qed.

Section ContainerMore.
Variable JSON_stringify_utf8 : gltf_json → list Z.

(** X1. Reading a produced container back. After the 12 byte header come
    the padded length of the JSON chunk and the type "JSON", the document
    text, the padded length of the binary chunk and the type "BIN" with a
    zero byte, and the binary payload; the [byteLength] recorded in the
    first buffer entry of the document, counted from the start of the
    binary payload, delimits exactly the merged input buffers. The
    container is assumed shorter than 2^32 bytes. *)
Theorem X1_container_reads_back (obj : gltf_and_buffers) (glb : list Z)
    (outputJSON : gltf_json)
    (Hret : serialize_glb JSON_stringify_utf8 obj = Returned (glb, outputJSON))
    (Hfit : byteLength glb < 2 ^ 32) :
  let text := JSON_stringify_utf8 outputJSON in
  let jl := Z.to_nat (getPaddedBufferSize (byteLength text)) in
  getUint32 12 glb = getPaddedBufferSize (byteLength text)
  ∧ slice 16 4 glb = [0x4A; 0x53; 0x4F; 0x4E]
  ∧ take (length text) (slice 20 jl glb) = text
  ∧ getUint32 (20 + jl) glb = getPaddedBufferSize (byteLength (concat (buffers obj)))
  ∧ slice (24 + jl) 4 glb = [0x42; 0x49; 0x4E; 0x00]
  ∧ ∃ b0 bs,
      json_buffers outputJSON = Some (b0 :: bs)
      ∧ slice (28 + jl) (Z.to_nat (Buffer.byteLength b0)) glb = concat (buffers obj).
Proof.
  intros text jl.
  apply serialize_glb_Returned in Hret as [Hset ->].
  revert Hfit. rewrite glb_bytes_layout. cbv zeta. fold text.
  set (jsonChunk := getPaddedArrayBuffer text (Some 32)).
  set (binaryChunk := getPaddedArrayBuffer (concat (buffers obj)) None).
  set (total := 12 + 8 + byteLength jsonChunk + 8 + byteLength binaryChunk).
  assert (Hjl : length jsonChunk = jl).
  { unfold jl. rewrite <- (getPaddedArrayBuffer_byteLength text (Some 32)).
    unfold byteLength. fold jsonChunk. lia. }
  intros Hfit.
  assert (Hlen : byteLength
                   (le32 GLB_HEADER_MAGIC ++ le32 GLB_VERSION ++ le32 total
                    ++ le32 (byteLength jsonChunk) ++ le32 GLB_CHUNK_TYPE_JSON
                    ++ jsonChunk ++ le32 (byteLength binaryChunk)
                    ++ le32 GLB_CHUNK_TYPE_BIN ++ binaryChunk)
                 = total).
  { unfold byteLength. rewrite !length_app. cbn [le32 length].
    unfold total, byteLength. lia. }
  rewrite Hlen in Hfit.
  assert (Hj32 : byteLength jsonChunk mod 2 ^ 32 = byteLength jsonChunk)
    by (apply Z.mod_small; unfold total, byteLength in *; lia).
  assert (Hb32 : byteLength binaryChunk mod 2 ^ 32 = byteLength binaryChunk)
    by (apply Z.mod_small; unfold total, byteLength in *; lia).
  (* the 20 bytes before the JSON payload, then the payload, then the rest *)
  set (rest := le32 (byteLength binaryChunk) ++ le32 GLB_CHUNK_TYPE_BIN ++ binaryChunk).
  assert (Hsplit :
    le32 GLB_HEADER_MAGIC ++ le32 GLB_VERSION ++ le32 total
    ++ le32 (byteLength jsonChunk) ++ le32 GLB_CHUNK_TYPE_JSON ++ jsonChunk ++ rest
    = ((le32 GLB_HEADER_MAGIC ++ le32 GLB_VERSION ++ le32 total
        ++ le32 (byteLength jsonChunk) ++ le32 GLB_CHUNK_TYPE_JSON) ++ jsonChunk)
      ++ rest) by (by rewrite <- !app_assoc).
  assert (Hprefix :
    length ((le32 GLB_HEADER_MAGIC ++ le32 GLB_VERSION ++ le32 total
             ++ le32 (byteLength jsonChunk) ++ le32 GLB_CHUNK_TYPE_JSON) ++ jsonChunk)
    = (20 + jl)%nat) by (rewrite length_app, Hjl; reflexivity).
  split.
  { change (getUint32 12 ?l) with (getUint32 0 (drop 12 l)).
    unfold le32 at 1 2 3. cbn [drop app]. rewrite drop_0, getUint32_le32.
    rewrite Hj32. apply getPaddedArrayBuffer_byteLength. }
  split; [reflexivity |].
  split.
  { unfold slice. unfold le32 at 1 2 3 4 5. cbn [drop app]. rewrite drop_0.
    rewrite <- Hjl, take_app_length. unfold jsonChunk.
    rewrite getPaddedArrayBuffer_app. by rewrite take_app_length. }
  split.
  { rewrite Hsplit, <- Hprefix, getUint32_app_length. unfold rest.
    rewrite getUint32_le32, Hb32. apply getPaddedArrayBuffer_byteLength. }
  split.
  { rewrite Hsplit.
    replace (24 + jl)%nat
      with (length (((le32 GLB_HEADER_MAGIC ++ le32 GLB_VERSION ++ le32 total
                      ++ le32 (byteLength jsonChunk) ++ le32 GLB_CHUNK_TYPE_JSON)
                     ++ jsonChunk) ++ le32 (byteLength binaryChunk))).
    - unfold rest. rewrite (app_assoc _ (le32 (byteLength binaryChunk))).
      rewrite slice_app_length. reflexivity.
    - rewrite length_app, Hprefix. cbn [le32 length]. lia. }
  unfold set_first_byteLength in Hset.
  destruct (json_buffers (json obj)) as [[| b0 bs] |] eqn:Hbufs; try discriminate.
  injection Hset as <-. cbn [json_buffers].
  eexists _, bs. split; [reflexivity |]. cbn [Buffer.byteLength].
  rewrite Hsplit.
  replace (28 + jl)%nat
    with (length ((((le32 GLB_HEADER_MAGIC ++ le32 GLB_VERSION ++ le32 total
                     ++ le32 (byteLength jsonChunk) ++ le32 GLB_CHUNK_TYPE_JSON)
                    ++ jsonChunk) ++ le32 (byteLength binaryChunk))
                  ++ le32 GLB_CHUNK_TYPE_BIN)).
  - unfold rest.
    rewrite (app_assoc _ (le32 (byteLength binaryChunk))).
    rewrite (app_assoc _ (le32 GLB_CHUNK_TYPE_BIN)).
    rewrite slice_app_length. unfold binaryChunk.
    rewrite getPaddedArrayBuffer_app. unfold byteLength.
    rewrite Nat2Z.id. by rewrite take_app_length.
  - rewrite 2 length_app, Hprefix. cbn [le32 length]. lia.
Qed.

(** X2. The length of a produced container is a multiple of 4, at least
    28, and exceeds the 28 bytes of header and chunk prefixes plus the raw
    sizes of the document text and of the buffers by at most 6. *)
Theorem X2_container_length_aligned (obj : gltf_and_buffers) (glb : list Z)
    (outputJSON : gltf_json)
    (Hret : serialize_glb JSON_stringify_utf8 obj = Returned (glb, outputJSON)) :
  let raw :=
    28 + byteLength (JSON_stringify_utf8 outputJSON)
    + byteLength (concat (buffers obj)) in
  byteLength glb mod 4 = 0
  ∧ 28 ≤ byteLength glb
  ∧ raw ≤ byteLength glb ≤ raw + 6.
Proof.
  intros raw. apply serialize_glb_Returned in Hret as [_ ->].
  rewrite glb_bytes_layout. cbv zeta.
  assert (Hlen : ∀ a b c d e f j k,
    byteLength (le32 a ++ le32 b ++ le32 c ++ le32 d ++ le32 e ++ j
                ++ le32 f ++ le32 k ++ getPaddedArrayBuffer (concat (buffers obj)) None)
    = 28 + byteLength j
      + byteLength (getPaddedArrayBuffer (concat (buffers obj)) None)).
  { intros. unfold byteLength. rewrite !length_app. cbn [le32 length]. lia. }
  rewrite Hlen, !getPaddedArrayBuffer_byteLength.
  pose proof (getPaddedBufferSize_bounds (byteLength (JSON_stringify_utf8 outputJSON)))
    as [[HJ HJ'] HJm].
  pose proof (getPaddedBufferSize_bounds (byteLength (concat (buffers obj))))
    as [[HB HB'] HBm].
  apply Z.mod_divide in HJm; [| lia]. destruct HJm as [qj Hqj].
  apply Z.mod_divide in HBm; [| lia]. destruct HBm as [qb Hqb].
  assert (0 ≤ byteLength (JSON_stringify_utf8 outputJSON)) by (unfold byteLength; lia).
  assert (0 ≤ byteLength (concat (buffers obj))) by (unfold byteLength; lia).
  split; [| unfold raw; lia].
  rewrite Hqj, Hqb. replace (28 + qj * 4 + qb * 4) with ((7 + qj + qb) * 4) by lia.
  apply Z.mod_mul. lia.
Qed.

End ContainerMore.

(** X3. Padding a buffer whose length is a multiple of 4 returns it as it
    is, whatever the padding byte; padding a padded buffer again changes
    nothing; and the padding byte is stored modulo 256. *)
Theorem X3_padding_aligned_idempotent_wraps (arrayBuffer : list Z)
    (paddingByte paddingByte' : option Z) (p : Z) :
  (byteLength arrayBuffer mod 4 = 0 →
     getPaddedArrayBuffer arrayBuffer paddingByte = arrayBuffer)
  ∧ getPaddedArrayBuffer (getPaddedArrayBuffer arrayBuffer paddingByte) paddingByte'
    = getPaddedArrayBuffer arrayBuffer paddingByte
  ∧ getPaddedArrayBuffer arrayBuffer (Some p)
    = getPaddedArrayBuffer arrayBuffer (Some (p mod 256)).
Proof.
  split; [apply getPaddedArrayBuffer_aligned |]. split.
  - apply getPaddedArrayBuffer_aligned.
    rewrite getPaddedArrayBuffer_byteLength. apply getPaddedBufferSize_bounds.
  - rewrite !getPaddedArrayBuffer_app. do 2 f_equal.
    change (p mod 256 = (p mod 256) mod 256).
    by rewrite Z.mod_mod by lia.
Qed.

Lemma X3_padding_aligned_idempotent_wraps_witness :
  getPaddedArrayBuffer [1; 2; 3; 4] (Some 0x20) = [1; 2; 3; 4]
  ∧ getPaddedArrayBuffer [1; 2; 3] (Some 0x120) = [1; 2; 3; 0x20].
Proof.
  destruct (X3_padding_aligned_idempotent_wraps [1; 2; 3; 4] (Some 0x20) None 0)
    as (Haligned & _ & _).
  destruct (X3_padding_aligned_idempotent_wraps [1; 2; 3] None None 0x120)
    as (_ & _ & Hwrap).
  split; [apply Haligned; reflexivity |].
  rewrite Hwrap. reflexivity.
Defined.

Lemma X1_container_reads_back_witness :
  ∃ glb outputJSON,
    serialize_glb sample_stringify sample_obj = Returned (glb, outputJSON)
    ∧ getUint32 12 glb = 4
    ∧ slice 32 5 glb = [1; 2; 3; 4; 5].
Proof.
  eexists _, _. split; [reflexivity |].
  assert (Hfit : byteLength
                   (glb_bytes sample_stringify (concat (buffers sample_obj))
                      {| json_buffers :=
                           Some [ {| Buffer.byteLength := 5; Buffer.other := [] |} ];
                         extensionsUsed := None;
                         extensions := None;
                         json_other := json_other sample_json |})
                 < 2 ^ 32) by (vm_compute; reflexivity).
  destruct (X1_container_reads_back sample_stringify sample_obj _ _ eq_refl Hfit)
    as (Hjl & _ & _ & _ & _ & b0 & bs & Hb0 & Hbin).
  split; [exact Hjl |].
  injection Hb0 as <- <-. exact Hbin.
Defined.

Lemma X2_container_length_aligned_witness :
  ∃ glb outputJSON,
    serialize_glb sample_stringify sample_obj = Returned (glb, outputJSON)
    ∧ byteLength glb mod 4 = 0
    ∧ 28 ≤ byteLength glb.
Proof.
  eexists _, _. split; [reflexivity |].
  destruct (X2_container_length_aligned sample_stringify sample_obj _ _ eq_refl)
    as (Hmod & Hmin & _).
  split; [exact Hmod | exact Hmin].
Defined.

(** * Further properties of the reference mapper *)

(** X4. On export a warning is written only for a reference that does not
    resolve: every warning on the console after [convert_vrm], returned or
    not, is the node warning of a node of the document that is not in
    [nodeMap], or the mesh warning of a mesh reference of the document
    that matches no skin. For a document all of whose references resolve
    the console shows no warning at all (only the logs of the texture
    resolver). *)
Theorem X4_warnings_only_for_unresolved (obj : gltf_and_buffers)
    (vrm : Vrm.t three_object mesh_reference three_object) :
  let log := (convert_vrm (ref_to_id obj) vrm).2 in
  (∀ e, e ∈ log → entry_level e = level_warn →
      (∃ r, r ∈ vrm_node_refs vrm ∧ nodeMap obj !! r = None ∧ e = node_warning r)
      ∨ (∃ m, m ∈ vrm_mesh_refs vrm ∧ mesh_unresolved obj m ∧ e = mesh_warning m))
  ∧ (resolvable obj vrm → ∀ e, e ∈ log → entry_level e = level_log).
Proof.
  intros log.
  assert (Hwarn : ∀ e, e ∈ log → entry_level e = level_warn →
      (∃ r, r ∈ vrm_node_refs vrm ∧ nodeMap obj !! r = None ∧ e = node_warning r)
      ∨ (∃ m, m ∈ vrm_mesh_refs vrm ∧ mesh_unresolved obj m ∧ e = mesh_warning m)).
  { intros e He Hlevel. unfold log in He.
    apply convert_vrm_log_inv in He
      as [(r & Hr & He) | [(m & Hm & He) | (mat & kt & _ & _ & He)]].
    - apply map_node_log_inv in He as [Hnone ->]. left. by exists r.
    - apply map_mesh_log_inv in He as [Hun ->]. right. by exists m.
    - apply list_elem_of_singleton in He. subst e. discriminate. }
  split; [exact Hwarn |].
  intros [Hnodes Hmeshes] e He.
  destruct (entry_level e) eqn:Hlevel; [done |].
  destruct (Hwarn e He Hlevel) as [(r & Hr & Hnone & _) | (m & Hm & Hun & _)].
  - destruct (Hnodes r Hr) as [i Hi]. congruence.
  - by destruct (Hmeshes m Hm).
Qed.

Lemma sample_resolvable_resolvable : resolvable sample_obj sample_resolvable_vrm.
Proof.
  split.
  - intros r Hr. cbn in Hr.
    repeat (apply elem_of_cons in Hr as [-> | Hr]; [by eexists |]).
    by apply elem_of_nil in Hr.
  - intros m Hm. cbn in Hm.
    apply elem_of_cons in Hm as [-> | Hm].
    { intros Hun. apply (Hun 22%nat); [| reflexivity]. right. right. left. }
    apply elem_of_cons in Hm as [-> | Hm].
    { intros Hun. apply (Hun 20%nat); [| reflexivity]. left. }
    by apply elem_of_nil in Hm.
Defined.

Lemma X4_warnings_only_for_unresolved_witness :
  Forall (λ e, entry_level e = level_log)
    (convert_vrm (ref_to_id sample_obj) sample_resolvable_vrm).2.
Proof.
  destruct (X4_warnings_only_for_unresolved sample_obj sample_resolvable_vrm)
    as [_ Hnone].
  apply Forall_forall. apply Hnone. apply sample_resolvable_resolvable.
Defined.

(** X5. Textures on export. A texture property named [size] makes the
    conversion throw: a document with such a property is not converted.
    When the conversion returns, each material of the wire document has
    the texture properties of the document other than [__proto__], in
    their order, all with the index 0, and its other fields as they were;
    one "map_texture" log has been written for each texture reference of
    the document. The keys of each [textureProperties] object are
    distinct. *)
Theorem X5_export_textures_become_zero (obj : gltf_and_buffers)
    (vrm : Vrm.t three_object mesh_reference three_object)
    (Hkeys : texture_keys_distinct vrm) :
  let run := convert_vrm (ref_to_id obj) vrm in
  (∀ wire, run.1 = Normal wire →
     Vrm.materialProperties wire
     = (λ mat,
          {| MaterialProperties.name := MaterialProperties.name mat;
             MaterialProperties.shader := MaterialProperties.shader mat;
             MaterialProperties.renderQueue := MaterialProperties.renderQueue mat;
             MaterialProperties.floatProperties :=
               MaterialProperties.floatProperties mat;
             MaterialProperties.vectorProperties :=
               MaterialProperties.vectorProperties mat;
             MaterialProperties.textureProperties :=
               (λ kt : string * three_object, (kt.1, 0))
                 <$> filter (λ kt : string * three_object, kt.1 ≠ "__proto__")
                       (MaterialProperties.textureProperties mat);
             MaterialProperties.keywordMap := MaterialProperties.keywordMap mat;
             MaterialProperties.tagMap := MaterialProperties.tagMap mat |})
         <$> Vrm.materialProperties vrm
     ∧ (∀ mat kt, mat ∈ Vrm.materialProperties vrm →
          kt ∈ MaterialProperties.textureProperties mat →
          ConsoleEntry level_log "map_texture" (ArgTexture kt.2) ∈ run.2))
  ∧ (∀ mat, mat ∈ Vrm.materialProperties vrm →
       "size" ∈ (MaterialProperties.textureProperties mat).*1 →
       ∃ msg, run.1 = Throws msg)
  ∧ (no_texture_key "size" vrm → skins obj = [] ∨ no_missing_mesh vrm →
     ∃ wire, run.1 = Normal wire).
Proof.
  intros run. split; [| split].
  - intros wire Hwire. split; [by apply (export_materials obj) |].
    intros mat kt Hmat Hkt.
    destruct (convert_vrm_Normal_texture (ref_to_id obj) vrm wire mat kt Hwire Hmat Hkt)
      as [_ Hlog].
    apply Hlog. left.
  - intros mat Hmat Hsize.
    destruct run.1 as [wire | msg |] eqn:Hrun; [| by eexists |].
    + destruct (proj1 (export_returns obj vrm)) as [Hno _]; [by exists wire |].
      by destruct (Hno mat Hmat).
    + by destruct (export_not_PrototypeReplaced obj vrm).
  - intros Hsize Hnullish. by apply export_returns.
Qed.

Lemma X5_export_textures_become_zero_witness :
  (∃ wire,
     (convert_vrm (ref_to_id sample_obj) sample_vrm).1 = Normal wire
     ∧ MaterialProperties.textureProperties <$> Vrm.materialProperties wire
       = [[("_MainTex", 0)]])
  ∧ ∃ msg, (convert_vrm (ref_to_id sample_obj) sample_size_vrm).1 = Throws msg.
Proof.
  split.
  - assert (Hkeys : texture_keys_distinct sample_vrm).
    { intros mat Hmat. cbn in Hmat.
      apply list_elem_of_singleton in Hmat as ->. cbn. apply NoDup_singleton. }
    destruct (X5_export_textures_become_zero sample_obj sample_vrm Hkeys)
      as (Hwire & _ & _).
    eexists. split; [reflexivity |].
    destruct (Hwire _ eq_refl) as [-> _]. reflexivity.
  - assert (Hkeys : texture_keys_distinct sample_size_vrm).
    { intros mat Hmat. cbn in Hmat.
      apply list_elem_of_singleton in Hmat as ->. cbn.
      apply NoDup_cons. split; [| apply NoDup_singleton].
      intros Hin. apply list_elem_of_singleton in Hin. discriminate. }
    destruct (X5_export_textures_become_zero sample_obj sample_size_vrm Hkeys)
      as (_ & Hthrow & _).
    eapply Hthrow; [left |]. cbn. right. left.
Defined.

(** X6. The import direction writes nothing to the console, and an index
    is looked up with undefined as the only failure: the resolvers always
    return, a node, mesh or texture index yields undefined exactly when
    it is negative or not below the length of the resolved array, and
    otherwise the element at that position; every bone of an imported
    document carries the node found for its index. *)
Theorem X6_import_silent_and_bounds (nodes : list three_object)
    (meshes : list (list three_object)) (textures : list three_object)
    (wire : Vrm.t Z Z Z) :
  let this := ref_to_real nodes meshes textures in
  (convert_vrm this wire).2 = []
  ∧ (∀ id, map_node this id = (Normal (array_get nodes id), []))
  ∧ (∀ id, map_mesh this id = (Normal (array_get meshes id), []))
  ∧ (∀ id, map_texture this id = (Normal (array_get textures id), []))
  ∧ (∀ id, array_get nodes id = None ↔ id < 0 ∨ Z.of_nat (length nodes) ≤ id)
  ∧ (∀ id, array_get meshes id = None ↔ id < 0 ∨ Z.of_nat (length meshes) ≤ id)
  ∧ (∀ id, array_get textures id = None
           ↔ id < 0 ∨ Z.of_nat (length textures) ≤ id)
  ∧ (∀ i : nat, array_get nodes (Z.of_nat i) = nodes !! i)
  ∧ (∀ i : nat, array_get meshes (Z.of_nat i) = meshes !! i)
  ∧ (∀ i : nat, array_get textures (Z.of_nat i) = textures !! i)
  ∧ (∀ out, (convert_vrm this wire).1 = Normal out →
       HumanoidBone.node <$> Humanoid.humanBones (Vrm.humanoid out)
       = (λ b, array_get nodes (HumanoidBone.node b))
           <$> Humanoid.humanBones (Vrm.humanoid wire)).
Proof.
  intros this.
  split; [apply import_silent |].
  do 3 (split; [done |]).
  split; [intros id; apply array_get_None |].
  split; [intros id; apply array_get_None |].
  split; [intros id; apply array_get_None |].
  split; [intros i; apply array_get_of_nat |].
  split; [intros i; apply array_get_of_nat |].
  split; [intros i; apply array_get_of_nat |].
  intros out Hout.
  destruct (import_fields nodes meshes textures wire out Hout) as (_ & -> & _).
  cbn [Humanoid.humanBones]. by rewrite <- list_fmap_compose.
Qed.

Lemma X6_import_silent_and_bounds_witness :
  ∃ out,
    (convert_vrm (ref_to_real sample_nodes sample_meshes sample_textures)
       sample_wire_vrm).1 = Normal out
    ∧ HumanoidBone.node <$> Humanoid.humanBones (Vrm.humanoid out) = [Some 8%nat].
Proof.
  destruct (X6_import_silent_and_bounds sample_nodes sample_meshes sample_textures
              sample_wire_vrm)
    as (_ & _ & _ & _ & _ & _ & _ & _ & _ & _ & Hbones).
  eexists. split; [reflexivity |]. rewrite (Hbones _ eq_refl). reflexivity.
Defined.

Lemma sample_resolvable_reads_back :
  reads_back sample_obj sample_nodes sample_meshes sample_resolvable_vrm.
Proof.
  split.
  - intros r Hr. cbn in Hr.
    repeat (apply elem_of_cons in Hr as [-> | Hr]; [by eexists |]).
    by apply elem_of_nil in Hr.
  - intros m Hm. cbn in Hm.
    repeat (apply elem_of_cons in Hm as [-> | Hm]; [by eexists _, _ |]).
    by apply elem_of_nil in Hm.
Defined.

Lemma sample_resolvable_keys_distinct : texture_keys_distinct sample_resolvable_vrm.
Proof.
  intros mat Hmat. cbn in Hmat.
  apply list_elem_of_singleton in Hmat as ->. cbn. apply NoDup_singleton.
Defined.

Lemma sample_resolvable_no_texture_key (key : string) :
  key ≠ "_MainTex" → no_texture_key key sample_resolvable_vrm.
Proof.
  intros Hkey mat Hmat. cbn in Hmat.
  apply list_elem_of_singleton in Hmat as ->. cbn.
  intros Hin. by apply list_elem_of_singleton in Hin.
Defined.

(** X8. Export followed by import, when the arrays of the importer hold
    each node and mesh reference of the document at the index that the
    exporter emits for it, the keys of each [textureProperties] object are
    distinct and none of them is [size] or [__proto__]. Both conversions
    return. The document that comes back has every blendshape group, bind,
    bone and mesh annotation with its reference and the fields beside it
    as they were, the humanoid scalars, the first-person offset, type
    name, inner horizontal and both vertical limits and [meta] as they
    were; its [lookAtHorizontalOuter] is undefined, its
    [secondaryAnimation] is empty and every texture property holds the
    texture of index 0. *)
Theorem X8_roundtrip_when_read_back (obj : gltf_and_buffers)
    (nodes : list three_object) (meshes : list (list three_object))
    (textures : list three_object)
    (vrm : Vrm.t three_object mesh_reference three_object)
    (Hback : reads_back obj nodes meshes vrm)
    (Hkeys : texture_keys_distinct vrm)
    (Hsize : no_texture_key "size" vrm)
    (Hproto : no_texture_key "__proto__" vrm) :
  ∃ wire back,
    (convert_vrm (ref_to_id obj) vrm).1 = Normal wire
    ∧ convert_vrm (ref_to_real nodes meshes textures) wire = (Normal back, [])
    ∧ BlendShapeMaster.blendShapeGroups (Vrm.blendShapeMaster back)
      = (λ g, {| BlendShapeGroup.name := BlendShapeGroup.name g;
                 BlendShapeGroup.presetName := BlendShapeGroup.presetName g;
                 BlendShapeGroup.binds :=
                   (λ b, {| BlendShapeBind.mesh := mesh_elements (BlendShapeBind.mesh b);
                            BlendShapeBind.index := BlendShapeBind.index b;
                            BlendShapeBind.weight := BlendShapeBind.weight b |})
                     <$> BlendShapeGroup.binds g;
                 BlendShapeGroup.materialValues := BlendShapeGroup.materialValues g |})
          <$> BlendShapeMaster.blendShapeGroups (Vrm.blendShapeMaster vrm)
    ∧ (∀ m, m ∈ vrm_mesh_refs vrm → ∃ elements, m = MeshArray elements)
    ∧ Vrm.humanoid back
      = {| Humanoid.humanBones :=
             (λ b, {| HumanoidBone.bone := HumanoidBone.bone b;
                      HumanoidBone.node := Some (HumanoidBone.node b);
                      HumanoidBone.useDefaultValues := HumanoidBone.useDefaultValues b;
                      HumanoidBone.min := HumanoidBone.min b;
                      HumanoidBone.max := HumanoidBone.max b;
                      HumanoidBone.center := HumanoidBone.center b;
                      HumanoidBone.axisLength := HumanoidBone.axisLength b |})
               <$> Humanoid.humanBones (Vrm.humanoid vrm);
           Humanoid.armStretch := Humanoid.armStretch (Vrm.humanoid vrm);
           Humanoid.legStretch := Humanoid.legStretch (Vrm.humanoid vrm);
           Humanoid.upperArmTwist := Humanoid.upperArmTwist (Vrm.humanoid vrm);
           Humanoid.lowerArmTwist := Humanoid.lowerArmTwist (Vrm.humanoid vrm);
           Humanoid.upperLegTwist := Humanoid.upperLegTwist (Vrm.humanoid vrm);
           Humanoid.lowerLegTwist := Humanoid.lowerLegTwist (Vrm.humanoid vrm);
           Humanoid.feetSpacing := Humanoid.feetSpacing (Vrm.humanoid vrm);
           Humanoid.hasTranslationDoF :=
             Humanoid.hasTranslationDoF (Vrm.humanoid vrm) |}
    ∧ Vrm.firstPerson back
      = {| FirstPerson.firstPersonBone :=
             Some (FirstPerson.firstPersonBone (Vrm.firstPerson vrm));
           FirstPerson.firstPersonBoneOffset :=
             FirstPerson.firstPersonBoneOffset (Vrm.firstPerson vrm);
           FirstPerson.meshAnnotations :=
             (λ a, {| MeshAnnotation.mesh := mesh_elements (MeshAnnotation.mesh a);
                      MeshAnnotation.firstPersonFlag :=
                        MeshAnnotation.firstPersonFlag a |})
               <$> FirstPerson.meshAnnotations (Vrm.firstPerson vrm);
           FirstPerson.lookAtTypeName :=
             FirstPerson.lookAtTypeName (Vrm.firstPerson vrm);
           FirstPerson.lookAtHorizontalInner :=
             FirstPerson.lookAtHorizontalInner (Vrm.firstPerson vrm);
           FirstPerson.lookAtHorizontalOuter := JUndefined;
           FirstPerson.lookAtVerticalDown :=
             FirstPerson.lookAtVerticalDown (Vrm.firstPerson vrm);
           FirstPerson.lookAtVerticalUp :=
             FirstPerson.lookAtVerticalUp (Vrm.firstPerson vrm) |}
    ∧ Vrm.materialProperties back
      = (λ mat,
           {| MaterialProperties.name := MaterialProperties.name mat;
              MaterialProperties.shader := MaterialProperties.shader mat;
              MaterialProperties.renderQueue := MaterialProperties.renderQueue mat;
              MaterialProperties.floatProperties :=
                MaterialProperties.floatProperties mat;
              MaterialProperties.vectorProperties :=
                MaterialProperties.vectorProperties mat;
              MaterialProperties.textureProperties :=
                (λ kt : string * three_object, (kt.1, array_get textures 0))
                  <$> MaterialProperties.textureProperties mat;
              MaterialProperties.keywordMap := MaterialProperties.keywordMap mat;
              MaterialProperties.tagMap := MaterialProperties.tagMap mat |})
          <$> Vrm.materialProperties vrm
    ∧ Vrm.meta back = Vrm.meta vrm
    ∧ Vrm.secondaryAnimation back = empty_object.
Proof.
  destruct (roundtrip_reads_back obj nodes meshes textures vrm Hback Hkeys Hsize Hproto)
    as (wire & back & Hwire & Himport & Hblend & Hhumanoid & Hfirst & Hmats
        & Hmeta & Hsec).
  exists wire, back. split; [done |]. split; [done |].
  split; [by rewrite Hblend |]. split.
  { intros m Hm. destruct Hback as [_ Hmeshes].
    destruct (Hmeshes m Hm) as (? & elements & _ & -> & _). by exists elements. }
  done.
Qed.

Lemma X8_roundtrip_when_read_back_witness :
  ∃ wire back,
    (convert_vrm (ref_to_id sample_obj) sample_resolvable_vrm).1 = Normal wire
    ∧ convert_vrm (ref_to_real sample_nodes sample_meshes sample_textures) wire
      = (Normal back, [])
    ∧ Humanoid.humanBones (Vrm.humanoid back)
      = [ {| HumanoidBone.bone := JString "hips";
             HumanoidBone.node := Some 8%nat;
             HumanoidBone.useDefaultValues := JBool true;
             HumanoidBone.min := JUndefined;
             HumanoidBone.max := JUndefined;
             HumanoidBone.center := JUndefined;
             HumanoidBone.axisLength := JNumber 0 |} ]
    ∧ MaterialProperties.textureProperties <$> Vrm.materialProperties back
      = [[("_MainTex", Some 30%nat)]].
Proof.
  destruct (X8_roundtrip_when_read_back sample_obj sample_nodes sample_meshes
              sample_textures sample_resolvable_vrm
              sample_resolvable_reads_back sample_resolvable_keys_distinct
              (sample_resolvable_no_texture_key "size" ltac:(discriminate))
              (sample_resolvable_no_texture_key "__proto__" ltac:(discriminate)))
    as (wire & back & Hwire & Hback & _ & _ & Hhumanoid & _ & Hmats & _).
  exists wire, back. split; [exact Hwire |]. split; [exact Hback |].
  rewrite Hhumanoid, Hmats. split; reflexivity.
Defined.

(** X9. An unresolved reference comes back as whatever the importer has
    at index 0. After an export and an import that return, a bone whose
    node is not in [nodeMap] carries the first node of the importer
    (undefined when there is none), with its other fields as they were,
    and a bind whose mesh reference matches no skin carries the first mesh
    of the importer. *)
Theorem X9_unresolved_reference_comes_back_as_index_zero (obj : gltf_and_buffers)
    (nodes : list three_object) (meshes : list (list three_object))
    (textures : list three_object)
    (vrm : Vrm.t three_object mesh_reference three_object) (wire : Vrm.t Z Z Z)
    (back : Vrm.t (option three_object) (option (list three_object))
              (option three_object)) :
  (convert_vrm (ref_to_id obj) vrm).1 = Normal wire →
  (convert_vrm (ref_to_real nodes meshes textures) wire).1 = Normal back →
  (∀ (i : nat) b,
      Humanoid.humanBones (Vrm.humanoid vrm) !! i = Some b →
      nodeMap obj !! HumanoidBone.node b = None →
      Humanoid.humanBones (Vrm.humanoid back) !! i
      = Some {| HumanoidBone.bone := HumanoidBone.bone b;
                HumanoidBone.node := nodes !! 0%nat;
                HumanoidBone.useDefaultValues := HumanoidBone.useDefaultValues b;
                HumanoidBone.min := HumanoidBone.min b;
                HumanoidBone.max := HumanoidBone.max b;
                HumanoidBone.center := HumanoidBone.center b;
                HumanoidBone.axisLength := HumanoidBone.axisLength b |})
  ∧ (∀ (i j : nat) g b,
      BlendShapeMaster.blendShapeGroups (Vrm.blendShapeMaster vrm) !! i = Some g →
      BlendShapeGroup.binds g !! j = Some b →
      mesh_unresolved obj (BlendShapeBind.mesh b) →
      ∃ g',
        BlendShapeMaster.blendShapeGroups (Vrm.blendShapeMaster back) !! i = Some g'
        ∧ BlendShapeGroup.binds g' !! j
          = Some {| BlendShapeBind.mesh := meshes !! 0%nat;
                    BlendShapeBind.index := BlendShapeBind.index b;
                    BlendShapeBind.weight := BlendShapeBind.weight b |}).
Proof.
  intros Hwire Hback.
  destruct (export_fields obj vrm wire Hwire) as (Hwb & Hwh & _).
  destruct (import_fields nodes meshes textures wire back Hback) as (Hbb & Hbh & _).
  split.
  - intros i b Hb Hnone. rewrite Hbh, Hwh. cbn [Humanoid.humanBones].
    rewrite !list_lookup_fmap, Hb.
    cbn [fmap option_fmap option_map HumanoidBone.node HumanoidBone.bone
         HumanoidBone.useDefaultValues HumanoidBone.min HumanoidBone.max
         HumanoidBone.center HumanoidBone.axisLength].
    by rewrite Hnone.
  - intros i j g b Hg Hb Hun. rewrite Hbb, Hwb.
    cbn [BlendShapeMaster.blendShapeGroups].
    rewrite !list_lookup_fmap, Hg. cbn [fmap option_fmap option_map].
    eexists. split; [reflexivity |].
    cbn [BlendShapeGroup.binds].
    rewrite !list_lookup_fmap, Hb.
    cbn [fmap option_fmap option_map BlendShapeBind.mesh BlendShapeBind.index
         BlendShapeBind.weight].
    assert (Hm : BlendShapeBind.mesh b ∈ vrm_mesh_refs vrm).
    { apply elem_of_vrm_mesh_refs. left. exists g, b.
      split; [by eapply list_elem_of_lookup_2 |].
      split; [by eapply list_elem_of_lookup_2 | done]. }
    destruct (convert_vrm_Normal_mesh (ref_to_id obj) vrm wire _ Hwire Hm)
      as [[skin_id Hid] _].
    by rewrite (map_mesh_unresolved_Normal obj _ skin_id Hun Hid).
Qed.

Lemma X9_unresolved_reference_comes_back_as_index_zero_witness :
  ∃ wire back,
    (convert_vrm (ref_to_id sample_obj) sample_vrm).1 = Normal wire
    ∧ (convert_vrm (ref_to_real sample_nodes sample_meshes sample_textures) wire).1
      = Normal back
    ∧ Humanoid.humanBones (Vrm.humanoid back) !! 1%nat
      = Some {| HumanoidBone.bone := JString "head";
                HumanoidBone.node := Some 7%nat;
                HumanoidBone.useDefaultValues := JBool true;
                HumanoidBone.min := JUndefined;
                HumanoidBone.max := JUndefined;
                HumanoidBone.center := JUndefined;
                HumanoidBone.axisLength := JNumber 0 |}.
Proof.
  eexists _, _. split; [reflexivity |]. split; [reflexivity |].
  edestruct (X9_unresolved_reference_comes_back_as_index_zero sample_obj
               sample_nodes sample_meshes sample_textures sample_vrm)
    as [Hbone _]; [reflexivity | reflexivity |].
  exact (Hbone 1%nat
           {| HumanoidBone.bone := JString "head";
              HumanoidBone.node := 9%nat;
              HumanoidBone.useDefaultValues := JBool true;
              HumanoidBone.min := JUndefined;
              HumanoidBone.max := JUndefined;
              HumanoidBone.center := JUndefined;
              HumanoidBone.axisLength := JNumber 0 |} eq_refl eq_refl).
Defined.

(** X10. The mesh index written on export is never negative (the -1 of
    [findIndex] does not reach the document) and, when the exporter has
    skins, it is the index of one of them. A reference that is an array
    always gets an index; an empty one never resolves; and only the first
    object of a reference matters. A missing reference throws when the
    exporter has a skin, and gets the index 0 with a warning when it has
    none. *)
Theorem X10_mesh_index_in_range (obj : gltf_and_buffers) (mesh_ref : mesh_reference)
    (elements tail tail' : list three_object) (e : three_object) :
  (∀ skin_id, (map_mesh (ref_to_id obj) mesh_ref).1 = Normal skin_id →
     0 ≤ skin_id ∧ (skins obj ≠ [] → skin_id < Z.of_nat (length (skins obj))))
  ∧ (∃ skin_id, (map_mesh (ref_to_id obj) (MeshArray elements)).1 = Normal skin_id)
  ∧ map_mesh (ref_to_id obj) (MeshArray [])
    = (Normal 0, [mesh_warning (MeshArray [])])
  ∧ (map_mesh (ref_to_id obj) (MeshArray (e :: tail))).1
    = (map_mesh (ref_to_id obj) (MeshArray (e :: tail'))).1
  ∧ (∀ null, skins obj = [] →
       map_mesh (ref_to_id obj) (MeshNullish null)
       = (Normal 0, [mesh_warning (MeshNullish null)]))
  ∧ (skins obj ≠ [] →
     map_mesh (ref_to_id obj) (MeshNullish false)
     = (Throws "Cannot read properties of undefined (reading '0')", [])
     ∧ map_mesh (ref_to_id obj) (MeshNullish true)
       = (Throws "Cannot read properties of null (reading '0')", [])).
Proof.
  split; [| split; [| split; [| split; [| split]]]].
  - intros skin_id Hid.
    destruct (map_mesh_cases obj mesh_ref)
      as [(k & s & Hk & _ & Heq) | [[_ Heq] | (null & _ & _ & Heq)]];
      rewrite Heq in Hid; [| | done]; injection Hid as <-.
    + apply lookup_lt_Some in Hk. lia.
    + split; [lia |]. destruct (skins obj); [done | cbn; lia].
  - apply map_mesh_array_Normal.
  - apply map_mesh_unresolved; [| by left]. intros s _. discriminate.
  - rewrite !map_mesh_array by (by left). cbv zeta. cbn [mesh_first].
    change ((e :: tail) !! 0%nat) with (Some e).
    change ((e :: tail') !! 0%nat) with (Some e).
    by case_bool_decide.
  - intros null Hskins. apply map_mesh_unresolved; [| by right].
    intros s _. discriminate.
  - intros Hne. split; by apply map_mesh_nullish_throws.
Qed.

Lemma X10_mesh_index_in_range_witness :
  ∃ skin_id,
    (map_mesh (ref_to_id sample_obj) (MeshArray [99%nat])).1 = Normal skin_id
    ∧ skin_id < 3.
Proof.
  destruct (X10_mesh_index_in_range sample_obj (MeshArray [99%nat]) [] [] [] 0%nat)
    as (Hrange & _).
  eexists. split; [reflexivity |].
  destruct (Hrange _ eq_refl) as [_ Hlt]. apply Hlt. discriminate.
Defined.

(** ** Two conversions in a row *)

Section MaterialFacts.
Context {N M T N' M' T' : Type} `{!JsKind T'}.
Variable this : VrmExtensionMapper N M T N' M' T'.

Lemma _convert_material_loop_Normal_texture (props : list (string * T))
    (texProp out : list (string * T')) (kt : string * T) :
  (_convert_material_loop this props texProp).1 = Normal out → kt ∈ props →
  ∃ v, (map_texture this kt.2).1 = Normal v.
Proof.
  intros Hout Hkt. revert texProp Hout.
  induction Hkt as [[k t] props | [k t] [k' t'] props Hkt IH]; intros texProp Hout;
    apply _convert_material_loop_step in Hout as (v & texProp' & Hv & _ & Hrest).
  - by exists v.
  - by apply (IH texProp').
Qed.

(** In a conversion that has returned, the texture resolver has returned
    for every texture property of the document. *)
Lemma convert_vrm_Normal_texture_value (vrm : Vrm.t N M T) (out : Vrm.t N' M' T')
    (mat : MaterialProperties.t T) (kt : string * T) :
  (convert_vrm this vrm).1 = Normal out →
  mat ∈ Vrm.materialProperties vrm →
  kt ∈ MaterialProperties.textureProperties mat →
  ∃ v, (map_texture this kt.2).1 = Normal v.
Proof.
  intros Hout Hmat Hkt.
  apply convert_vrm_Normal_inv in Hout
    as (groups & humanBones & firstPersonBone & meshAnnotations & mats
        & _ & _ & _ & _ & Hmats & _).
  apply Exec_mapM_Normal_inv in Hmats.
  apply list_elem_of_lookup in Hmat as [i Hi].
  destruct (Forall2_lookup_l _ _ _ _ _ Hmats Hi) as (mat' & _ & Hmat').
  apply _convert_material_Normal_inv in Hmat' as (texProp & Hloop & _).
  by apply (_convert_material_loop_Normal_texture _ _ _ kt Hloop).
Qed.

(** The value of a material, for distinct keys, in terms of a function
    that gives the value of the texture resolver. *)
Lemma _convert_material_Normal_value (ft : T → T') (mat : MaterialProperties.t T)
    (out : MaterialProperties.t T') :
  (_convert_material this mat).1 = Normal out →
  NoDup (MaterialProperties.textureProperties mat).*1 →
  (∀ kt v, kt ∈ MaterialProperties.textureProperties mat →
     (map_texture this kt.2).1 = Normal v → v = ft kt.2) →
  out = {| MaterialProperties.name := MaterialProperties.name mat;
           MaterialProperties.shader := MaterialProperties.shader mat;
           MaterialProperties.renderQueue := MaterialProperties.renderQueue mat;
           MaterialProperties.floatProperties := MaterialProperties.floatProperties mat;
           MaterialProperties.vectorProperties := MaterialProperties.vectorProperties mat;
           MaterialProperties.textureProperties :=
             (λ kt : string * T, (kt.1, ft kt.2))
               <$> filter (λ kt : string * T, kt.1 ≠ "__proto__")
                     (MaterialProperties.textureProperties mat);
           MaterialProperties.keywordMap := MaterialProperties.keywordMap mat;
           MaterialProperties.tagMap := MaterialProperties.tagMap mat |}.
Proof.
  intros Hout Hnd Hft. apply _convert_material_Normal_inv in Hout as (texProp & Hloop & ->).
  f_equal.
  by rewrite (_convert_material_loop_Normal_value this ft _ _ _ Hloop).
Qed.

End MaterialFacts.

Lemma NoDup_filter_keys {A : Type} (P : string * A → Prop) `{!∀ x, Decision (P x)}
    (props : list (string * A)) :
  NoDup props.*1 → NoDup (filter P props).*1.
Proof.
  intros Hnd. apply (sublist_NoDup _ props.*1); [exact Hnd |].
  apply fmap_sublist, sublist_filter.
Qed.

Section ComposeMore.
Context {A1 A2 A3 B1 B2 B3 C1 C2 C3 : Type} `{!JsKind B3, !JsKind C3}.
Context `{!Inhabited B1, !Inhabited B2, !Inhabited B3}.
Context `{!Inhabited C1, !Inhabited C2, !Inhabited C3}.
Variable f : VrmExtensionMapper A1 A2 A3 B1 B2 B3.
Variable g : VrmExtensionMapper B1 B2 B3 C1 C2 C3.
Variable h : VrmExtensionMapper A1 A2 A3 C1 C2 C3.

(** X7. Conversions compose. Let a document be converted with a first
    set of resolvers and the result with a second set, and let the
    document also be converted with a third set, all three conversions
    returning. When the third set returns, for every node and mesh
    reference of the document and for every texture, what the second set
    returns for the result of the first, the two ways give the same
    document. The keys of each [textureProperties] object are distinct. *)
Theorem X7_conversions_compose (vrm : Vrm.t A1 A2 A3) (wire : Vrm.t B1 B2 B3)
    (out out' : Vrm.t C1 C2 C3)
    (Hnode : ∀ r b c c', r ∈ vrm_node_refs vrm →
               (map_node f r).1 = Normal b → (map_node g b).1 = Normal c →
               (map_node h r).1 = Normal c' → c' = c)
    (Hmesh : ∀ m b c c', m ∈ vrm_mesh_refs vrm →
               (map_mesh f m).1 = Normal b → (map_mesh g b).1 = Normal c →
               (map_mesh h m).1 = Normal c' → c' = c)
    (Htexture : ∀ t b c c',
               (map_texture f t).1 = Normal b → (map_texture g b).1 = Normal c →
               (map_texture h t).1 = Normal c' → c' = c)
    (Hkeys : texture_keys_distinct vrm) :
  (convert_vrm f vrm).1 = Normal wire →
  (convert_vrm g wire).1 = Normal out →
  (convert_vrm h vrm).1 = Normal out' →
  out' = out.
Proof.
  intros Hf Hg Hh.
  set (fnf := λ r, normal_or inhabitant (map_node f r).1).
  set (fmf := λ m, normal_or inhabitant (map_mesh f m).1).
  set (ftf := λ t, normal_or inhabitant (map_texture f t).1).
  set (fng := λ r, normal_or inhabitant (map_node g r).1).
  set (fmg := λ m, normal_or inhabitant (map_mesh g m).1).
  set (ftg := λ t, normal_or inhabitant (map_texture g t).1).
  set (fnh := λ r, normal_or inhabitant (map_node h r).1).
  set (fmh := λ m, normal_or inhabitant (map_mesh h m).1).
  set (fth := λ t, normal_or inhabitant (map_texture h t).1).
  destruct (convert_vrm_Normal_fields f fnf fmf vrm wire Hf)
    as (Hfb & Hfh & Hff & Hfmats & Hfmeta & _);
    [by intros r x _ Hx; unfold fnf; rewrite Hx
    |by intros m x _ Hx; unfold fmf; rewrite Hx |].
  destruct (convert_vrm_Normal_fields g fng fmg wire out Hg)
    as (Hgb & Hgh & Hgf & Hgmats & Hgmeta & Hgsec);
    [by intros r x _ Hx; unfold fng; rewrite Hx
    |by intros m x _ Hx; unfold fmg; rewrite Hx |].
  destruct (convert_vrm_Normal_fields h fnh fmh vrm out' Hh)
    as (Hhb & Hhh & Hhf & Hhmats & Hhmeta & Hhsec);
    [by intros r x _ Hx; unfold fnh; rewrite Hx
    |by intros m x _ Hx; unfold fmh; rewrite Hx |].
  (* the resolvers on the references of the document *)
  assert (Hn : ∀ r, r ∈ vrm_node_refs vrm → fnh r = fng (fnf r)).
  { intros r Hr.
    destruct (convert_vrm_Normal_node f vrm wire r Hf Hr) as [[b Hb] _].
    destruct (convert_vrm_Normal_node h vrm out' r Hh Hr) as [[c' Hc'] _].
    assert (Hr' : b ∈ vrm_node_refs wire).
    { apply elem_of_vrm_node_refs. rewrite Hff, Hfh.
      cbn [FirstPerson.firstPersonBone Humanoid.humanBones].
      apply elem_of_vrm_node_refs in Hr as [-> | (bone & Hbone & ->)].
      - left. unfold fnf. by rewrite Hb.
      - right. eexists. split; [by apply list_elem_of_fmap_2 |].
        cbn [HumanoidBone.node]. unfold fnf. by rewrite Hb. }
    destruct (convert_vrm_Normal_node g wire out b Hg Hr') as [[c Hc] _].
    unfold fnh, fng, fnf. rewrite Hb. cbn [normal_or]. rewrite Hc', Hc. cbn [normal_or].
    by apply (Hnode r b c c'). }
  assert (Hm : ∀ m, m ∈ vrm_mesh_refs vrm → fmh m = fmg (fmf m)).
  { intros m Hm.
    destruct (convert_vrm_Normal_mesh f vrm wire m Hf Hm) as [[b Hb] _].
    destruct (convert_vrm_Normal_mesh h vrm out' m Hh Hm) as [[c' Hc'] _].
    assert (Hm' : b ∈ vrm_mesh_refs wire).
    { apply elem_of_vrm_mesh_refs. rewrite Hff, Hfb.
      cbn [FirstPerson.meshAnnotations BlendShapeMaster.blendShapeGroups].
      apply elem_of_vrm_mesh_refs in Hm as [(grp & b0 & Hgrp & Hb0 & ->) | (a & Ha & ->)].
      - left. eexists _, _. split; [by apply list_elem_of_fmap_2 |].
        cbn [BlendShapeGroup.binds]. split; [by apply list_elem_of_fmap_2 |].
        cbn [BlendShapeBind.mesh]. unfold fmf. by rewrite Hb.
      - right. eexists. split; [by apply list_elem_of_fmap_2 |].
        cbn [MeshAnnotation.mesh]. unfold fmf. by rewrite Hb. }
    destruct (convert_vrm_Normal_mesh g wire out b Hg Hm') as [[c Hc] _].
    unfold fmh, fmg, fmf. rewrite Hb. cbn [normal_or]. rewrite Hc', Hc. cbn [normal_or].
    by apply (Hmesh m b c c'). }
  (* the materials *)
  pose (material (T T' : Type) (ft : T → T') (mat : MaterialProperties.t T) :=
    {| MaterialProperties.name := MaterialProperties.name mat;
       MaterialProperties.shader := MaterialProperties.shader mat;
       MaterialProperties.renderQueue := MaterialProperties.renderQueue mat;
       MaterialProperties.floatProperties := MaterialProperties.floatProperties mat;
       MaterialProperties.vectorProperties := MaterialProperties.vectorProperties mat;
       MaterialProperties.textureProperties :=
         (λ kt : string * T, (kt.1, ft kt.2))
           <$> filter (λ kt : string * T, kt.1 ≠ "__proto__")
                 (MaterialProperties.textureProperties mat);
       MaterialProperties.keywordMap := MaterialProperties.keywordMap mat;
       MaterialProperties.tagMap := MaterialProperties.tagMap mat |}).
  assert (Hwmats : Vrm.materialProperties wire
                   = material _ _ ftf <$> Vrm.materialProperties vrm).
  { apply (Forall2_fmap_eq _ _ _ _ Hfmats). intros mat mat' Hmat Hconv.
    apply (_convert_material_Normal_value f ftf mat mat' Hconv); [by apply Hkeys |].
    intros kt v _ Hv. unfold ftf. by rewrite Hv. }
  assert (Homats' : Vrm.materialProperties out'
                    = material _ _ fth <$> Vrm.materialProperties vrm).
  { apply (Forall2_fmap_eq _ _ _ _ Hhmats). intros mat mat' Hmat Hconv.
    apply (_convert_material_Normal_value h fth mat mat' Hconv); [by apply Hkeys |].
    intros kt v _ Hv. unfold fth. by rewrite Hv. }
  assert (Homats : Vrm.materialProperties out
                   = material _ _ ftg <$> Vrm.materialProperties wire).
  { apply (Forall2_fmap_eq _ _ _ _ Hgmats). intros mat mat' Hmat Hconv.
    apply (_convert_material_Normal_value g ftg mat mat' Hconv).
    - rewrite Hwmats in Hmat. apply list_elem_of_fmap in Hmat as (mat0 & -> & Hmat0).
      cbn [material MaterialProperties.textureProperties].
      rewrite <- list_fmap_compose.
      erewrite list_fmap_ext; [apply NoDup_filter_keys, Hkeys, Hmat0 | done].
    - intros kt v _ Hv. unfold ftg. by rewrite Hv. }
  assert (Hmats : Vrm.materialProperties out' = Vrm.materialProperties out).
  { rewrite Homats', Homats, Hwmats, <- list_fmap_compose.
    apply list_fmap_ext. intros i mat Hi. unfold compose.
    assert (Hmat : mat ∈ Vrm.materialProperties vrm)
      by (by eapply list_elem_of_lookup_2).
    unfold material at 1 2.
    cbn [MaterialProperties.name MaterialProperties.shader
         MaterialProperties.renderQueue MaterialProperties.floatProperties
         MaterialProperties.vectorProperties MaterialProperties.textureProperties
         MaterialProperties.keywordMap MaterialProperties.tagMap material].
    f_equal. rewrite (filter_no_proto (_ <$> _)).
    2:{ rewrite <- list_fmap_compose. intros Hin.
        apply list_elem_of_fmap in Hin as (kt & Heq & Hkt).
        apply list_elem_of_filter in Hkt as [Hne _]. by apply Hne. }
    rewrite <- list_fmap_compose. apply list_fmap_ext. intros j kt Hj.
    unfold compose. cbn [fst snd]. f_equal.
    assert (Hkt : kt ∈ MaterialProperties.textureProperties mat).
    { apply list_elem_of_lookup_2 in Hj. by apply list_elem_of_filter in Hj as [_ ?]. }
    destruct (convert_vrm_Normal_texture_value f vrm wire mat kt Hf Hmat Hkt) as [b Hb].
    destruct (convert_vrm_Normal_texture_value h vrm out' mat kt Hh Hmat Hkt)
      as [c' Hc'].
    destruct (convert_vrm_Normal_texture_value g wire out (material _ _ ftf mat)
                (kt.1, ftf kt.2) Hg) as [c Hc].
    { rewrite Hwmats. by apply list_elem_of_fmap_2. }
    { cbn [material MaterialProperties.textureProperties].
      apply (list_elem_of_fmap_2 (λ kt : string * A3, (kt.1, ftf kt.2))).
      by eapply list_elem_of_lookup_2. }
    cbn [snd] in Hc. unfold fth, ftg. rewrite Hc', Hc. cbn [normal_or].
    apply (Htexture kt.2 b c c'); [done | | done].
    unfold ftf in Hc. by rewrite Hb in Hc. }
  destruct out as [ob oh ofp om ometa osec], out' as [ob' oh' ofp' om' ometa' osec'].
  cbn [Vrm.blendShapeMaster Vrm.humanoid Vrm.firstPerson Vrm.materialProperties
       Vrm.meta Vrm.secondaryAnimation] in *.
  subst ob oh ofp ometa osec ob' oh' ofp' ometa' osec' om'.
  rewrite Hfb, Hfh, Hff, Hfmeta.
  cbn [BlendShapeMaster.blendShapeGroups Humanoid.humanBones Humanoid.armStretch
       Humanoid.legStretch Humanoid.upperArmTwist Humanoid.lowerArmTwist
       Humanoid.upperLegTwist Humanoid.lowerLegTwist Humanoid.feetSpacing
       Humanoid.hasTranslationDoF FirstPerson.firstPersonBone
       FirstPerson.firstPersonBoneOffset FirstPerson.meshAnnotations
       FirstPerson.lookAtTypeName FirstPerson.lookAtHorizontalInner
       FirstPerson.lookAtVerticalDown FirstPerson.lookAtVerticalUp].
  rewrite <- !list_fmap_compose.
  f_equal.
  - f_equal. apply list_fmap_ext. intros i grp Hi. unfold compose.
    cbn [BlendShapeGroup.name BlendShapeGroup.presetName BlendShapeGroup.binds
         BlendShapeGroup.materialValues].
    f_equal. rewrite <- list_fmap_compose. apply list_fmap_ext. intros j b Hj.
    unfold compose. cbn [BlendShapeBind.mesh BlendShapeBind.index BlendShapeBind.weight].
    f_equal. apply Hm. apply elem_of_vrm_mesh_refs. left. exists grp, b.
    split; [by eapply list_elem_of_lookup_2 |].
    split; [by eapply list_elem_of_lookup_2 | done].
  - f_equal. apply list_fmap_ext. intros i b Hi. unfold compose.
    cbn [HumanoidBone.bone HumanoidBone.node HumanoidBone.useDefaultValues
         HumanoidBone.min HumanoidBone.max HumanoidBone.center HumanoidBone.axisLength].
    f_equal. apply Hn. apply elem_of_vrm_node_refs. right. exists b.
    split; [by eapply list_elem_of_lookup_2 | done].
  - f_equal.
    + apply Hn. apply elem_of_vrm_node_refs. by left.
    + apply list_fmap_ext. intros i a Hi. unfold compose.
      cbn [MeshAnnotation.mesh MeshAnnotation.firstPersonFlag].
      f_equal. apply Hm. apply elem_of_vrm_mesh_refs. right. exists a.
      split; [by eapply list_elem_of_lookup_2 | done].
  - exact Hmats.
Qed.

End ComposeMore.

Lemma X7_conversions_compose_witness :
  ∃ wire back image,
    (convert_vrm (ref_to_id sample_obj) sample_resolvable_vrm).1 = Normal wire
    ∧ (convert_vrm (ref_to_real sample_nodes sample_meshes sample_textures) wire).1
      = Normal back
    ∧ roundtrip_image sample_textures sample_resolvable_vrm = Normal image
    ∧ image = back.
Proof.
  eexists _, _, _. split; [reflexivity |]. split; [reflexivity |].
  split; [reflexivity |].
  eapply (X7_conversions_compose (ref_to_id sample_obj)
            (ref_to_real sample_nodes sample_meshes sample_textures)
            (read_back sample_textures) sample_resolvable_vrm);
    [| | | apply sample_resolvable_keys_distinct
     | reflexivity | reflexivity | reflexivity].
  - intros r b c c' Hr Hb Hc Hc'.
    destruct sample_resolvable_reads_back as [Hnodes _].
    destruct (Hnodes r Hr) as (node_id & Hid & Hget).
    rewrite Hid in Hb. injection Hb as <-.
    cbn in Hc, Hc'. congruence.
  - intros m b c c' Hm Hb Hc Hc'.
    destruct sample_resolvable_reads_back as [_ Hmeshes].
    destruct (Hmeshes m Hm) as (skin_id & elements & Hid & -> & Hget).
    rewrite Hid in Hb. injection Hb as <-.
    cbn in Hc, Hc'. congruence.
  - intros t b c c' Hb Hc Hc'. cbn in Hb, Hc, Hc'. congruence.
Defined.

(** X23. Unresolved references on export. A node that is not in
    [nodeMap] and a mesh reference that is an array and matches no skin
    get the index 0 and a warning, and never stop the conversion: it
    returns exactly when no texture property is named [size] and either
    the exporter has no skin or no mesh reference is missing. When it
    returns, the wire document is the document with every reference
    replaced by its index (0 when unresolved), every field that the
    literals copy as it was, [lookAtHorizontalOuter] undefined,
    [secondaryAnimation] empty and one material for each material (with
    the texture properties of X5 when the keys are distinct); the warning
    of every unresolved reference is on the console. *)
Theorem X23_export_falls_back_on_unresolved_references (obj : gltf_and_buffers)
    (vrm : Vrm.t three_object mesh_reference three_object) :
  let run := convert_vrm (ref_to_id obj) vrm in
  let node_id := λ node_ref, default 0 (nodeMap obj !! node_ref) in
  let skin_id := λ mesh_ref, normal_or 0 (map_mesh (ref_to_id obj) mesh_ref).1 in
  (∀ node_ref, nodeMap obj !! node_ref = None →
      map_node (ref_to_id obj) node_ref = (Normal 0, [node_warning node_ref]))
  ∧ (∀ elements, mesh_unresolved obj (MeshArray elements) →
      map_mesh (ref_to_id obj) (MeshArray elements)
      = (Normal 0, [mesh_warning (MeshArray elements)]))
  ∧ ((∃ wire, run.1 = Normal wire)
     ↔ no_texture_key "size" vrm ∧ (skins obj = [] ∨ no_missing_mesh vrm))
  ∧ (∀ wire, run.1 = Normal wire →
       Vrm.blendShapeMaster wire
       = {| BlendShapeMaster.blendShapeGroups :=
              (λ g, {| BlendShapeGroup.name := BlendShapeGroup.name g;
                       BlendShapeGroup.presetName := BlendShapeGroup.presetName g;
                       BlendShapeGroup.binds :=
                         (λ b, {| BlendShapeBind.mesh := skin_id (BlendShapeBind.mesh b);
                                  BlendShapeBind.index := BlendShapeBind.index b;
                                  BlendShapeBind.weight := BlendShapeBind.weight b |})
                           <$> BlendShapeGroup.binds g;
                       BlendShapeGroup.materialValues :=
                         BlendShapeGroup.materialValues g |})
                <$> BlendShapeMaster.blendShapeGroups (Vrm.blendShapeMaster vrm) |}
       ∧ Vrm.humanoid wire
         = {| Humanoid.humanBones :=
                (λ b, {| HumanoidBone.bone := HumanoidBone.bone b;
                         HumanoidBone.node := node_id (HumanoidBone.node b);
                         HumanoidBone.useDefaultValues :=
                           HumanoidBone.useDefaultValues b;
                         HumanoidBone.min := HumanoidBone.min b;
                         HumanoidBone.max := HumanoidBone.max b;
                         HumanoidBone.center := HumanoidBone.center b;
                         HumanoidBone.axisLength := HumanoidBone.axisLength b |})
                  <$> Humanoid.humanBones (Vrm.humanoid vrm);
              Humanoid.armStretch := Humanoid.armStretch (Vrm.humanoid vrm);
              Humanoid.legStretch := Humanoid.legStretch (Vrm.humanoid vrm);
              Humanoid.upperArmTwist := Humanoid.upperArmTwist (Vrm.humanoid vrm);
              Humanoid.lowerArmTwist := Humanoid.lowerArmTwist (Vrm.humanoid vrm);
              Humanoid.upperLegTwist := Humanoid.upperLegTwist (Vrm.humanoid vrm);
              Humanoid.lowerLegTwist := Humanoid.lowerLegTwist (Vrm.humanoid vrm);
              Humanoid.feetSpacing := Humanoid.feetSpacing (Vrm.humanoid vrm);
              Humanoid.hasTranslationDoF :=
                Humanoid.hasTranslationDoF (Vrm.humanoid vrm) |}
       ∧ Vrm.firstPerson wire
         = {| FirstPerson.firstPersonBone :=
                node_id (FirstPerson.firstPersonBone (Vrm.firstPerson vrm));
              FirstPerson.firstPersonBoneOffset :=
                FirstPerson.firstPersonBoneOffset (Vrm.firstPerson vrm);
              FirstPerson.meshAnnotations :=
                (λ a, {| MeshAnnotation.mesh := skin_id (MeshAnnotation.mesh a);
                         MeshAnnotation.firstPersonFlag :=
                           MeshAnnotation.firstPersonFlag a |})
                  <$> FirstPerson.meshAnnotations (Vrm.firstPerson vrm);
              FirstPerson.lookAtTypeName :=
                FirstPerson.lookAtTypeName (Vrm.firstPerson vrm);
              FirstPerson.lookAtHorizontalInner :=
                FirstPerson.lookAtHorizontalInner (Vrm.firstPerson vrm);
              FirstPerson.lookAtHorizontalOuter := JUndefined;
              FirstPerson.lookAtVerticalDown :=
                FirstPerson.lookAtVerticalDown (Vrm.firstPerson vrm);
              FirstPerson.lookAtVerticalUp :=
                FirstPerson.lookAtVerticalUp (Vrm.firstPerson vrm) |}
       ∧ Forall2
           (λ mat mat',
              MaterialProperties.name mat' = MaterialProperties.name mat
              ∧ MaterialProperties.shader mat' = MaterialProperties.shader mat
              ∧ MaterialProperties.renderQueue mat' = MaterialProperties.renderQueue mat
              ∧ MaterialProperties.floatProperties mat'
                = MaterialProperties.floatProperties mat
              ∧ MaterialProperties.vectorProperties mat'
                = MaterialProperties.vectorProperties mat
              ∧ MaterialProperties.keywordMap mat' = MaterialProperties.keywordMap mat
              ∧ MaterialProperties.tagMap mat' = MaterialProperties.tagMap mat
              ∧ (NoDup (MaterialProperties.textureProperties mat).*1 →
                 MaterialProperties.textureProperties mat'
                 = (λ kt : string * three_object, (kt.1, 0))
                     <$> filter (λ kt : string * three_object, kt.1 ≠ "__proto__")
                           (MaterialProperties.textureProperties mat)))
           (Vrm.materialProperties vrm) (Vrm.materialProperties wire)
       ∧ Vrm.meta wire = Vrm.meta vrm
       ∧ Vrm.secondaryAnimation wire = empty_object
       ∧ (∀ r, r ∈ vrm_node_refs vrm → nodeMap obj !! r = None →
            node_id r = 0 ∧ node_warning r ∈ run.2)
       ∧ (∀ m, m ∈ vrm_mesh_refs vrm → mesh_unresolved obj m →
            skin_id m = 0 ∧ mesh_warning m ∈ run.2)).
Proof.
  intros run node_id skin_id.
  split; [apply map_node_unresolved |].
  split; [intros elements Hun; apply map_mesh_unresolved; [done | by left] |].
  split; [apply export_returns |].
  intros wire Hwire.
  destruct (export_fields obj vrm wire Hwire)
    as (Hblend & Hhumanoid & Hfirst & Hmats & Hmeta & Hsec).
  split; [exact Hblend |]. split; [exact Hhumanoid |]. split; [exact Hfirst |].
  split.
  { eapply Forall2_impl; [exact Hmats |]. intros mat mat' Hconv. cbv beta in Hconv.
    pose proof Hconv as Hinv.
    apply _convert_material_Normal_inv in Hinv as (texProp & _ & Hmat').
    rewrite Hmat' at 1 2 3 4 5 6 7.
    do 7 (split; [reflexivity |]).
    intros Hnd. by rewrite (export_material obj mat mat' Hconv Hnd). }
  split; [exact Hmeta |]. split; [exact Hsec |]. split.
  - intros r Hr Hnone. split; [unfold node_id; by rewrite Hnone |].
    destruct (convert_vrm_Normal_node (ref_to_id obj) vrm wire r Hwire Hr) as [_ Hlog].
    apply Hlog. rewrite (map_node_unresolved obj r Hnone). left.
  - intros m Hm Hun.
    destruct (convert_vrm_Normal_mesh (ref_to_id obj) vrm wire m Hwire Hm)
      as [[x Hx] Hlog].
    pose proof (map_mesh_unresolved_Normal obj m x Hun Hx) as Heq.
    split; [unfold skin_id; by rewrite Heq |].
    apply Hlog. rewrite Heq. left.
Qed.

Lemma X23_export_falls_back_on_unresolved_references_witness :
  ∃ wire,
    (convert_vrm (ref_to_id sample_obj) sample_vrm).1 = Normal wire
    ∧ HumanoidBone.node <$> Humanoid.humanBones (Vrm.humanoid wire) = [1; 0]
    ∧ node_warning 9%nat ∈ (convert_vrm (ref_to_id sample_obj) sample_vrm).2.
Proof.
  destruct (X23_export_falls_back_on_unresolved_references sample_obj sample_vrm)
    as (_ & _ & _ & Hfields).
  eexists. split; [reflexivity |].
  destruct (Hfields _ eq_refl) as (_ & Hhumanoid & _ & _ & _ & _ & Hnodes & _).
  split; [by rewrite Hhumanoid |].
  apply (Hnodes 9%nat); [| reflexivity]. cbn. right. right. left.
Defined.

(** * Further properties of the export and import pipelines *)

Lemma set_add_all_sublist (l s : list string) :
  ∃ t, set_add_all s l = s ++ t ∧ t `sublist_of` l.
Proof.
  revert s. induction l as [| x l IH]; intros s; cbn [set_add_all].
  - exists []. split; [by rewrite app_nil_r | constructor].
  - case_bool_decide.
    + destruct (IH s) as (t & -> & Ht). exists t. split; [done |].
      by apply sublist_cons.
    + destruct (IH (s ++ [x])) as (t & -> & Ht). exists (x :: t).
      split; [by rewrite <- app_assoc |]. by apply sublist_skip.
Qed.

(** [new Set] keeps the first occurrence of every element, in order. *)
Lemma set_add_all_first_occurrences (l s : list string) :
  set_add_all s l = s ++ filter (λ y, y ∉ s) (first_occurrences l).
Proof.
  revert s. induction l as [| x l IH]; intros s; cbn [set_add_all first_occurrences].
  - by rewrite filter_nil, app_nil_r.
  - rewrite IH. case_bool_decide as Hx.
    + rewrite filter_cons_False by auto. f_equal.
      rewrite list_filter_filter. apply list_filter_iff. intros y.
      split; [| tauto]. intros Hy. split; [done |]. by intros ->.
    + rewrite filter_cons_True by done. rewrite <- app_assoc. cbn [app]. do 2 f_equal.
      rewrite list_filter_filter. apply list_filter_iff. intros y.
      rewrite not_elem_of_app, list_elem_of_singleton. tauto.
Qed.

Lemma Array_from_Set_first_occurrences (l : list string) :
  Array_from_Set l = first_occurrences l.
Proof.
  unfold Array_from_Set. rewrite set_add_all_first_occurrences. cbn [app].
  induction (first_occurrences l) as [| x t IH]; [done |].
  rewrite filter_cons_True by apply not_elem_of_nil. by rewrite IH.
Qed.

Lemma filter_lookup_order {A : Type} (P : A → Prop) `{!∀ x, Decision (P x)}
    (l : list A) (i j : nat) (x y : A) :
  filter P l !! i = Some x → filter P l !! j = Some y → (i < j)%nat →
  P y ∧ ∃ i0 j0 : nat, (i0 < j0)%nat ∧ l !! i0 = Some x ∧ l !! j0 = Some y.
Proof.
  revert i j. induction l as [| a l IH]; intros i j Hi Hj Hlt; [done |].
  destruct (decide (P a)) as [Ha | Ha].
  - rewrite filter_cons_True in Hi, Hj by done.
    destruct j as [| j]; [lia |]. cbn in Hj.
    destruct i as [| i].
    + injection Hi as <-.
      assert (Hy : y ∈ filter P l) by (by eapply list_elem_of_lookup_2).
      apply list_elem_of_filter in Hy as [HPy Hy].
      apply list_elem_of_lookup in Hy as [j0 Hj0].
      split; [done |]. exists 0%nat, (S j0). split; [lia | done].
    + cbn in Hi. destruct (IH i j Hi Hj) as (HPy & i0 & j0 & Hlt0 & Hi0 & Hj0); [lia |].
      split; [done |]. exists (S i0), (S j0). split; [lia | done].
  - rewrite filter_cons_False in Hi, Hj by done.
    destruct (IH i j Hi Hj Hlt) as (HPy & i0 & j0 & Hlt0 & Hi0 & Hj0).
    split; [done |]. exists (S i0), (S j0). split; [lia | done].
Qed.

(** In [first_occurrences l] an element comes before another exactly as
    its first occurrence in [l] comes before every occurrence of the
    other. *)
Lemma first_occurrences_order (l : list string) (i j : nat) (x y : string) :
  first_occurrences l !! i = Some x → first_occurrences l !! j = Some y →
  (i < j)%nat →
  ∃ i' : nat, l !! i' = Some x ∧ ∀ j' : nat, l !! j' = Some y → (i' < j')%nat.
Proof.
  revert i j x y. induction l as [| a l IH]; intros i j x y Hi Hj Hlt; [done |].
  cbn [first_occurrences] in Hi, Hj.
  destruct j as [| j]; [lia |]. cbn in Hj.
  destruct i as [| i].
  - injection Hi as <-. exists 0%nat. split; [done |].
    assert (Hy : y ∈ filter (λ y, y ≠ a) (first_occurrences l))
      by (by eapply list_elem_of_lookup_2).
    apply list_elem_of_filter in Hy as [Hne _].
    intros [| j'] Hj'; [| lia]. injection Hj' as ->. done.
  - cbn in Hi.
    destruct (filter_lookup_order _ _ i j x y Hi Hj) as (Hne & i0 & j0 & Hlt0 & Hi0 & Hj0);
      [lia |].
    destruct (IH i0 j0 x y Hi0 Hj0 Hlt0) as (i' & Hi' & Hfirst).
    exists (S i'). split; [done |].
    intros [| j'] Hj'; [by injection Hj' as -> |].
    specialize (Hfirst j' Hj'). lia.
Qed.

Lemma first_occurrences_NoDup (l : list string) : NoDup (first_occurrences l).
Proof.
  rewrite <- Array_from_Set_first_occurrences. unfold Array_from_Set.
  apply set_add_all_NoDup, NoDup_nil_2.
Qed.

Lemma first_occurrences_elem_of (l : list string) (x : string) :
  x ∈ first_occurrences l ↔ x ∈ l.
Proof.
  rewrite <- Array_from_Set_first_occurrences. unfold Array_from_Set.
  rewrite set_add_all_elem_of, elem_of_nil. tauto.
Qed.

(** X11. [attach_vrm_extension] leaves the buffers, the node map, the
    skins, the declared buffers, the other keys of the document and the
    other extensions as they were, whatever "VRM" entry the document had
    before and whether it returns or throws; and attaching the same
    document a second time changes nothing more: the object, the
    completion and the console output are those of the first run. *)
Theorem X11_attach_preserves_and_is_idempotent
    (vrm : Vrm.t three_object mesh_reference three_object)
    (obj : gltf_and_buffers) :
  let once := (attach_vrm_extension vrm obj).1 in
  buffers once = buffers obj
  ∧ nodeMap once = nodeMap obj
  ∧ skins once = skins obj
  ∧ json_buffers (json once) = json_buffers (json obj)
  ∧ json_other (json once) = json_other (json obj)
  ∧ other_extensions <$> extensions (json once)
    = Some (default ∅ (other_extensions <$> extensions (json obj)))
  ∧ attach_vrm_extension vrm once = attach_vrm_extension vrm obj.
Proof.
  intros once. unfold once, attach_vrm_extension. cbv zeta.
  destruct (convert_vrm (ref_to_id obj) vrm).1 as [wire | msg |] eqn:Hwire;
    cbn [fst snd json buffers nodeMap skins json_buffers json_other extensions
         extensionsUsed other_extensions default fmap option_fmap option_map];
    (do 5 (split; [reflexivity |]));
    (split; [by destruct (extensions (json obj)) |]);
    erewrite (ref_to_id_ext obj) by reflexivity; rewrite Hwire;
    cbn [fst snd json buffers nodeMap skins json_buffers json_other extensions
         extensionsUsed other_extensions default VRM]; unfold id;
    cbn [other_extensions].
  - by rewrite Array_from_Set_idempotent.
  - reflexivity.
  - reflexivity.
Qed.

(** X12. What [attach_vrm_extension], when it returns, makes of the
    "extensions used" list: "VRM" followed by the first occurrence of
    every other name that was declared, in order. So "VRM" comes first, no
    name is repeated, every name that was declared is still declared and
    nothing else is, and a name precedes another exactly as its first
    occurrence preceded every occurrence of the other; a list without
    duplicates that does not name "VRM" just gets "VRM" in front. *)
Theorem X12_extensionsUsed_keeps_declared_names
    (vrm : Vrm.t three_object mesh_reference three_object)
    (obj once : gltf_and_buffers) (log : list console_entry) :
  attach_vrm_extension vrm obj = (once, (Normal tt, log)) →
  let old := default [] (extensionsUsed (json obj)) in
  ∃ rest,
    extensionsUsed (json once) = Some ("VRM" :: rest)
    ∧ "VRM" :: rest = first_occurrences ("VRM" :: old)
    ∧ NoDup ("VRM" :: rest)
    ∧ (∀ x, x ∈ rest ↔ x ≠ "VRM" ∧ x ∈ old)
    ∧ (∀ (i j : nat) x y,
         rest !! i = Some x → rest !! j = Some y → (i < j)%nat →
         ∃ i' : nat, old !! i' = Some x
                     ∧ ∀ j' : nat, old !! j' = Some y → (i' < j')%nat)
    ∧ (NoDup old → "VRM" ∉ old → rest = old).
Proof.
  intros (wire & _ & _ & ->)%attach_vrm_extension_Normal_inv old.
  cbn [json extensionsUsed]. fold old.
  exists (filter (λ y, y ≠ "VRM") (first_occurrences old)).
  assert (Hused : Array_from_Set ("VRM" :: old)
                  = "VRM" :: filter (λ y, y ≠ "VRM") (first_occurrences old))
    by (by rewrite Array_from_Set_first_occurrences).
  split; [by rewrite Hused |]. split; [reflexivity |].
  split; [rewrite <- Hused; unfold Array_from_Set; apply set_add_all_NoDup, NoDup_nil_2 |].
  split; [| split].
  - intros x. rewrite list_elem_of_filter, first_occurrences_elem_of. tauto.
  - intros i j x y Hi Hj Hlt.
    destruct (filter_lookup_order _ _ i j x y Hi Hj Hlt)
      as (_ & i0 & j0 & Hlt0 & Hi0 & Hj0).
    by apply (first_occurrences_order old i0 j0).
  - intros Hnd Hfresh.
    assert (Hall : set_add_all ["VRM"] old = ["VRM"] ++ old).
    { apply set_add_all_fresh. cbn. apply NoDup_cons. done. }
    unfold Array_from_Set in Hused. cbn [set_add_all] in Hused.
    rewrite bool_decide_eq_false_2 in Hused by apply not_elem_of_nil.
    cbn [app] in Hused. rewrite Hall in Hused. by injection Hused as <-.
Qed.

Lemma X12_extensionsUsed_keeps_declared_names_witness :
  ∃ once log,
    attach_vrm_extension sample_vrm sample_declared_obj = (once, (Normal tt, log))
    ∧ extensionsUsed (json once)
      = Some ["VRM"; "KHR_materials_unlit"; "KHR_texture_transform"].
Proof.
  eexists _, _. split; [reflexivity |].
  edestruct (X12_extensionsUsed_keeps_declared_names sample_vrm sample_declared_obj)
    as (rest & Hused & Hrest & _); [reflexivity |].
  rewrite Hused, Hrest. reflexivity.
Defined.

(** No document that a conversion returns has a texture property named
    [size] or [__proto__]. *)
Lemma convert_vrm_Normal_keys {N M T N' M' T' : Type} `{!JsKind T'}
    (this : VrmExtensionMapper N M T N' M' T') (vrm : Vrm.t N M T)
    (out : Vrm.t N' M' T') :
  (convert_vrm this vrm).1 = Normal out →
  no_texture_key "size" out ∧ no_texture_key "__proto__" out.
Proof.
  intros Hout.
  apply convert_vrm_Normal_inv in Hout
    as (groups & humanBones & firstPersonBone & meshAnnotations & mats
        & _ & _ & _ & _ & Hmats & ->).
  apply Exec_mapM_Normal_inv in Hmats.
  assert (Hmat : ∀ mat', mat' ∈ mats →
            ("size" ∉ (MaterialProperties.textureProperties mat').*1)
            ∧ ("__proto__" ∉ (MaterialProperties.textureProperties mat').*1)).
  { intros mat' Hmat'. apply list_elem_of_lookup in Hmat' as [i Hi].
    destruct (Forall2_lookup_r _ _ _ _ _ Hmats Hi) as (mat & _ & Hconv).
    apply _convert_material_Normal_inv in Hconv as (texProp & Hloop & ->).
    destruct (_convert_material_loop_Normal_keys this _ _ _ Hloop) as [Hsize Hproto].
    split; [apply Hsize | apply Hproto]; apply not_elem_of_nil. }
  split; intros mat' Hmat'; by apply Hmat.
Qed.

(** X13. The import accepts what the export attaches: on the document
    that [attach_vrm_extension] has returned, [parse_vrm] does not throw
    and converts the attached wire document (the added [exporterVersion]
    is not read), writing its two logs and nothing else. On a document
    without [extensions], or whose [extensions] has no "VRM" entry, it
    throws after its first log. *)
Theorem X13_parse_vrm_after_attach (nodes : list three_object)
    (meshes : list (list three_object)) (textures : list three_object) :
  let parsing := ConsoleEntry level_log "Parsing glTF as VRM" ArgObjects in
  (∀ (vrm : Vrm.t three_object mesh_reference three_object)
      (obj once : gltf_and_buffers) (log : list console_entry),
      attach_vrm_extension vrm obj = (once, (Normal tt, log)) →
      ∃ wire back,
        (convert_vrm (ref_to_id obj) vrm).1 = Normal wire
        ∧ VRM <$> extensions (json once)
          = Some (Some {| ext_vrm := wire; exporterVersion := JString "me/v" |})
        ∧ convert_vrm (ref_to_real nodes meshes textures) wire = (Normal back, [])
        ∧ parse_vrm nodes meshes textures (json once)
          = (Normal back, [parsing; ConsoleEntry level_log "" ArgObjects]))
  ∧ (∀ doc, extensions doc = None →
        ∃ msg, parse_vrm nodes meshes textures doc = (Throws msg, [parsing]))
  ∧ (∀ doc exts, extensions doc = Some exts → VRM exts = None →
        ∃ msg, parse_vrm nodes meshes textures doc = (Throws msg, [parsing])).
Proof.
  intros parsing. split; [| split].
  - intros vrm obj once log (wire & Hwire & _ & ->)%attach_vrm_extension_Normal_inv.
    destruct (convert_vrm_Normal_keys _ _ _ Hwire) as [Hsize Hproto].
    destruct (import_returns nodes meshes textures wire Hsize Hproto) as [back Hback].
    exists wire, back. split; [done |]. split; [reflexivity |]. split; [done |].
    unfold parse_vrm, parse_vrm_resolved.
    cbn [json extensions VRM ext_vrm]. by rewrite Hback.
  - intros doc Hnone. unfold parse_vrm, parse_vrm_resolved. rewrite Hnone. by eexists.
  - intros doc exts Hexts Hvrm. unfold parse_vrm, parse_vrm_resolved.
    rewrite Hexts, Hvrm. by eexists.
Qed.

Lemma X13_parse_vrm_after_attach_witness :
  ∃ once log,
    attach_vrm_extension sample_vrm sample_obj = (once, (Normal tt, log))
    ∧ ∃ back,
        parse_vrm sample_nodes sample_meshes sample_textures (json once)
        = (Normal back,
           [ConsoleEntry level_log "Parsing glTF as VRM" ArgObjects;
            ConsoleEntry level_log "" ArgObjects]).
Proof.
  destruct (X13_parse_vrm_after_attach sample_nodes sample_meshes sample_textures)
    as (Hattached & _).
  eexists _, _. split; [reflexivity |].
  edestruct (Hattached sample_vrm sample_obj) as (wire & back & _ & _ & _ & Hparse);
    [reflexivity |].
  exists back. exact Hparse.
Defined.

Section Pipeline.
Variable JSON_stringify_utf8 : gltf_json → list Z.

(** X14. The whole export after the scene exporter. [serialize_vrm] logs
    the exporter result, then attaches. When the conversion returns and
    the document declares a first buffer, it returns a container laid out
    from the merged buffers and from a document that carries the converted
    extension under "VRM", names "VRM" among the extensions used and
    records the merged size in its first buffer entry; when the document
    declares no buffer, the export throws, after the conversion has run
    and written its warnings. When the conversion throws, the export
    throws the same error and no container is laid out. The conversion
    returns exactly when no texture property is named [size] and either
    the exporter has no skin or no mesh reference is missing. *)
Theorem X14_serialize_vrm_end_to_end
    (vrm : Vrm.t three_object mesh_reference three_object)
    (obj : gltf_and_buffers) :
  let converted := convert_vrm (ref_to_id obj) vrm in
  let result := serialize_vrm JSON_stringify_utf8 vrm obj in
  result.2
  = ConsoleEntry level_log "" ArgObjects
    :: ConsoleEntry level_log "Attaching VRM" ArgObjects :: converted.2
  ∧ (∀ wire b0 bs,
       converted.1 = Normal wire →
       json_buffers (json obj) = Some (b0 :: bs) →
       ∃ glb doc used,
         result.1 = Normal (glb, doc)
         ∧ glb = glb_bytes JSON_stringify_utf8 (concat (buffers obj)) doc
         ∧ VRM <$> extensions doc
           = Some (Some {| ext_vrm := wire; exporterVersion := JString "me/v" |})
         ∧ extensionsUsed doc = Some used ∧ "VRM" ∈ used
         ∧ json_buffers doc
           = Some ({| Buffer.byteLength := byteLength (concat (buffers obj));
                      Buffer.other := Buffer.other b0 |} :: bs))
  ∧ (∀ wire,
       converted.1 = Normal wire →
       json_buffers (json obj) = None ∨ json_buffers (json obj) = Some [] →
       ∃ msg, result.1 = Throws msg)
  ∧ (∀ msg, converted.1 = Throws msg → result.1 = Throws msg)
  ∧ ((∃ wire, converted.1 = Normal wire)
     ↔ no_texture_key "size" vrm ∧ (skins obj = [] ∨ no_missing_mesh vrm))
  ∧ ((∃ wire, converted.1 = Normal wire) ∨ ∃ msg, converted.1 = Throws msg).
Proof.
  intros converted result.
  assert (Hlog : result.2
                 = ConsoleEntry level_log "" ArgObjects
                   :: ConsoleEntry level_log "Attaching VRM" ArgObjects :: converted.2).
  { unfold result, serialize_vrm, attach_vrm_extension. cbv zeta.
    fold converted. destruct converted.1; cbn [fst snd]; [| done | done].
    by destruct (serialize_glb _ _). }
  split; [exact Hlog |]. split; [| split; [| split; [| split]]].
  - intros wire b0 bs Hwire Hdecl.
    unfold result, serialize_vrm, attach_vrm_extension. cbv zeta.
    fold converted. rewrite Hwire. cbn [fst snd].
    unfold serialize_glb, set_first_byteLength. cbn [json json_buffers buffers].
    rewrite Hdecl. eexists _, _, _. split; [reflexivity |].
    split; [reflexivity |]. split; [reflexivity |]. split; [reflexivity |].
    split; [| reflexivity].
    unfold Array_from_Set. apply set_add_all_elem_of. right. left.
  - intros wire Hwire Hnone.
    unfold result, serialize_vrm, attach_vrm_extension. cbv zeta.
    fold converted. rewrite Hwire. cbn [fst snd].
    unfold serialize_glb, set_first_byteLength. cbn [json json_buffers buffers].
    destruct Hnone as [-> | ->]; by eexists.
  - intros msg Hmsg.
    unfold result, serialize_vrm, attach_vrm_extension. cbv zeta.
    fold converted. by rewrite Hmsg.
  - apply export_returns.
  - destruct converted.1 as [wire | msg |] eqn:Hrun.
    + left. by exists wire.
    + right. by exists msg.
    + by destruct (export_not_PrototypeReplaced obj vrm).
Qed.

End Pipeline.

Lemma X14_serialize_vrm_end_to_end_witness :
  ∃ glb doc,
    (serialize_vrm sample_stringify sample_vrm sample_obj).1 = Normal (glb, doc)
    ∧ json_buffers doc = Some [ {| Buffer.byteLength := 5; Buffer.other := [] |} ].
Proof.
  destruct (X14_serialize_vrm_end_to_end sample_stringify sample_vrm sample_obj)
    as (_ & Hok & _).
  edestruct (Hok _ {| Buffer.byteLength := 0; Buffer.other := [] |} [] eq_refl eq_refl)
    as (glb & doc & used & Hret & _ & _ & _ & _ & Hbuf).
  exists glb, doc. split; [exact Hret | exact Hbuf].
Defined.

Lemma array_get_resolve_all {A : Type} (n : nat) (getDependency : nat → A) (id : Z) :
  array_get (resolve_all n getDependency) id
  = if bool_decide (0 ≤ id < Z.of_nat n) then Some (getDependency (Z.to_nat id))
    else None.
Proof.
  unfold array_get, resolve_all. rewrite list_lookup_fmap.
  case_bool_decide as Hid; case_bool_decide as Hrange; try lia.
  - by rewrite lookup_seq_lt by lia.
  - by rewrite lookup_seq_ge by lia.
  - done.
Qed.

(** X15. [parse_vrm] resolves an index of the extension to the object that
    the loader gives for that very index: with [json.nodes] and
    [json.meshes] present, the conversion runs with arrays that hold, at
    each index below the length of the corresponding [json] array, the
    dependency of that index, and nothing elsewhere; an absent
    [json.textures] is an empty array, so that every texture is undefined.
    An absent [json.nodes] or [json.meshes] makes it throw, after its
    first log. *)
Theorem X15_parse_vrm_resolves_through_loader (parser : GLTFParser) :
  let parsing := ConsoleEntry level_log "Parsing glTF as VRM" ArgObjects in
  (json_nodes_length parser = None →
     ∃ msg, parse_vrm_with_loader parser = (Throws msg, [parsing]))
  ∧ (json_meshes_length parser = None →
     ∃ msg, parse_vrm_with_loader parser = (Throws msg, [parsing]))
  ∧ (∀ n_nodes n_meshes,
       json_nodes_length parser = Some n_nodes →
       json_meshes_length parser = Some n_meshes →
       ∃ nodes meshes textures,
         parse_vrm_with_loader parser
         = parse_vrm nodes meshes textures (parser_json parser)
         ∧ (∀ id, array_get nodes id
                  = if bool_decide (0 ≤ id < Z.of_nat n_nodes)
                    then Some (getDependency_node parser (Z.to_nat id)) else None)
         ∧ (∀ id, array_get meshes id
                  = if bool_decide (0 ≤ id < Z.of_nat n_meshes)
                    then Some (getDependency_mesh parser (Z.to_nat id)) else None)
         ∧ (∀ id, array_get textures id
                  = if bool_decide
                         (0 ≤ id < Z.of_nat (default 0%nat (json_textures_length parser)))
                    then Some (getDependency_texture parser (Z.to_nat id)) else None)).
Proof.
  intros parsing. unfold parse_vrm_with_loader. split; [| split].
  - intros ->. by eexists.
  - intros ->. destruct (json_nodes_length parser); by eexists.
  - intros n_nodes n_meshes -> ->. eexists _, _, _. split; [reflexivity |].
    split; [| split]; intros id; apply array_get_resolve_all.
Qed.

Lemma X15_parse_vrm_resolves_through_loader_witness :
  ∃ nodes meshes textures,
    parse_vrm_with_loader
      {| json_nodes_length := Some 2%nat;
         json_meshes_length := Some 3%nat;
         json_textures_length := None;
         getDependency_node := λ id, (7 + id)%nat;
         getDependency_mesh := λ id, [(20 + id)%nat];
         getDependency_texture := λ id, (30 + id)%nat;
         parser_json := sample_json |}
    = parse_vrm nodes meshes textures sample_json
    ∧ array_get nodes 1 = Some 8%nat
    ∧ array_get textures 0 = None.
Proof.
  destruct (X15_parse_vrm_resolves_through_loader
              {| json_nodes_length := Some 2%nat;
                 json_meshes_length := Some 3%nat;
                 json_textures_length := None;
                 getDependency_node := λ id, (7 + id)%nat;
                 getDependency_mesh := λ id, [(20 + id)%nat];
                 getDependency_texture := λ id, (30 + id)%nat;
                 parser_json := sample_json |})
    as (_ & _ & Hok).
  destruct (Hok 2%nat 3%nat eq_refl eq_refl)
    as (nodes & meshes & textures & Hparse & Hnodes & _ & Htextures).
  exists nodes, meshes, textures. split; [exact Hparse |].
  split; [apply Hnodes | apply Htextures].
Defined.

(** * Properties of the editor's view model *)

Lemma is_string_true (name : string) (v : js_value) :
  is_string name v = true ↔ v = JString name.
Proof.
  destruct v; cbn; try (split; [discriminate | congruence]).
  rewrite bool_decide_eq_true. split; [by intros -> | by intros [= ->]].
Qed.

Section EmotionGroupsFacts.
Context {W : Type}.
Implicit Types (blendshapes : list (Blendshape.t W)) (bs : Blendshape.t W).

Lemma nameToBlendshape_get_last blendshapes (name : string) pre bs post :
  blendshapes = pre ++ bs :: post →
  Blendshape.presetName bs = JString name →
  (∀ b, b ∈ post → Blendshape.presetName b ≠ JString name) →
  nameToBlendshape_get blendshapes name = Some bs.
Proof.
  intros -> Hbs Hpost. unfold nameToBlendshape_get.
  rewrite List.filter_app. cbn [List.filter].
  rewrite (proj2 (is_string_true name _) Hbs).
  assert (Hnone : List.filter (λ b, is_string name (Blendshape.presetName b)) post = []).
  { induction post as [| b post IH]; [done |]. cbn [List.filter].
    destruct (is_string name (Blendshape.presetName b)) eqn:Hb.
    - apply is_string_true in Hb. destruct (Hpost b); [left | done].
    - apply IH. intros b' Hb'. apply Hpost. by right. }
  rewrite Hnone. apply last_snoc.
Qed.

Lemma nameToBlendshape_get_None blendshapes (name : string) :
  (∀ b, b ∈ blendshapes → Blendshape.presetName b ≠ JString name) →
  nameToBlendshape_get blendshapes name = None.
Proof.
  intros Hnone. unfold nameToBlendshape_get.
  assert (List.filter (λ b, is_string name (Blendshape.presetName b)) blendshapes = [])
    as ->; [| done].
  induction blendshapes as [| b l IH]; [done |]. cbn [List.filter].
  destruct (is_string name (Blendshape.presetName b)) eqn:Hb.
  - apply is_string_true in Hb. destruct (Hnone b); [left | done].
  - apply IH. intros b' Hb'. apply Hnone. by right.
Qed.

Lemma emotionGroups_unknown_fst blendshapes (unknownGroup : list (Emotion.t W)) :
  (emotionGroups_unknown blendshapes unknownGroup).1
  = unknownGroup
    ++ (emotion_of
          <$> List.filter (λ bs, negb (knownNames_has (Blendshape.presetName bs)))
                blendshapes).
Proof.
  revert unknownGroup.
  induction blendshapes as [| bs l IH]; intros unknownGroup; cbn [List.filter].
  - cbn. by rewrite app_nil_r.
  - cbn [emotionGroups_unknown].
    destruct (knownNames_has (Blendshape.presetName bs)); cbn [negb].
    + apply IH.
    + rewrite Console_bind_fst, IH. cbn [fmap list_fmap]. by rewrite <- app_assoc.
Qed.

Lemma emotionGroups_fst blendshapes :
  (emotionGroups false blendshapes).1
  = ((λ defaultGroupDef : list string,
        (λ name, (emotionGroups_default blendshapes name).1) <$> defaultGroupDef)
       <$> EMOTION_PRESET_GROUPING)
    ++ match (emotion_of
                <$> List.filter
                      (λ bs, negb (knownNames_has (Blendshape.presetName bs)))
                      blendshapes : list (Emotion.t W)) with
       | [] => []
       | unknownGroup => [unknownGroup]
       end.
Proof.
  unfold emotionGroups.
  rewrite Console_bind_fst, Console_bind_fst.
  rewrite emotionGroups_unknown_fst, app_nil_l, Console_mapM_fst.
  assert (Hinner :
    (λ defaultGroupDef : list string,
       (mapM (emotionGroups_default blendshapes) defaultGroupDef).1)
      <$> EMOTION_PRESET_GROUPING
    = (λ defaultGroupDef : list string,
         (λ name, (emotionGroups_default blendshapes name).1) <$> defaultGroupDef)
        <$> EMOTION_PRESET_GROUPING).
  { apply list_fmap_ext. intros _ d _. apply Console_mapM_fst. }
  rewrite Hinner.
  destruct (emotion_of <$> List.filter _ blendshapes) as [| e l].
  - rewrite bool_decide_eq_false_2 by (cbn; lia). by rewrite app_nil_r.
  - rewrite bool_decide_eq_true_2 by (cbn; lia). reflexivity.
Qed.

(** X16. The layout of [emotionGroups] for a loaded model. The first
    five groups are those of the preset table, with 1, 5, 4, 3 and 4
    entries whatever the model holds; then, if the model has any
    blendshape whose preset name is not in the vocabulary, comes one more
    group with exactly those blendshapes in their order (their id, label
    and weights as they are), be their preset name "unknown" or anything
    else; a blendshape with a known preset name is never in that group. *)
Theorem X16_emotionGroups_layout blendshapes :
  let unknown : list (Emotion.t W) :=
    emotion_of
      <$> List.filter (λ bs, negb (knownNames_has (Blendshape.presetName bs)))
            blendshapes in
  ∃ defaults,
    (emotionGroups false blendshapes).1
    = defaults ++ match unknown with [] => [] | _ => [unknown] end
    ∧ length <$> defaults = [1; 5; 4; 3; 4]%nat
    ∧ (emotionGroups true blendshapes) = ([], []).
Proof.
  intros unknown.
  exists ((λ defaultGroupDef : list string,
             (λ name, (emotionGroups_default blendshapes name).1) <$> defaultGroupDef)
            <$> EMOTION_PRESET_GROUPING).
  split; [| split; reflexivity].
  rewrite emotionGroups_fst. fold unknown. by destruct unknown.
Qed.

(** X17. The entry of a preset name in its group. A blendshape with
    that preset name that no later blendshape shares gives the entry (so
    of several blendshapes with one preset name only the last is shown);
    when no blendshape has the name, the entry is a placeholder with the
    name as id, the label of the table and no weights, and a warning that
    names the preset is written. *)
Theorem X17_emotionGroups_last_blendshape_wins blendshapes (gi ni : nat)
    (defaultGroupDef : list string) (name : string)
    (Hgroup : EMOTION_PRESET_GROUPING !! gi = Some defaultGroupDef)
    (Hname : defaultGroupDef !! ni = Some name) :
  ∃ group entry,
    (emotionGroups false blendshapes).1 !! gi = Some group
    ∧ group !! ni = Some entry
    ∧ (∀ pre bs post,
         blendshapes = pre ++ bs :: post →
         Blendshape.presetName bs = JString name →
         (∀ b, b ∈ post → Blendshape.presetName b ≠ JString name) →
         entry = emotion_of bs)
    ∧ ((∀ b, b ∈ blendshapes → Blendshape.presetName b ≠ JString name) →
         entry = {| Emotion.id := JString name;
                    Emotion.label := preset_label name;
                    Emotion.weightConfigs := [] |}
         ∧ ConsoleEntry level_warn
             (String.append "The VRM is missing standard blendshape preset: "
                (String.append name ". Creating new one."))
             ArgObjects
           ∈ (emotionGroups false blendshapes).2).
Proof.
  exists ((λ n, (emotionGroups_default blendshapes n).1) <$> defaultGroupDef),
         (emotionGroups_default blendshapes name).1.
  split.
  { rewrite emotionGroups_fst. rewrite lookup_app_l.
    - by rewrite list_lookup_fmap, Hgroup.
    - rewrite length_fmap. by eapply lookup_lt_Some. }
  split; [by rewrite list_lookup_fmap, Hname |].
  split.
  - intros pre bs post Hsplit Hbs Hpost. unfold emotionGroups_default.
    by rewrite (nameToBlendshape_get_last _ _ _ _ _ Hsplit Hbs Hpost).
  - intros Hnone.
    assert (Hdefault :
      emotionGroups_default blendshapes name
      = ({| Emotion.id := JString name;
            Emotion.label := preset_label name;
            Emotion.weightConfigs := [] |},
         [ConsoleEntry level_warn
            (String.append "The VRM is missing standard blendshape preset: "
               (String.append name ". Creating new one."))
            ArgObjects])).
    { unfold emotionGroups_default.
      by rewrite (nameToBlendshape_get_None _ _ Hnone). }
    split; [by rewrite Hdefault |].
    unfold emotionGroups. rewrite Console_bind_snd. apply elem_of_app. left.
    apply (Console_mapM_log_elem_of _ _ defaultGroupDef);
      [by eapply list_elem_of_lookup_2 |].
    apply (Console_mapM_log_elem_of _ _ name); [by eapply list_elem_of_lookup_2 |].
    rewrite Hdefault. left.
Qed.

End EmotionGroupsFacts.

Lemma X17_emotionGroups_last_blendshape_wins_witness :
  ∃ group,
    (emotionGroups false
       [ {| Blendshape.id := JString "first"; Blendshape.label := JString "喜";
            Blendshape.presetName := JString "joy";
            Blendshape.weightConfigs := [1%nat] |};
         {| Blendshape.id := JString "second"; Blendshape.label := JString "喜";
            Blendshape.presetName := JString "joy";
            Blendshape.weightConfigs := [2%nat] |} ]).1 !! 2%nat = Some group
    ∧ group !! 0%nat
      = Some {| Emotion.id := JString "second"; Emotion.label := JString "喜";
                Emotion.weightConfigs := [2%nat] |}.
Proof.
  destruct (X17_emotionGroups_last_blendshape_wins
              [ {| Blendshape.id := JString "first"; Blendshape.label := JString "喜";
                   Blendshape.presetName := JString "joy";
                   Blendshape.weightConfigs := [1%nat] |};
                {| Blendshape.id := JString "second"; Blendshape.label := JString "喜";
                   Blendshape.presetName := JString "joy";
                   Blendshape.weightConfigs := [2%nat] |} ]
              2%nat 0%nat ["joy"; "angry"; "sorrow"; "fun"] "joy" eq_refl eq_refl)
    as (group & entry & Hgroup & Hentry & Hlast & _).
  exists group. split; [exact Hgroup |]. rewrite Hentry. f_equal.
  apply (Hlast
           [ {| Blendshape.id := JString "first"; Blendshape.label := JString "喜";
                Blendshape.presetName := JString "joy";
                Blendshape.weightConfigs := [1%nat] |} ]
           {| Blendshape.id := JString "second"; Blendshape.label := JString "喜";
              Blendshape.presetName := JString "joy";
              Blendshape.weightConfigs := [2%nat] |} []);
    [reflexivity | reflexivity |].
  intros b Hb. by apply elem_of_nil in Hb.
Defined.

Section SpringsFacts.
Variable JSON_stringify : js_value → js_value.

(** X18. The spring list of the editor and the documents of the mapper.
    [springs] throws on every document that [convert_vrm] has returned, in
    either direction, because such a document has an empty
    [secondaryAnimation] and [boneGroups] is read from it. On a document
    whose [secondaryAnimation] has both arrays it returns one string per
    bone group and collider group, in that order; when [colliderGroups] is
    missing it returns one entry more than there are bone groups, the last
    being [JSON.stringify(undefined)]; without a model it returns the
    empty list. *)
Theorem X18_springs_throws_on_converted_documents {N M T N' M' T' : Type}
    `{!JsKind T'} (this : VrmExtensionMapper N M T N' M' T') (vrm : Vrm.t N M T)
    (boneGroups colliderGroups : list js_value) :
  (∀ out, (convert_vrm this vrm).1 = Normal out →
     springs JSON_stringify (Some out)
     = TypeError "Cannot read properties of undefined (reading 'concat')")
  ∧ (∀ doc : Vrm.t N M T,
       Vrm.secondaryAnimation doc
       = JObject [("boneGroups", JArray boneGroups);
                  ("colliderGroups", JArray colliderGroups)] →
       springs JSON_stringify (Some doc)
       = Returned (JSON_stringify <$> boneGroups ++ colliderGroups))
  ∧ (∀ doc : Vrm.t N M T,
       Vrm.secondaryAnimation doc = JObject [("boneGroups", JArray boneGroups)] →
       springs JSON_stringify (Some doc)
       = Returned ((JSON_stringify <$> boneGroups) ++ [JSON_stringify JUndefined]))
  ∧ springs JSON_stringify (None : option (Vrm.t N M T)) = Returned [].
Proof.
  split; [| split; [| split; [| reflexivity]]].
  - intros out Hout.
    apply convert_vrm_Normal_inv in Hout as (? & ? & ? & ? & ? & _ & _ & _ & _ & _ & ->).
    reflexivity.
  - intros doc Hsec. unfold springs. rewrite Hsec. reflexivity.
  - intros doc Hsec. unfold springs. rewrite Hsec.
    change (Returned (JSON_stringify <$> boneGroups ++ [JUndefined])
            = Returned ((JSON_stringify <$> boneGroups) ++ [JSON_stringify JUndefined])).
    by rewrite fmap_app.
Qed.

End SpringsFacts.

Lemma X18_springs_throws_on_converted_documents_witness :
  springs (λ _, JString "{}") (Some sample_vrm) = Returned [JString "{}"]
  ∧ ∃ out,
      (convert_vrm (ref_to_id sample_obj) sample_vrm).1 = Normal out
      ∧ springs (λ _, JString "{}") (Some out)
        = TypeError "Cannot read properties of undefined (reading 'concat')".
Proof.
  destruct (X18_springs_throws_on_converted_documents (λ _, JString "{}")
              (ref_to_id sample_obj) sample_vrm
              [JObject [("stiffiness", JNumber 1)]] [])
    as (Hthrows & Hboth & _).
  split; [apply (Hboth sample_vrm); reflexivity |].
  eexists. split; [reflexivity |]. apply Hthrows. reflexivity.
Defined.



(** X20. Clicking an emotion twice opens its pane. Whatever the state,
    after two clicks on the same emotion the emotion pane is the one shown
    (with the back button, and neither the main nor the image pane), that
    emotion is the current one, and the renderer has been told at most
    once: by the first click, exactly when the emotion was not the current
    one already, in which case that click leaves the pane as it is. The
    back button then returns to the default pane, keeps the emotion and
    shows the main pane if a model is loaded. *)
Theorem X20_click_emotion_twice_opens_pane (data : vm_data) (emotionId : string) :
  let first := clickEmotion emotionId data in
  let second := clickEmotion emotionId first.1 in
  let back := clickBackButton second.1 in
  currentPane second.1 = PANE_MODE_EMOTION
  ∧ currentEmotionId second.1 = emotionId
  ∧ second.2 = []
  ∧ first.2 = (if bool_decide (currentEmotionId data = emotionId) then []
               else [setCurrentEmotionId emotionId; invalidateWeight])
  ∧ (currentEmotionId data ≠ emotionId → currentPane first.1 = currentPane data)
  ∧ showEmotionPane second.1 = true
  ∧ showMainPane second.1 = false
  ∧ showImagePane second.1 = false
  ∧ showBackButton second.1 = true
  ∧ showBackButton back.1 = false
  ∧ currentEmotionId back.1 = emotionId
  ∧ showMainPane back.1 = negb (vrmRoot_is_null data).
Proof.
  intros first second back. unfold back, second, first, clickEmotion.
  destruct (bool_decide (currentEmotionId data = emotionId)) eqn:Hcur.
  - apply bool_decide_eq_true_1 in Hcur.
    cbn [fst snd currentEmotionId]. rewrite Hcur.
    rewrite bool_decide_eq_true_2 by done.
    repeat split; try reflexivity. intros Hne. done.
  - cbn [fst snd currentEmotionId].
    rewrite bool_decide_eq_true_2 by done.
    repeat split; reflexivity.
Qed.

Lemma X20_click_emotion_twice_opens_pane_witness :
  currentPane
    (clickEmotion "joy"
       {| startedLoading := true; vrmRoot_is_null := false;
          currentPane := PANE_MODE_IMAGE; isFatalError := false;
          currentEmotionId := "neutral"; currentImageId := 3 |}).1
  = PANE_MODE_IMAGE.
Proof.
  destruct (X20_click_emotion_twice_opens_pane
              {| startedLoading := true; vrmRoot_is_null := false;
                 currentPane := PANE_MODE_IMAGE; isFatalError := false;
                 currentEmotionId := "neutral"; currentImageId := 3 |} "joy")
    as (_ & _ & _ & _ & Hkeep & _).
  apply Hkeep. discriminate.
Defined.

Lemma animate_frame_read_reset (n idx k : nat) :
  (0 < n ≤ idx)%nat → animate_frame_read n idx k = animate_frame_read n 0 k.
Proof.
  intros Hidx.
  assert (Hcur : animate_cursor n idx = animate_cursor n 0).
  { unfold animate_cursor.
    rewrite bool_decide_eq_true_2 by lia. by rewrite bool_decide_eq_false_2 by lia. }
  destruct k; cbn [animate_frame_read]; by rewrite Hcur.
Qed.

Lemma animate_frame_read_even (n k j : nat) :
  (0 < n)%nat → (j < (n + 1) / 2)%nat →
  animate_frame_read n (2 * j) k = (2 * ((j + k) mod ((n + 1) / 2)))%nat.
Proof.
  intros Hn. set (c := ((n + 1) / 2)%nat).
  assert (Hc : (n ≤ 2 * c ≤ n + 1)%nat).
  { unfold c. pose proof (Nat.div_mod_eq (n + 1) 2) as Hdm.
    pose proof (Nat.mod_upper_bound (n + 1) 2 ltac:(lia)). lia. }
  revert j. induction k as [| k IH]; intros j Hj.
  - cbn [animate_frame_read]. unfold animate_cursor.
    rewrite bool_decide_eq_false_2 by lia. cbn [fst].
    rewrite Nat.add_0_r. by rewrite Nat.mod_small by lia.
  - cbn [animate_frame_read]. unfold animate_cursor at 1.
    rewrite bool_decide_eq_false_2 by lia. cbn [snd].
    destruct (decide (j + 1 < c)%nat) as [Hlt | Hge].
    + replace (2 * j + 2)%nat with (2 * (j + 1))%nat by lia.
      rewrite IH by lia. do 2 f_equal. lia.
    + assert (j + 1 = c)%nat as Hjc by lia.
      rewrite animate_frame_read_reset by lia.
      change 0%nat with (2 * 0)%nat at 1. rewrite IH by lia.
      f_equal. rewrite Nat.add_0_l.
      replace (j + S k)%nat with (k + 1 * c)%nat by lia.
      by rewrite Nat.Div0.mod_add.
Qed.

(** X21. The motion cursor of [animate] with a fixed number [n] of
    frames, started at 0. The call number [k] reads the frame
    [2 * (k mod ceil(n/2))]: only frames of even index are ever read, the
    frame read always exists, and the sequence repeats after [ceil(n/2)]
    calls. With no frame at all every call reads index 0, where there is
    nothing. *)
Theorem X21_animate_cursor_cycle (n k : nat) (Hn : (0 < n)%nat) :
  animate_frame_read n 0 k = (2 * (k mod ((n + 1) / 2)))%nat
  ∧ (animate_frame_read n 0 k < n)%nat
  ∧ animate_frame_read n 0 (k + (n + 1) / 2) = animate_frame_read n 0 k
  ∧ ∀ idx, animate_frame_read 0 idx k = 0%nat.
Proof.
  assert (Hc : (0 < (n + 1) / 2 ∧ n ≤ 2 * ((n + 1) / 2) ≤ n + 1)%nat).
  { pose proof (Nat.div_mod_eq (n + 1) 2) as Hdm.
    pose proof (Nat.mod_upper_bound (n + 1) 2 ltac:(lia)). lia. }
  assert (Hread : ∀ k', animate_frame_read n 0 k'
                        = (2 * (k' mod ((n + 1) / 2)))%nat).
  { intros k'. change 0%nat with (2 * 0)%nat at 1.
    rewrite animate_frame_read_even by lia. reflexivity. }
  split; [apply Hread |]. split; [| split].
  - rewrite Hread.
    pose proof (Nat.mod_upper_bound k ((n + 1) / 2) ltac:(lia)). lia.
  - rewrite !Hread. f_equal.
    replace (k + (n + 1) / 2)%nat with (k + 1 * ((n + 1) / 2))%nat by lia.
    by rewrite Nat.Div0.mod_add.
  - induction k as [| k IH]; intros idx; cbn [animate_frame_read]; unfold animate_cursor;
      rewrite bool_decide_eq_true_2 by lia; [reflexivity | apply IH].
Qed.

Lemma X21_animate_cursor_cycle_witness :
  animate_frame_read 5 0 4 = 2%nat.
Proof.
  destruct (X21_animate_cursor_cycle 5 4 ltac:(lia)) as [Hread _].
  rewrite Hread. reflexivity.
Defined.

Section EmotionGroupsWarnings.
Context {W : Type}.
Implicit Types (blendshapes : list (Blendshape.t W)) (bs : Blendshape.t W).

Lemma emotionGroups_default_silent blendshapes (name : string) bs :
  bs ∈ blendshapes → Blendshape.presetName bs = JString name →
  (emotionGroups_default blendshapes name).2 = [].
Proof.
  intros Hbs Hname. unfold emotionGroups_default, nameToBlendshape_get.
  destruct (last _) as [b |] eqn:Hlast; [reflexivity |].
  apply last_None in Hlast.
  assert (Hin : In bs (List.filter
                         (λ b, is_string name (Blendshape.presetName b)) blendshapes)).
  { apply List.filter_In. split; [by apply list_elem_of_In |].
    by apply is_string_true. }
  rewrite Hlast in Hin. destruct Hin.
Qed.

Lemma emotionGroups_unknown_log_elem_of blendshapes
    (unknownGroup : list (Emotion.t W)) bs :
  bs ∈ blendshapes →
  knownNames_has (Blendshape.presetName bs) = false →
  is_string "unknown" (Blendshape.presetName bs) = false →
  ConsoleEntry level_warn
    "Non-comformant emotion preset name found, treating as 'unknown'" ArgObjects
  ∈ (emotionGroups_unknown blendshapes unknownGroup).2.
Proof.
  intros Hbs Hknown Hunknown. revert unknownGroup.
  induction Hbs as [bs l | bs b l Hbs IH]; intros unknownGroup;
    cbn [emotionGroups_unknown].
  - rewrite Hknown, Hunknown. cbv iota. rewrite Console_bind_snd.
    apply elem_of_app. left. left.
  - destruct (knownNames_has (Blendshape.presetName b)); [by apply IH |].
    rewrite Console_bind_snd. apply elem_of_app. right. by apply IH.
Qed.

Lemma emotionGroups_unknown_silent blendshapes (unknownGroup : list (Emotion.t W)) :
  (∀ bs, bs ∈ blendshapes →
     knownNames_has (Blendshape.presetName bs) = true
     ∨ Blendshape.presetName bs = JString "unknown") →
  (emotionGroups_unknown blendshapes unknownGroup).2 = [].
Proof.
  revert unknownGroup.
  induction blendshapes as [| bs l IH]; intros unknownGroup Hall; [reflexivity |].
  cbn [emotionGroups_unknown].
  assert (Hl : ∀ b, b ∈ l →
                 knownNames_has (Blendshape.presetName b) = true
                 ∨ Blendshape.presetName b = JString "unknown")
    by (intros b Hb; apply Hall; by right).
  destruct (knownNames_has (Blendshape.presetName bs)) eqn:Hknown; [by apply IH |].
  destruct (Hall bs) as [Hk | Hun]; [left | congruence |].
  rewrite Console_bind_snd, (IH _ Hl).
  by rewrite (proj2 (is_string_true "unknown" _) Hun).
Qed.

(** X22. The warnings of [emotionGroups]. Every blendshape whose preset
    name is neither in the vocabulary nor "unknown" draws the
    "non-conformant" warning, while it is shown in the last group all the
    same; and a model that has a blendshape for every preset of the
    vocabulary, and otherwise only blendshapes named "unknown", draws no
    warning at all. *)
Theorem X22_emotionGroups_warnings blendshapes :
  (∀ bs, bs ∈ blendshapes →
     knownNames_has (Blendshape.presetName bs) = false →
     Blendshape.presetName bs ≠ JString "unknown" →
     ConsoleEntry level_warn
       "Non-comformant emotion preset name found, treating as 'unknown'" ArgObjects
     ∈ (emotionGroups false blendshapes).2
     ∧ ∃ unknownGroup,
         last (emotionGroups false blendshapes).1 = Some unknownGroup
         ∧ emotion_of bs ∈ unknownGroup)
  ∧ ((∀ name, name ∈ knownNames →
        ∃ bs, bs ∈ blendshapes ∧ Blendshape.presetName bs = JString name) →
     (∀ bs, bs ∈ blendshapes →
        knownNames_has (Blendshape.presetName bs) = true
        ∨ Blendshape.presetName bs = JString "unknown") →
     (emotionGroups false blendshapes).2 = []).
Proof.
  split.
  - intros bs Hbs Hknown Hunknown. split.
    + unfold emotionGroups. rewrite Console_bind_snd, Console_bind_snd.
      apply elem_of_app. right. apply elem_of_app. left.
      apply (emotionGroups_unknown_log_elem_of _ _ bs); [done | done |].
      destruct (is_string "unknown" (Blendshape.presetName bs)) eqn:Hs; [| done].
      by apply is_string_true in Hs.
    + rewrite emotionGroups_fst.
      assert (Hin : emotion_of bs
                    ∈ (emotion_of
                         <$> List.filter
                               (λ b, negb (knownNames_has (Blendshape.presetName b)))
                               blendshapes : list (Emotion.t W))).
      { apply list_elem_of_fmap_2, list_elem_of_In, List.filter_In.
        split; [by apply list_elem_of_In | by rewrite Hknown]. }
      destruct (emotion_of <$> List.filter _ blendshapes) as [| e l] eqn:Hunk.
      * by apply elem_of_nil in Hin.
      * exists (e :: l). split; [apply last_snoc | done].
  - intros Hall Hrest. unfold emotionGroups.
    rewrite Console_bind_snd, Console_bind_snd.
    rewrite (emotionGroups_unknown_silent _ _ Hrest).
    rewrite Console_mapM_silent; [reflexivity |].
    intros defaultGroupDef Hdef. apply Console_mapM_silent.
    intros name Hname.
    destruct (Hall name) as (bs & Hbs & Hpreset).
    + unfold knownNames. apply list_elem_of_In, in_concat.
      exists defaultGroupDef. split; by apply list_elem_of_In.
    + by apply (emotionGroups_default_silent _ _ bs).
Qed.

End EmotionGroupsWarnings.

Lemma X22_emotionGroups_warnings_witness :
  ConsoleEntry level_warn
    "Non-comformant emotion preset name found, treating as 'unknown'" ArgObjects
  ∈ (emotionGroups false
       [ {| Blendshape.id := JString "Surprised"; Blendshape.label := JUndefined;
            Blendshape.presetName := JString "surprised";
            Blendshape.weightConfigs := [1%nat] |} ]).2.
Proof.
  destruct (X22_emotionGroups_warnings
              [ {| Blendshape.id := JString "Surprised"; Blendshape.label := JUndefined;
                   Blendshape.presetName := JString "surprised";
                   Blendshape.weightConfigs := [1%nat] |} ])
    as [Hwarn _].
  apply (Hwarn {| Blendshape.id := JString "Surprised"; Blendshape.label := JUndefined;
                  Blendshape.presetName := JString "surprised";
                  Blendshape.weightConfigs := [1%nat] |});
    [left | vm_compute; reflexivity | discriminate].
Defined.
